(** * Input-validation rule engine of the Kintone IC-card loss plugin

    Shallow embedding of the validators of the plugin
    (DataValidator, ICCardValidator, InputValidator) and of the
    ECMAScript built-ins they rely on (strings as sequences of UTF-16
    code units, RegExp matching with its [lastIndex] cursor,
    [String.prototype.replace], [trim], [repeat], [substring]),
    followed by the properties of the specification. *)

From Stdlib Require Import String Ascii.
From Stdlib Require Import List NArith ZArith Bool Lia Arith.
From Stdlib Require Floats Uint63.
Import ListNotations.

Set Implicit Arguments.

(* ================================================================== *)
(** * ECMAScript strings *)
(* ================================================================== *)

Module JsString.

(** An ECMAScript string is a finite sequence of 16-bit code units. *)
Definition char := N.
Definition jsstring := list char.

(** The code units of an ASCII literal. *)
Definition js (s : string) : jsstring :=
  map N_of_ascii (list_ascii_of_string s).

Definition in_range (lo hi c : N) : bool := (lo <=? c)%N && (c <=? hi)%N.

Definition isDigit (c : N) : bool := in_range 48 57 c.

(** [\w] : [A-Za-z0-9_]. *)
Definition isWordChar (c : N) : bool :=
  in_range 97 122 c || in_range 65 90 c || in_range 48 57 c || (c =? 95)%N.

(** LineTerminator: LF, CR, LS, PS. *)
Definition isLineTerminator (c : N) : bool :=
  (c =? 10)%N || (c =? 13)%N || (c =? 8232)%N || (c =? 8233)%N.

(** WhiteSpace and LineTerminator, the set of [\s] and of [trim]:
    TAB, LF, VT, FF, CR, SP, NBSP, U+1680, U+2000..U+200A, LS, PS,
    U+202F, U+205F, U+3000, U+FEFF. *)
Definition isWhiteSpace (c : N) : bool :=
  in_range 9 13 c || (c =? 32)%N || (c =? 160)%N || (c =? 5760)%N
  || in_range 8192 8202 c || (c =? 8232)%N || (c =? 8233)%N
  || (c =? 8239)%N || (c =? 8287)%N || (c =? 12288)%N || (c =? 65279)%N.

Fixpoint trimStart (s : jsstring) : jsstring :=
  match s with
  | c :: tl => if isWhiteSpace c then trimStart tl else s
  | [] => []
  end.

Definition trimEnd (s : jsstring) : jsstring := rev (trimStart (rev s)).

(** [String.prototype.trim]. *)
Definition trim (s : jsstring) : jsstring := trimEnd (trimStart s).

(** [String.prototype.substring(start, end)] and [substring(start)];
    arguments below zero are clamped to zero. *)
Definition substring2 (s : jsstring) (b e : Z) : jsstring :=
  let b' := Z.to_nat b in
  let e' := Z.to_nat e in
  let lo := Nat.min (Nat.min b' e') (length s) in
  let hi := Nat.min (Nat.max b' e') (length s) in
  firstn (hi - lo) (skipn lo s).

Definition substring1 (s : jsstring) (b : Z) : jsstring :=
  skipn (Z.to_nat b) s.

(** [String.prototype.repeat(count)] throws a RangeError on a
    negative count; [None] stands for that exception. *)
Definition repeat (s : jsstring) (count : Z) : option jsstring :=
  if (count <? 0)%Z then None
  else Some (List.concat (List.repeat s (Z.to_nat count))).

(** ASCII case mappings, the part of Canonicalize used by the
    patterns of this program (see [RegExp.canon]). *)
Definition toUpperAscii (c : N) : N :=
  if in_range 97 122 c then (c - 32)%N else c.
Definition toLowerAscii (c : N) : N :=
  if in_range 65 90 c then (c + 32)%N else c.

(** [s.slice(start)], of a string or of an array: a start below
    zero counts from the end. *)
Definition slice1 {A : Type} (s : list A) (b : Z) : list A :=
  let len := Z.of_nat (length s) in
  let from := if (b <? 0)%Z then Z.max (len + b) 0 else Z.min b len in
  skipn (Z.to_nat from) s.

End JsString.
Import JsString.

(* ================================================================== *)
(** * ECMAScript regular expressions *)
(* ================================================================== *)

Module RegExp.

(** Members of a character class. *)
Inductive citem : Type :=
| CChar (c : N)            (* a single character *)
| CRange (lo hi : N)       (* lo-hi *)
| CDigit                   (* \d *)
| CWord                    (* \w *)
| CSpace.                  (* \s *)

(** Terms that consume exactly one code unit. *)
Inductive atom : Type :=
| Lit (c : N)                               (* pattern character *)
| Dot                                       (* . *)
| Class (negated : bool) (items : list citem).   (* [...] and [^...] *)

(** Pattern syntax: the fragment used by the program. Quantifiers
    are greedy; [(?: )] is plain nesting. *)
Inductive regex : Type :=
| Empty
| Chr (a : atom)
| Seq (r1 r2 : regex)
| Alt (r1 r2 : regex)
| Rep (r : regex) (min : nat) (max : option nat)   (* r{min,max} *)
| Group (i : nat) (r : regex)                      (* i-th ( ) *)
| Backref (i : nat)                                (* \i *)
| Bol                                              (* ^ *)
| Eol                                              (* $ *)
| WordB                                            (* \b *)
| NotAhead (r : regex).                            (* (?! ) *)

(** A matcher state: the code unit before the current position (none
    at index 0), the input from the current position on, and the
    captures made so far. *)
Record mstate : Type := MState {
  prev : option N;
  rest : jsstring;
  caps : list (nat * jsstring)
}.

Definition advance (st : mstate) (c : N) (tl : jsstring) : mstate :=
  {| prev := Some c; rest := tl; caps := caps st |}.

Fixpoint get_cap (i : nat) (cs : list (nat * jsstring)) : option jsstring :=
  match cs with
  | [] => None
  | (j, w) :: tl => if Nat.eqb i j then Some w else get_cap i tl
  end.

Definition set_cap (i : nat) (w : jsstring) (st : mstate) : mstate :=
  {| prev := prev st; rest := rest st; caps := (i, w) :: caps st |}.

Fixpoint groups (r : regex) : list nat :=
  match r with
  | Seq a b | Alt a b => groups a ++ groups b
  | Rep a _ _ | NotAhead a => groups a
  | Group i a => i :: groups a
  | _ => []
  end.

Definition clear_caps (gs : list nat) (st : mstate) : mstate :=
  {| prev := prev st; rest := rest st;
     caps := filter (fun p => negb (existsb (Nat.eqb (fst p)) gs)) (caps st) |}.

Definition item_raw (it : citem) (c : N) : bool :=
  match it with
  | CChar a => (a =? c)%N
  | CRange lo hi => in_range lo hi c
  | CDigit => isDigit c
  | CWord => isWordChar c
  | CSpace => isWhiteSpace c
  end.

Section Matcher.

(** The [i] flag. *)
Variable ignoreCase : bool.

(** Canonicalize (no [u] flag), restricted to the ASCII letters.
    A code unit above 127 never canonicalizes to an ASCII one, and
    every pattern of the program that carries the [i] flag is made
    of ASCII characters and of classes without cased members, so
    for those patterns the restriction changes no result. *)
Definition canon (c : N) : N :=
  if ignoreCase then toUpperAscii c else c.

(** A class member [a] accepts [c] when Canonicalize(a) =
    Canonicalize(c) for some [a] of the member. *)
Definition item_match (it : citem) (c : N) : bool :=
  item_raw it c
  || (ignoreCase && (item_raw it (toUpperAscii c) || item_raw it (toLowerAscii c))).

Definition atom_match (a : atom) (c : N) : bool :=
  match a with
  | Lit a => (canon a =? canon c)%N
  | Dot => negb (isLineTerminator c)
  | Class neg items => xorb neg (existsb (fun it => item_match it c) items)
  end.

Definition is_word (o : option N) : bool :=
  match o with Some c => isWordChar c | None => false end.

(** Matching of a captured string at the current position. *)
Fixpoint match_word (w : jsstring) (st : mstate) : list mstate :=
  match w with
  | [] => [st]
  | a :: w' =>
      match rest st with
      | c :: tl =>
          if (canon a =? canon c)%N then match_word w' (advance st c tl) else []
      | [] => []
      end
  end.

(** RepeatMatcher of the standard: [f] matches the quantified
    term once. An iteration that may be skipped ([min] = 0) and
    consumes nothing is rejected; the captures of the quantified
    term are reset before every iteration. The results are in
    backtracking order: more iterations first. [fuel] bounds the
    number of iterations (see [rep_fuel]). *)
Fixpoint rep (f : mstate -> list mstate) (gs : list nat) (fuel : nat)
         (min : nat) (max : option nat) (st : mstate) : list mstate :=
  match fuel with
  | O => []
  | S fuel' =>
      match max with
      | Some O => [st]
      | _ =>
          let more :=
            flat_map
              (fun st' =>
                 if Nat.eqb min 0
                    && Nat.eqb (length (rest st')) (length (rest st))
                 then []
                 else rep f gs fuel' (Nat.pred min) (option_map Nat.pred max) st')
              (f (clear_caps gs st)) in
          if Nat.eqb min 0 then more ++ [st] else more
      end
  end.

(** Every iteration either lowers [min] or consumes input. *)
Definition rep_fuel (min : nat) (st : mstate) : nat :=
  S (min + length (rest st)).

(** [m r st]: all the states in which a match of [r] started in
    [st] can end, in the order in which a backtracking matcher
    tries them. The head, when there is one, is the match that
    ECMAScript reports. *)
Fixpoint m (r : regex) (st : mstate) {struct r} : list mstate :=
  match r with
  | Empty => [st]
  | Chr a =>
      match rest st with
      | c :: tl => if atom_match a c then [advance st c tl] else []
      | [] => []
      end
  | Seq r1 r2 => flat_map (m r2) (m r1 st)
  | Alt r1 r2 => m r1 st ++ m r2 st
  | Rep r' min max => rep (m r') (groups r') (rep_fuel min st) min max st
  | Group i r' =>
      map (fun st' =>
             set_cap i (firstn (length (rest st) - length (rest st')) (rest st)) st')
          (m r' st)
  | Backref i =>
      match get_cap i (caps st) with
      | Some w => match_word w st
      | None => [st]
      end
  | Bol => match prev st with None => [st] | Some _ => [] end
  | Eol => match rest st with [] => [st] | _ :: _ => [] end
  | WordB =>
      if xorb (is_word (prev st)) (is_word (hd_error (rest st)))
      then [st] else []
  | NotAhead r' => match m r' st with [] => [st] | _ :: _ => [] end
  end.

(** A match attempt at one position: the length of the match. *)
Definition match_at (r : regex) (p : option N) (s : jsstring) : option nat :=
  match m r {| prev := p; rest := s; caps := [] |} with
  | st :: _ => Some (length s - length (rest st))
  | [] => None
  end.

(** The leftmost position at or after the current one where [r]
    matches: (offset of the match, length of the match). *)
Fixpoint search (r : regex) (p : option N) (s : jsstring)
  : option (nat * nat) :=
  match match_at r p s with
  | Some len => Some (0, len)
  | None =>
      match s with
      | c :: tl =>
          match search r (Some c) tl with
          | Some (off, len) => Some (S off, len)
          | None => None
          end
      | [] => None
      end
  end.

(** [s.replace(/r/g, '')]: every match, found from left to right
    and each one starting at or after the end of the one before,
    is removed. [skip] counts the code units of the current match
    that are still to be dropped. *)
Fixpoint remove_from (r : regex) (p : option N) (s : jsstring) (skip : nat)
  : jsstring :=
  match s with
  | [] => []
  | c :: tl =>
      match skip with
      | S n => remove_from r (Some c) tl n
      | O =>
          match match_at r p s with
          | Some (S n) => remove_from r (Some c) tl n
          | _ => c :: remove_from r (Some c) tl 0
          end
      end
  end.

End Matcher.

(** A RegExp object: pattern, flags and the [lastIndex] cursor. *)
Record t : Type := Make {
  source : regex;
  ignoreCase : bool;
  global : bool;
  lastIndex : nat
}.

Definition set_lastIndex (re : t) (i : nat) : t :=
  {| source := source re; ignoreCase := ignoreCase re;
     global := global re; lastIndex := i |}.

Definition last_of (s : jsstring) : option N :=
  match rev s with c :: _ => Some c | [] => None end.

(** RegExpBuiltinExec reduced to what [test] observes: without the
    [g] flag the search starts at index 0 and the cursor is left
    alone; with it the search starts at [lastIndex], a match moves
    the cursor to its end and a failure resets it to 0. *)
Definition test (re : t) (s : jsstring) : bool * t :=
  if global re then
    if length s <? lastIndex re then (false, set_lastIndex re 0)
    else
      match search (ignoreCase re) (source re)
                   (last_of (firstn (lastIndex re) s))
                   (skipn (lastIndex re) s) with
      | Some (off, len) => (true, set_lastIndex re (lastIndex re + off + len))
      | None => (false, set_lastIndex re 0)
      end
  else
    match search (ignoreCase re) (source re) None s with
    | Some _ => (true, re)
    | None => (false, re)
    end.

(** [s.replace(re, '')] for a pattern with the [g] flag. *)
Definition replace_all (ic : bool) (r : regex) (s : jsstring) : jsstring :=
  remove_from ic r None s 0.

(** [s.replace(/r/g, f)] for a replacer function [f], which is
    given the matched substring: every match, found from left to
    right and each one starting at or after the end of the one
    before, is replaced by what [f] returns for it. After an empty
    match the search moves on by one code unit. [skip] counts the
    code units of the current match that are still to be dropped. *)
Fixpoint replace_from (ic : bool) (f : jsstring -> jsstring) (r : regex)
         (p : option N) (s : jsstring) (skip : nat) : jsstring :=
  match s with
  | [] =>
      match skip with
      | O => match match_at ic r p [] with Some _ => f [] | None => [] end
      | S _ => []
      end
  | c :: tl =>
      match skip with
      | S n => replace_from ic f r (Some c) tl n
      | O =>
          match match_at ic r p s with
          | Some (S n) => f (firstn (S n) s) ++ replace_from ic f r (Some c) tl n
          | Some O => f [] ++ c :: replace_from ic f r (Some c) tl 0
          | None => c :: replace_from ic f r (Some c) tl 0
          end
      end
  end.

Definition replace_all_with (ic : bool) (r : regex) (f : jsstring -> jsstring)
           (s : jsstring) : jsstring :=
  replace_from ic f r None s 0.

(** [s.replace(re, template)] for a pattern without the [g] flag:
    the leftmost match is replaced by what [f] returns for its
    captures, and a string without a match is returned as it is.
    The state in which the match ends holds the captures and the
    input that follows the match. *)
Fixpoint replace_first (ic : bool) (r : regex) (f : list (nat * jsstring) -> jsstring)
         (p : option N) (s : jsstring) : jsstring :=
  match m ic r {| prev := p; rest := s; caps := [] |} with
  | st :: _ => f (caps st) ++ rest st
  | [] =>
      match s with
      | c :: tl => c :: replace_first ic r f (Some c) tl
      | [] => []
      end
  end.

(** [$i] in a replacement template: the capture of the group, the
    empty string when the group took no part in the match. *)
Definition capture (i : nat) (cs : list (nat * jsstring)) : jsstring :=
  match get_cap i cs with
  | Some w => w
  | None => []
  end.

(** ** Pattern notation *)

Definition chr (a : string) : N :=
  match a with
  | String c _ => N_of_ascii c
  | EmptyString => 0%N
  end.

Fixpoint seqs (rs : list regex) : regex :=
  match rs with
  | [] => Empty
  | [r] => r
  | r :: tl => Seq r (seqs tl)
  end.

Fixpoint alts (rs : list regex) : regex :=
  match rs with
  | [] => Empty
  | [r] => r
  | r :: tl => Alt r (alts tl)
  end.

(** A run of pattern characters. *)
Definition lit (s : string) : regex := seqs (map (fun c => Chr (Lit c)) (js s)).

Definition star (r : regex) : regex := Rep r 0 None.
Definition plus (r : regex) : regex := Rep r 1 None.
Definition opt (r : regex) : regex := Rep r 0 (Some 1).
Definition range (lo hi : string) : citem := CRange (chr lo) (chr hi).
Definition cc (a : string) : citem := CChar (chr a).
Definition set (items : list citem) : regex := Chr (Class false items).
Definition nset (items : list citem) : regex := Chr (Class true items).
Definition dot : regex := Chr Dot.

End RegExp.

(* ================================================================== *)
(** * InputValidator.js : the sanitizer *)
(* ================================================================== *)

Module InputValidator.
Import RegExp.

(** The pattern of a whole element, written here with blanks
    between its parts:  <tag\b  [^<]*  (?: (?!<\/tag>) < [^<]* )*  <\/tag>  *)
Definition element (tag : string) : regex :=
  seqs [ lit ("<" ++ tag); WordB; star (nset [cc "<"]);
         star (seqs [ NotAhead (lit ("</" ++ tag ++ ">")); lit "<";
                      star (nset [cc "<"]) ]);
         lit ("</" ++ tag ++ ">") ].

(** [/[\x00-\x1F\x7F]/g] *)
Definition controlChars : regex := set [CRange 0 31; CChar 127].

(** [/on\w+\s*=\s*[^>\s]+/gi] *)
Definition eventHandler : regex :=
  seqs [ lit "on"; plus (set [CWord]); star (set [CSpace]); lit "=";
         star (set [CSpace]); plus (nset [cc ">"; CSpace]) ].

(** [sanitizeInput(input)] for a string argument (any other type
    gives the empty string). *)
Definition sanitizeInput (input : jsstring) : jsstring :=
  let sanitized := input in
  let sanitized := replace_all false controlChars sanitized in
  let sanitized := replace_all true (element "script") sanitized in
  let sanitized := replace_all true (element "iframe") sanitized in
  let sanitized := replace_all true (element "object") sanitized in
  let sanitized := replace_all true eventHandler sanitized in
  let sanitized := replace_all true (lit "javascript:") sanitized in
  let sanitized := replace_all true (lit "vbscript:") sanitized in
  let sanitized := trim sanitized in
  sanitized.

End InputValidator.

(* ================================================================== *)
(** * Collaborators that are not part of the validators *)
(* ================================================================== *)

(** The validators hold an input validator (module
    security/input-validator.js) and a hash manager (module
    security/hash-manager.js) and call the methods below on them.
    Neither module is among the source files, so what the methods
    compute is left open: the objects are fields of the validators,
    as in the source, and every property holds for all of them or
    says what it asks of them. *)
Record InputValidatorApi : Type := {
  sanitizeString : jsstring -> jsstring;
  isValidString : jsstring -> bool
}.

Record HashManagerApi : Type := {
  generateHash : jsstring -> jsstring
}.

(** Objects used as maps from property names to values. An object
    is given by its own properties, in the order in which
    [Object.entries] lists them, and by its prototype. The objects
    of the program are made by object literals, so their prototype
    is [Object.prototype], with the members that the standard gives
    it; an assignment to [__proto__] can replace it. *)
Module Obj.

Definition key_eqb (a b : jsstring) : bool :=
  if list_eq_dec N.eq_dec a b then true else false.

(** The own property [k], when there is one. *)
Fixpoint get {A : Type} (k : jsstring) (o : list (jsstring * A)) : option A :=
  match o with
  | [] => None
  | (k', a) :: tl => if key_eqb k k' then Some a else get k tl
  end.

(** The own property [k] set to [a]: an own property keeps its
    place, a new one comes last. *)
Fixpoint put {A : Type} (k : jsstring) (a : A) (o : list (jsstring * A))
  : list (jsstring * A) :=
  match o with
  | [] => [(k, a)]
  | (k', a') :: tl =>
      if key_eqb k k' then (k, a) :: tl else (k', a') :: put k a tl
  end.

(** [Object.hasOwn(o, k)] *)
Definition has {A : Type} (k : jsstring) (o : list (jsstring * A)) : bool :=
  match get k o with Some _ => true | None => false end.

(** The properties of [Object.prototype]: eleven functions and the
    accessor [__proto__], whose getter returns the prototype of the
    object and whose setter replaces it when it is given an object or
    [null], and does nothing when it is given another primitive. *)
Definition prototype_names : list string :=
  [ "constructor"; "__defineGetter__"; "__defineSetter__"; "hasOwnProperty";
    "__lookupGetter__"; "__lookupSetter__"; "isPrototypeOf";
    "propertyIsEnumerable"; "toString"; "valueOf"; "__proto__";
    "toLocaleString" ]%string.

Definition inherited (k : jsstring) : bool :=
  existsb (fun name => key_eqb k (js name)) prototype_names.

Definition is_proto (k : jsstring) : bool := key_eqb k (js "__proto__").

(** [k in o], for an object with the prototype [Object.prototype]. *)
Definition has_property {A : Type} (k : jsstring) (o : list (jsstring * A)) : bool :=
  has k o || inherited k.

(** [o[k]], for an object with the prototype [Object.prototype]:
    the own property, else the member of the prototype (a function,
    or the prototype itself for [__proto__]), else [undefined]. *)
Inductive Read (A : Type) : Type :=
| Own (a : A)
| Member
| Undefined.
Arguments Own {A} a.
Arguments Member {A}.
Arguments Undefined {A}.

Definition read {A : Type} (k : jsstring) (o : list (jsstring * A)) : Read A :=
  match get k o with
  | Some a => Own a
  | None => if inherited k then Member else Undefined
  end.

(** [o[k] = a] where [a] is an object and the prototype chain of [o]
    ends in [Object.prototype]: the own properties and the prototype
    ([None]: the one it had, [Some a]: [a]) afterwards. The name
    [__proto__] reaches the setter unless [o] has an own property of
    that name. *)
Definition assign_object {A : Type} (k : jsstring) (a : A)
           (o : list (jsstring * A)) (proto : option A)
  : list (jsstring * A) * option A :=
  match get k o with
  | Some _ => (put k a o, proto)
  | None => if is_proto k then (o, Some a) else (put k a o, proto)
  end.

(** [o[k] = a] where [a] is a string: the setter of [__proto__]
    does nothing with it. *)
Definition assign_string {A : Type} (k : jsstring) (a : A)
           (o : list (jsstring * A)) : list (jsstring * A) :=
  match get k o with
  | Some _ => put k a o
  | None => if is_proto k then o else put k a o
  end.

End Obj.

(* ================================================================== *)
(** * DataValidator *)
(* ================================================================== *)

Module DataValidator.
Import RegExp.
Local Open Scope string_scope.
Local Open Scope list_scope.
Local Open Scope nat_scope.

(** ** Pattern library *)

Definition re (r : regex) : RegExp.t :=
  {| source := r; ignoreCase := false; global := false; lastIndex := 0 |}.
Definition re_i (r : regex) : RegExp.t :=
  {| source := r; ignoreCase := true; global := false; lastIndex := 0 |}.
Definition re_gi (r : regex) : RegExp.t :=
  {| source := r; ignoreCase := true; global := true; lastIndex := 0 |}.

(** [\b(w1|w2|...)\b] inside an outer group, as in
    [/(\b(SELECT|INSERT)\b)/i]. *)
Definition keywords (ws : list string) : regex :=
  Group 1 (seqs [WordB; Group 2 (alts (map lit ws)); WordB]).

(** The double quote, code unit 34. *)
Definition dquote : regex := Chr (Lit 34).

Definition sqlInjectionPatterns0 : list RegExp.t :=
  [ (* /(\b(SELECT|INSERT|UPDATE|DELETE|DROP|CREATE|ALTER|EXEC|UNION)\b)/i *)
    re_i (keywords ["SELECT"; "INSERT"; "UPDATE"; "DELETE"; "DROP";
                    "CREATE"; "ALTER"; "EXEC"; "UNION"]);
    (* the alternatives  \-\-  \#  \/\*  \*\/  in one group *)
    re (Group 1 (alts [lit "--"; lit "#"; lit "/*"; lit "*/"]));
    (* /(\b(OR|AND)\b.*=.*(\b(OR|AND)\b|$))/i *)
    re_i (Group 1 (seqs [ WordB; Group 2 (alts [lit "OR"; lit "AND"]); WordB;
                          star dot; lit "="; star dot;
                          Group 3 (alts [ seqs [WordB;
                                                Group 4 (alts [lit "OR"; lit "AND"]);
                                                WordB];
                                          Eol ]) ]));
    (* a quote (single or double) in group 1, then .* , then
       (\bOR\b|\bAND\b), then .* , then (\1); flag i *)
    re_i (seqs [ Group 1 (alts [lit "'"; dquote]); star dot;
                 Group 2 (alts [ seqs [WordB; lit "OR"; WordB];
                                 seqs [WordB; lit "AND"; WordB] ]);
                 star dot; Group 3 (Backref 1) ]);
    (* /(\b(SCRIPT|JAVASCRIPT|VBSCRIPT)\b)/i *)
    re_i (keywords ["SCRIPT"; "JAVASCRIPT"; "VBSCRIPT"]) ].

Definition osCommandPatterns0 : list RegExp.t :=
  [ (* /(\||;|&|`|\$\(|\$\{)/ *)
    re (Group 1 (alts [lit "|"; lit ";"; lit "&"; lit "`"; lit "$("; lit "${"]));
    (* /(\b(rm|del|format|mkdir|rmdir|copy|move|exec|eval|system|shell_exec)\b)/i *)
    re_i (keywords ["rm"; "del"; "format"; "mkdir"; "rmdir"; "copy"; "move";
                    "exec"; "eval"; "system"; "shell_exec"]);
    (* /(\.\.\/|\.\.\\)/ *)
    re (Group 1 (alts [lit "../"; lit "..\"]));
    (* /(\b(sudo|su|chmod|chown)\b)/i *)
    re_i (keywords ["sudo"; "su"; "chmod"; "chown"]) ].

Definition xssPatterns0 : list RegExp.t :=
  [ (* the script element, flags gi *)
    re_gi (InputValidator.element "script");
    (* the iframe element, flags gi *)
    re_gi (InputValidator.element "iframe");
    (* /javascript:/gi *)
    re_gi (lit "javascript:");
    (* /on\w+\s*=/gi *)
    re_gi (seqs [lit "on"; plus (set [CWord]); star (set [CSpace]); lit "="]);
    (* /<\s*(object|embed|applet|meta)\b/gi *)
    re_gi (seqs [ lit "<"; star (set [CSpace]);
                  Group 1 (alts [lit "object"; lit "embed"; lit "applet"; lit "meta"]);
                  WordB ]) ].

(** Character ranges of the Japanese scripts used by the field
    patterns: hiragana U+3041..U+3093, katakana U+30A1..U+30F6, the
    long vowel mark U+30FC, kanji U+4E00..U+9FA0. *)
Definition japanese : list citem :=
  [CRange 12353 12435; CRange 12449 12534; CChar 12540; CRange 19968 40864].

Definition letters : list citem := [range "a" "z"; range "A" "Z"].
Definition digits : list citem := [range "0" "9"].

(** [^[items]{lo,hi}$] *)
Definition bounded (items : list citem) (lo hi : nat) : RegExp.t :=
  re (seqs [Bol; Rep (set items) lo (Some hi); Eol]).

(** [^(w1|w2|...)$] *)
Definition one_of (ws : list string) : RegExp.t :=
  re (seqs [Bol; Group 1 (alts (map lit ws)); Eol]).

Definition d (n : nat) : regex := Rep (set [CDigit]) n (Some n).

(** ** Field rules *)

Record FieldRule : Type := {
  pattern : option RegExp.t;
  maxLength : nat;
  required : bool;
  sanitize : bool;
  description : string
}.

Definition rule (p : option RegExp.t) (len : nat) (req : bool) (descr : string)
  : FieldRule :=
  {| pattern := p; maxLength := len; required := req; sanitize := true;
     description := descr |}.

Definition validationRules0 : list (jsstring * FieldRule) :=
  [ (js "employeeId",
     (* /^[A-Za-z0-9]{6,12}$/ *)
     rule (Some (bounded [range "A" "Z"; range "a" "z"; range "0" "9"] 6 12))
          12 true "従業員ID（英数字6-12桁）");
    (js "employeeName",
     rule (Some (bounded (japanese ++ letters ++ [CSpace]) 1 50))
          50 true "従業員名（日本語・英字、50文字以内）");
    (js "department",
     rule (Some (bounded (japanese ++ letters ++ digits ++ [CSpace; cc "-"]) 1 30))
          30 true "部署名（30文字以内）");
    (js "email",
     (* /^[a-zA-Z0-9._%+-]+@[a-zA-Z0-9.-]+\.[a-zA-Z]{2,}$/ *)
     rule (Some (re (seqs
             [ Bol;
               plus (set (letters ++ digits ++ [cc "."; cc "_"; cc "%"; cc "+"; cc "-"]));
               lit "@";
               plus (set (letters ++ digits ++ [cc "."; cc "-"]));
               lit ".";
               Rep (set letters) 2 None;
               Eol ])))
          100 false "メールアドレス");
    (js "phoneNumber",
     (* /^[0-9\-\(\)\s]{10,15}$/ *)
     rule (Some (bounded (digits ++ [cc "-"; cc "("; cc ")"; CSpace]) 10 15))
          15 false "電話番号");
    (js "icCardNumber",
     (* /^[0-9]{4,20}$/ *)
     rule (Some (bounded digits 4 20)) 20 true "ICカード番号（数字4-20桁）");
    (js "cardType",
     rule (Some (one_of ["SUICA"; "PASMO"; "ICOCA"; "MANACA"; "TOICA"; "SUGOCA";
                         "KITACA"; "HAYAKAKEN"; "NIMOCA"; "CORPORATE"; "STUDENT"]))
          20 true "ICカードタイプ");
    (js "lossDate",
     (* /^\d{4}-\d{2}-\d{2}$/ *)
     rule (Some (re (seqs [Bol; d 4; lit "-"; d 2; lit "-"; d 2; Eol])))
          10 true "紛失日（YYYY-MM-DD形式）");
    (js "lossTime",
     (* /^([01]?[0-9]|2[0-3]):[0-5][0-9]$/ *)
     rule (Some (re (seqs
             [ Bol;
               Group 1 (alts [ seqs [opt (set [cc "0"; cc "1"]); set digits];
                               seqs [lit "2"; set [range "0" "3"]] ]);
               lit ":"; set [range "0" "5"]; set digits; Eol ])))
          5 false "紛失時刻（HH:MM形式）");
    (js "lossLocation",
     rule (Some (bounded (japanese ++ letters ++ digits
                            ++ [CSpace; cc "-"; cc "("; cc ")"]) 1 100))
          100 true "紛失場所（100文字以内）");
    (js "transportationProvider",
     rule (Some (bounded (japanese ++ letters ++ digits ++ [CSpace; cc "-"]) 1 50))
          50 false "交通機関名（50文字以内）");
    (js "reportStatus",
     rule (Some (one_of ["DRAFT"; "SUBMITTED"; "PROCESSING"; "COMPLETED"; "CANCELLED"]))
          20 true "報告ステータス");
    (js "priority",
     rule (Some (one_of ["LOW"; "MEDIUM"; "HIGH"; "URGENT"]))
          10 false "優先度");
    (js "description", rule None 500 false "詳細説明（500文字以内）");
    (js "notes", rule None 1000 false "備考（1000文字以内）") ].

(** ** The validator object *)

Record ViolationTypes : Type := {
  sqlInjection : nat;
  osCommand : nat;
  xss : nat;
  invalidFormat : nat;
  excessiveLength : nat
}.

(** The statistics; the time stamp [lastValidation] is left out. *)
Record Stats : Type := {
  totalValidations : nat;
  successfulValidations : nat;
  failedValidations : nat;
  securityViolations : nat;
  violationTypes : ViolationTypes
}.

Definition stats0 : Stats :=
  {| totalValidations := 0; successfulValidations := 0; failedValidations := 0;
     securityViolations := 0;
     violationTypes := {| sqlInjection := 0; osCommand := 0; xss := 0;
                          invalidFormat := 0; excessiveLength := 0 |} |}.

(** [validationRules] holds the own properties of the rule
    registry and [rulesPrototype] its prototype: [None] is
    [Object.prototype], which the constructor gives it, and
    [Some rule] the rule object that an assignment to [__proto__] has
    put in its place. *)
Record t : Type := {
  inputValidator : InputValidatorApi;
  hashManager : HashManagerApi;
  validationRules : list (jsstring * FieldRule);
  rulesPrototype : option FieldRule;
  sqlInjectionPatterns : list RegExp.t;
  osCommandPatterns : list RegExp.t;
  xssPatterns : list RegExp.t;
  stats : Stats
}.

(** [new DataValidator()] *)
Definition new (iv : InputValidatorApi) (hm : HashManagerApi) : t :=
  {| inputValidator := iv; hashManager := hm;
     validationRules := validationRules0;
     rulesPrototype := None;
     sqlInjectionPatterns := sqlInjectionPatterns0;
     osCommandPatterns := osCommandPatterns0;
     xssPatterns := xssPatterns0;
     stats := stats0 |}.

Definition with_stats (v : t) (f : Stats -> Stats) : t :=
  {| inputValidator := inputValidator v; hashManager := hashManager v;
     validationRules := validationRules v;
     rulesPrototype := rulesPrototype v;
     sqlInjectionPatterns := sqlInjectionPatterns v;
     osCommandPatterns := osCommandPatterns v;
     xssPatterns := xssPatterns v;
     stats := f (stats v) |}.

Definition with_violations (v : t) (f : ViolationTypes -> ViolationTypes) : t :=
  with_stats v (fun s =>
    {| totalValidations := totalValidations s;
       successfulValidations := successfulValidations s;
       failedValidations := failedValidations s;
       securityViolations := securityViolations s;
       violationTypes := f (violationTypes s) |}).

Definition with_sql (v : t) (ps : list RegExp.t) : t :=
  {| inputValidator := inputValidator v; hashManager := hashManager v;
     validationRules := validationRules v;
     rulesPrototype := rulesPrototype v;
     sqlInjectionPatterns := ps;
     osCommandPatterns := osCommandPatterns v;
     xssPatterns := xssPatterns v;
     stats := stats v |}.

Definition with_os (v : t) (ps : list RegExp.t) : t :=
  {| inputValidator := inputValidator v; hashManager := hashManager v;
     validationRules := validationRules v;
     rulesPrototype := rulesPrototype v;
     sqlInjectionPatterns := sqlInjectionPatterns v;
     osCommandPatterns := ps;
     xssPatterns := xssPatterns v;
     stats := stats v |}.

Definition with_xss (v : t) (ps : list RegExp.t) : t :=
  {| inputValidator := inputValidator v; hashManager := hashManager v;
     validationRules := validationRules v;
     rulesPrototype := rulesPrototype v;
     sqlInjectionPatterns := sqlInjectionPatterns v;
     osCommandPatterns := osCommandPatterns v;
     xssPatterns := ps;
     stats := stats v |}.

Definition with_rules (v : t) (rs : list (jsstring * FieldRule)) : t :=
  {| inputValidator := inputValidator v; hashManager := hashManager v;
     validationRules := rs;
     rulesPrototype := rulesPrototype v;
     sqlInjectionPatterns := sqlInjectionPatterns v;
     osCommandPatterns := osCommandPatterns v;
     xssPatterns := xssPatterns v;
     stats := stats v |}.

Definition with_prototype (v : t) (proto : option FieldRule) : t :=
  {| inputValidator := inputValidator v; hashManager := hashManager v;
     validationRules := validationRules v;
     rulesPrototype := proto;
     sqlInjectionPatterns := sqlInjectionPatterns v;
     osCommandPatterns := osCommandPatterns v;
     xssPatterns := xssPatterns v;
     stats := stats v |}.

(** [this.stats.totalValidations++] and the like *)
Definition incr_total (v : t) : t :=
  with_stats v (fun s =>
    {| totalValidations := S (totalValidations s);
       successfulValidations := successfulValidations s;
       failedValidations := failedValidations s;
       securityViolations := securityViolations s;
       violationTypes := violationTypes s |}).

Definition incr_successful (v : t) : t :=
  with_stats v (fun s =>
    {| totalValidations := totalValidations s;
       successfulValidations := S (successfulValidations s);
       failedValidations := failedValidations s;
       securityViolations := securityViolations s;
       violationTypes := violationTypes s |}).

Definition incr_failed (v : t) : t :=
  with_stats v (fun s =>
    {| totalValidations := totalValidations s;
       successfulValidations := successfulValidations s;
       failedValidations := S (failedValidations s);
       securityViolations := securityViolations s;
       violationTypes := violationTypes s |}).

Definition incr_securityViolations (v : t) : t :=
  with_stats v (fun s =>
    {| totalValidations := totalValidations s;
       successfulValidations := successfulValidations s;
       failedValidations := failedValidations s;
       securityViolations := S (securityViolations s);
       violationTypes := violationTypes s |}).

Definition incr_sqlInjection (v : t) : t :=
  with_violations v (fun c =>
    {| sqlInjection := S (sqlInjection c); osCommand := osCommand c; xss := xss c;
       invalidFormat := invalidFormat c; excessiveLength := excessiveLength c |}).

Definition incr_osCommand (v : t) : t :=
  with_violations v (fun c =>
    {| sqlInjection := sqlInjection c; osCommand := S (osCommand c); xss := xss c;
       invalidFormat := invalidFormat c; excessiveLength := excessiveLength c |}).

Definition incr_xss (v : t) : t :=
  with_violations v (fun c =>
    {| sqlInjection := sqlInjection c; osCommand := osCommand c; xss := S (xss c);
       invalidFormat := invalidFormat c; excessiveLength := excessiveLength c |}).

Definition incr_invalidFormat (v : t) : t :=
  with_violations v (fun c =>
    {| sqlInjection := sqlInjection c; osCommand := osCommand c; xss := xss c;
       invalidFormat := S (invalidFormat c); excessiveLength := excessiveLength c |}).

Definition incr_excessiveLength (v : t) : t :=
  with_violations v (fun c =>
    {| sqlInjection := sqlInjection c; osCommand := osCommand c; xss := xss c;
       invalidFormat := invalidFormat c; excessiveLength := S (excessiveLength c) |}).

(** ** performSecurityCheck *)

Inductive Violation : Type := SQL_INJECTION | OS_COMMAND_INJECTION | XSS.

(** The result object: [{ safe: true }] or
    [{ safe: false, violation, message, pattern }] (the message is
    fixed by the violation). *)
Inductive SecurityCheck : Type :=
| Safe
| Unsafe (violation : Violation) (pattern : regex).

Definition safe (c : SecurityCheck) : bool :=
  match c with Safe => true | Unsafe _ _ => false end.

Definition violation (c : SecurityCheck) : option Violation :=
  match c with Safe => None | Unsafe k _ => Some k end.

(** [for (const pattern of patterns) { if (pattern.test(value)) ... return }]:
    the first pattern whose [test] succeeds, and the pattern
    objects as the tests leave them. *)
Fixpoint first_test (patterns : list RegExp.t) (value : jsstring)
  : option RegExp.t * list RegExp.t :=
  match patterns with
  | [] => (None, [])
  | p :: tl =>
      let (b, p') := test p value in
      if b then (Some p', p' :: tl)
      else
        let (hit, tl') := first_test tl value in
        (hit, p' :: tl')
  end.

(** The [catch] branch is left out: [test] does not throw on a
    string. *)
Definition performSecurityCheck (v : t) (value fieldName : jsstring)
  : SecurityCheck * t :=
  let (hit, ps) := first_test (sqlInjectionPatterns v) value in
  let v := with_sql v ps in
  match hit with
  | Some p => (Unsafe SQL_INJECTION (source p), incr_sqlInjection v)
  | None =>
      let (hit, ps) := first_test (osCommandPatterns v) value in
      let v := with_os v ps in
      match hit with
      | Some p => (Unsafe OS_COMMAND_INJECTION (source p), incr_osCommand v)
      | None =>
          let (hit, ps) := first_test (xssPatterns v) value in
          let v := with_xss v ps in
          match hit with
          | Some p => (Unsafe XSS (source p), incr_xss v)
          | None => (Safe, v)
          end
      end
  end.

(** ** validateField *)

(** What an exception handler finds when it reads the property
    [message] of the value that it has caught: the read throws a
    TypeError on [null] and on [undefined] (and throws on an object
    whose [message] throws when it is read), and gives a value on an
    [Error] and on every other value. *)
Inductive Exception : Type :=
| Unreadable
| Readable.

(** [String(value)] returns a string or throws. *)
Inductive Conversion : Type :=
| Returns (s : jsstring)
| Throws (e : Exception).

(** The argument [value] has any type: [null], [undefined], a
    string, or another value, given by what [String(value)] does
    with it. *)
Inductive Value : Type :=
| VNull
| VUndefined
| VString (s : jsstring)
| VOther (conversion : Conversion).

Definition String_ (value : Value) : option jsstring :=
  match value with
  | VNull => Some (js "null")
  | VUndefined => Some (js "undefined")
  | VString s => Some s
  | VOther (Returns s) => Some s
  | VOther (Throws _) => None
  end.

(** The value that [String(value)] throws. *)
Definition thrown (value : Value) : option Exception :=
  match value with
  | VOther (Throws e) => Some e
  | _ => None
  end.

Record Options : Type := { allowEmpty : bool }.
Definition no_options : Options := {| allowEmpty := false |}.

(** The result objects of [validateField], one constructor for
    every [return]; messages are left out. *)
Inductive FieldResult : Type :=
| Ok (sanitizedValue : jsstring) (originalValue : option jsstring)
| UNKNOWN_FIELD
| REQUIRED_FIELD
| SECURITY_VIOLATION (violationType : Violation)
| EXCESSIVE_LENGTH (actualLength maxLength : nat)
| INVALID_FORMAT (expectedFormat : regex)
| VALIDATION_ERROR.

Definition valid (r : FieldResult) : bool :=
  match r with Ok _ _ => true | _ => false end.

Definition sanitizedValue (r : FieldResult) : jsstring :=
  match r with Ok s _ => s | _ => [] end.

(** What [this.validationRules[fieldName]] reads: a rule object;
    a property of the rule object that is the prototype of the
    registry; or a member of [Object.prototype] (a function, or
    [Object.prototype] itself for [__proto__]). *)
Inductive RuleValue : Type :=
| RuleObject (rule : FieldRule)
| PatternValue (p : RegExp.t)
| NumberValue (n : nat)
| BooleanValue (b : bool)
| StringValue (s : string)
| PrototypeMember.

(** [None] is [undefined], or the [null] of a rule without pattern. *)
Definition read_rule (v : t) (fieldName : jsstring) : option RuleValue :=
  match Obj.get fieldName (validationRules v) with
  | Some rule => Some (RuleObject rule)
  | None =>
      match rulesPrototype v with
      | Some proto =>
          if Obj.key_eqb fieldName (js "pattern") then
            option_map PatternValue (pattern proto)
          else if Obj.key_eqb fieldName (js "maxLength") then
            Some (NumberValue (maxLength proto))
          else if Obj.key_eqb fieldName (js "required") then
            Some (BooleanValue (required proto))
          else if Obj.key_eqb fieldName (js "sanitize") then
            Some (BooleanValue (sanitize proto))
          else if Obj.key_eqb fieldName (js "description") then
            Some (StringValue (description proto))
          else if Obj.is_proto fieldName then Some (RuleObject proto)
          else if Obj.inherited fieldName then Some PrototypeMember
          else None
      | None => if Obj.inherited fieldName then Some PrototypeMember else None
      end
  end.

(** ToBoolean *)
Definition truthy (a : RuleValue) : bool :=
  match a with
  | RuleObject _ | PatternValue _ | PrototypeMember => true
  | NumberValue n => negb (n =? 0)
  | BooleanValue b => b
  | StringValue s => negb (String.eqb s "")
  end.

(** The properties that validateField reads of what it takes for
    a rule; a value that is no rule object has none of them, so each
    one reads as [undefined]. *)
Definition rule_required (a : RuleValue) : bool :=
  match a with RuleObject rule => required rule | _ => false end.

Definition rule_pattern (a : RuleValue) : option RegExp.t :=
  match a with RuleObject rule => pattern rule | _ => None end.

Definition rule_sanitize (a : RuleValue) : bool :=
  match a with RuleObject rule => sanitize rule | _ => false end.

(** [length > rule.maxLength]: the limit, when it is exceeded. *)
Definition exceeded (a : RuleValue) (length : nat) : option nat :=
  match a with
  | RuleObject rule => if maxLength rule <? length then Some (maxLength rule) else None
  | _ => None
  end.

(** The rule object found under [fieldName] put back with its
    pattern object as a test has left it: the object is an own
    property of the registry, or its prototype. *)
Definition set_pattern (v : t) (fieldName : jsstring) (rule : FieldRule)
           (p : RegExp.t) : t :=
  let rule :=
    {| pattern := Some p; maxLength := maxLength rule;
       required := required rule; sanitize := sanitize rule;
       description := description rule |} in
  match Obj.get fieldName (validationRules v) with
  | Some _ => with_rules v (Obj.put fieldName rule (validationRules v))
  | None =>
      match rulesPrototype v with
      | Some _ => with_prototype v (Some rule)
      | None => v
      end
  end.

(** [rule.pattern.test(stringValue)], with the pattern object of
    the rule updated in the registry. *)
Definition test_rule (v : t) (fieldName : jsstring) (rule : RuleValue)
           (p : RegExp.t) (stringValue : jsstring) : bool * t :=
  let (b, p') := test p stringValue in
  (b, match rule with
      | RuleObject rule => set_pattern v fieldName rule p'
      | _ => v
      end).

Definition finish (v : t) (rule : RuleValue) (stringValue : jsstring)
  : FieldResult * t :=
  let sanitizedValue :=
    if rule_sanitize rule then sanitizeString (inputValidator v) stringValue
    else stringValue in
  (Ok sanitizedValue (Some stringValue), incr_successful v).

(** Calls of the logger are left out. The [catch] branch is taken
    when [String(value)] throws; its handler does not look at what it
    has caught. *)
Definition validateField (v : t) (fieldName : jsstring) (value : Value)
           (options : Options) : FieldResult * t :=
  let v := incr_total v in
  match read_rule v fieldName with
  | None => (UNKNOWN_FIELD, incr_failed v)
  | Some rule =>
      if negb (truthy rule) then (UNKNOWN_FIELD, incr_failed v)
      else
        match value with
        | VNull | VUndefined =>
            if rule_required rule && negb (allowEmpty options)
            then (REQUIRED_FIELD, incr_failed v)
            else (Ok [] None, incr_successful v)
        | _ =>
            match String_ value with
            | None => (VALIDATION_ERROR, incr_failed v)
            | Some stringValue =>
                let (securityCheck, v) := performSecurityCheck v stringValue fieldName in
                match securityCheck with
                | Unsafe violation _ =>
                    (SECURITY_VIOLATION violation,
                     incr_failed (incr_securityViolations v))
                | Safe =>
                    match exceeded rule (length stringValue) with
                    | Some maxLength =>
                        (EXCESSIVE_LENGTH (length stringValue) maxLength,
                         incr_failed (incr_excessiveLength v))
                    | None =>
                        if rule_required rule && (length (trim stringValue) =? 0) then
                          (REQUIRED_FIELD, incr_failed v)
                        else
                          match rule_pattern rule with
                          | Some p =>
                              if 0 <? length (trim stringValue) then
                                let (b, v) :=
                                  test_rule v fieldName rule p stringValue in
                                if negb b then
                                  (INVALID_FORMAT (source p),
                                   incr_failed (incr_invalidFormat v))
                                else finish v rule stringValue
                              else finish v rule stringValue
                          | None => finish v rule stringValue
                          end
                    end
                end
            end
        end
  end.

(** ** validateObject *)

Inductive ObjectError : Type :=
| MISSING_REQUIRED_FIELD (field : jsstring)
| FieldError (field : jsstring) (result : FieldResult).

(** [sanitizedData] and [fieldResults] are the own properties of
    the two objects; [fieldResultsPrototype] is the prototype of
    [fieldResults], [None] for [Object.prototype]. *)
Record ObjectResult : Type := {
  o_valid : bool;
  errors : list ObjectError;
  sanitizedData : list (jsstring * jsstring);
  fieldResults : list (jsstring * FieldResult);
  fieldResultsPrototype : option FieldResult;
  dataHash : option jsstring
}.

Definition results0 : ObjectResult :=
  {| o_valid := true; errors := []; sanitizedData := []; fieldResults := [];
     fieldResultsPrototype := None; dataHash := None |}.

(** [!(field in data) || data[field] === null || data[field] === undefined],
    for an object [data] with the prototype [Object.prototype]: a
    name that [data] inherits is in [data] and reads as a function
    (as the prototype, for [__proto__]). *)
Definition is_missing (data : list (jsstring * Value)) (field : jsstring) : bool :=
  negb (Obj.has_property field data)
  || match Obj.read field data with
     | Obj.Own VNull | Obj.Own VUndefined | Obj.Undefined => true
     | Obj.Own _ | Obj.Member => false
     end.

(** The first loop: [for (const field of requiredFields)] *)
Fixpoint check_required (data : list (jsstring * Value))
         (requiredFields : list jsstring) (results : ObjectResult) : ObjectResult :=
  match requiredFields with
  | [] => results
  | field :: tl =>
      let results :=
        if is_missing data field then
          {| o_valid := false;
             errors := errors results ++ [MISSING_REQUIRED_FIELD field];
             sanitizedData := sanitizedData results;
             fieldResults := fieldResults results;
             fieldResultsPrototype := fieldResultsPrototype results;
             dataHash := dataHash results |}
        else results in
      check_required data tl results
  end.

(** The second loop: [for (const [fieldName, value] of Object.entries(data))].
    The result of a field is an object and its sanitized value a
    string, so an entry named [__proto__] replaces the prototype of
    [fieldResults] and leaves [sanitizedData] as it is. *)
Fixpoint validate_entries (v : t) (entries : list (jsstring * Value))
         (results : ObjectResult) : ObjectResult * t :=
  match entries with
  | [] => (results, v)
  | (fieldName, value) :: tl =>
      let (fieldResult, v) := validateField v fieldName value no_options in
      let (fieldResults, fieldResultsPrototype) :=
        Obj.assign_object fieldName fieldResult
          (fieldResults results) (fieldResultsPrototype results) in
      let results :=
        if valid fieldResult then
          {| o_valid := o_valid results;
             errors := errors results;
             sanitizedData :=
               Obj.assign_string fieldName (sanitizedValue fieldResult)
                 (sanitizedData results);
             fieldResults := fieldResults;
             fieldResultsPrototype := fieldResultsPrototype;
             dataHash := dataHash results |}
        else
          {| o_valid := false;
             errors := errors results ++ [FieldError fieldName fieldResult];
             sanitizedData := sanitizedData results;
             fieldResults := fieldResults;
             fieldResultsPrototype := fieldResultsPrototype;
             dataHash := dataHash results |} in
      validate_entries v tl results
  end.

Section ValidateObject.

(** [JSON.stringify] on the object of the sanitized values. *)
Variable JSON_stringify : list (jsstring * jsstring) -> jsstring.

(** [data] is an object with the prototype [Object.prototype]
    whose own properties are [data], in the order of
    [Object.entries]; the collaborators do not throw, so the [catch]
    branch is left out. *)
Definition validateObject (v : t) (data : list (jsstring * Value))
           (requiredFields : list jsstring) : ObjectResult * t :=
  let results := check_required data requiredFields results0 in
  let (results, v) := validate_entries v data results in
  let objectHash := generateHash (hashManager v) (JSON_stringify (sanitizedData results)) in
  ({| o_valid := o_valid results;
      errors := errors results;
      sanitizedData := sanitizedData results;
      fieldResults := fieldResults results;
      fieldResultsPrototype := fieldResultsPrototype results;
      dataHash := Some objectHash |}, v).

End ValidateObject.

(** ** maskSensitiveData, addValidationRule, resetStats *)

Definition maskSensitiveData (data : jsstring) : jsstring :=
  if length data <? 4 then js "***"
  else
    let firstTwo := substring2 data 0 2 in
    let lastTwo := substring1 data (Z.of_nat (length data) - 2) in
    let middle :=
      List.concat (List.repeat (js "*")
                     (Z.to_nat (Z.max 0 (Z.of_nat (length data) - 4)))) in
    firstTwo ++ middle ++ lastTwo.

(** A rule object given to [addValidationRule]: every property may
    be missing. *)
Record RuleDescriptor : Type := {
  d_pattern : option RegExp.t;
  d_maxLength : option nat;
  d_required : option bool;
  d_sanitize : option bool;
  d_description : option string
}.

(** [this.validationRules[fieldName] = rule]: an own property, or
    for the name [__proto__] the prototype of the registry. *)
Definition addValidationRule (v : t) (fieldName : jsstring) (r : RuleDescriptor)
  : bool * t :=
  if negb (isValidString (inputValidator v) fieldName) then (false, v)
  else
    match d_maxLength r, d_required r, d_sanitize r, d_description r with
    | Some len, Some req, Some san, Some descr =>
        let rule :=
          {| pattern := d_pattern r; maxLength := len; required := req;
             sanitize := san; description := descr |} in
        let (rules, proto) :=
          Obj.assign_object fieldName rule (validationRules v) (rulesPrototype v) in
        (true, with_prototype (with_rules v rules) proto)
    | _, _, _, _ => (false, v)
    end.

Definition resetStats (v : t) : t := with_stats v (fun _ => stats0).

(** [this.validationRules[fieldName] || null]: [None] is [null]. *)
Definition getValidationRule (v : t) (fieldName : jsstring) : option RuleValue :=
  match read_rule v fieldName with
  | Some a => if truthy a then Some a else None
  | None => None
  end.

End DataValidator.

(* ================================================================== *)
(** * ICCardValidator *)
(* ================================================================== *)

Module ICCardValidator.
Import RegExp.
Local Open Scope string_scope.
Local Open Scope list_scope.
Local Open Scope nat_scope.

(** ** Card formats *)

(** The property [length] of a format: a number or an array. *)
Inductive Lengths : Type :=
| Exactly (n : nat)
| OneOf (ns : list nat).

Record CardConfig : Type := {
  pattern : RegExp.t;
  length_ : Lengths;
  checksum : bool;
  description : string;
  issuer : string;
  regions : list string
}.

(** [/^[0-9]{lo,hi}$/] *)
Definition digits (lo hi : nat) : RegExp.t :=
  {| source := seqs [Bol; Rep (set [range "0" "9"]) lo (Some hi); Eol];
     ignoreCase := false; global := false; lastIndex := 0 |}.

Definition sixteen (descr iss : string) (regs : list string) : CardConfig :=
  {| pattern := digits 16 16; length_ := Exactly 16; checksum := true;
     description := descr; issuer := iss; regions := regs |}.

Definition cardPatterns0 : list (jsstring * CardConfig) :=
  [ (js "SUICA",
     sixteen "Suica/PASMO系ICカード" "JR東日本・関東私鉄" ["関東"; "東海"; "仙台"; "新潟"]);
    (js "ICOCA",
     sixteen "ICOCA系ICカード" "JR西日本・関西私鉄" ["関西"; "中国"; "四国"]);
    (js "MANACA",
     sixteen "manaca系ICカード" "名古屋市交通局・名古屋鉄道" ["名古屋"; "東海"]);
    (js "TOICA",
     sixteen "TOICA系ICカード" "JR東海" ["東海"; "静岡"]);
    (js "SUGOCA",
     sixteen "SUGOCA系ICカード" "JR九州・福岡市交通局" ["九州"; "福岡"]);
    (js "KITACA",
     sixteen "Kitaca系ICカード" "JR北海道・札幌市交通局" ["北海道"; "札幌"]);
    (js "HAYAKAKEN",
     sixteen "はやかけん系ICカード" "福岡市交通局" ["福岡"]);
    (js "NIMOCA",
     sixteen "nimoca系ICカード" "西日本鉄道" ["九州"; "福岡"; "熊本"]);
    (js "CORPORATE",
     {| pattern := digits 10 12; length_ := OneOf [10; 11; 12]; checksum := false;
        description := "企業系ICカード"; issuer := "各企業・団体";
        regions := ["全国"] |});
    (js "STUDENT",
     {| pattern := digits 8 14; length_ := OneOf [8; 9; 10; 11; 12; 13; 14];
        checksum := false;
        description := "学生証系ICカード"; issuer := "各教育機関";
        regions := ["全国"] |}) ].

(** ** The validator object *)

(** The statistics; the time stamp [lastValidation] is left out. *)
Record Stats : Type := {
  validationCount : nat;
  validCards : nat;
  invalidCards : nat;
  suspiciousAttempts : nat
}.

Definition stats0 : Stats :=
  {| validationCount := 0; validCards := 0; invalidCards := 0;
     suspiciousAttempts := 0 |}.

Record t : Type := {
  inputValidator : InputValidatorApi;
  cardPatterns : list (jsstring * CardConfig);
  stats : Stats
}.

(** [new ICCardValidator()] *)
Definition new (iv : InputValidatorApi) : t :=
  {| inputValidator := iv; cardPatterns := cardPatterns0; stats := stats0 |}.

Definition with_stats (v : t) (f : Stats -> Stats) : t :=
  {| inputValidator := inputValidator v; cardPatterns := cardPatterns v;
     stats := f (stats v) |}.

Definition with_patterns (v : t) (ps : list (jsstring * CardConfig)) : t :=
  {| inputValidator := inputValidator v; cardPatterns := ps; stats := stats v |}.

Definition incr_validationCount (v : t) : t :=
  with_stats v (fun s =>
    {| validationCount := S (validationCount s); validCards := validCards s;
       invalidCards := invalidCards s; suspiciousAttempts := suspiciousAttempts s |}).

Definition incr_validCards (v : t) : t :=
  with_stats v (fun s =>
    {| validationCount := validationCount s; validCards := S (validCards s);
       invalidCards := invalidCards s; suspiciousAttempts := suspiciousAttempts s |}).

Definition incr_invalidCards (v : t) : t :=
  with_stats v (fun s =>
    {| validationCount := validationCount s; validCards := validCards s;
       invalidCards := S (invalidCards s); suspiciousAttempts := suspiciousAttempts s |}).

Definition incr_suspiciousAttempts (v : t) : t :=
  with_stats v (fun s =>
    {| validationCount := validationCount s; validCards := validCards s;
       invalidCards := invalidCards s; suspiciousAttempts := S (suspiciousAttempts s) |}).

(** ** detectCardType *)

Definition with_pattern (c : CardConfig) (p : RegExp.t) : CardConfig :=
  {| pattern := p; length_ := length_ c; checksum := checksum c;
     description := description c; issuer := issuer c; regions := regions c |}.

(** [for (const [type, config] of Object.entries(this.cardPatterns))]:
    the first entry whose pattern tests true, and the entries as
    the tests leave them. *)
Fixpoint detect (entries : list (jsstring * CardConfig)) (cardNumber : jsstring)
  : option (jsstring * CardConfig) * list (jsstring * CardConfig) :=
  match entries with
  | [] => (None, [])
  | (type, config) :: tl =>
      let (b, p') := test (pattern config) cardNumber in
      let config' := with_pattern config p' in
      if b then (Some (type, config'), (type, config') :: tl)
      else
        let (hit, tl') := detect tl cardNumber in
        (hit, (type, config') :: tl')
  end.

Definition detectCardType (v : t) (cardNumber : jsstring)
  : option (jsstring * CardConfig) * t :=
  let (hit, ps) := detect (cardPatterns v) cardNumber in
  (hit, with_patterns v ps).

(** ** validateChecksum *)

(** [Number(c)] for a string of one code unit: a digit gives its
    value, white space gives 0, anything else NaN ([None]). *)
Definition Number_ (c : N) : option nat :=
  if isDigit c then Some (N.to_nat (c - 48))
  else if isWhiteSpace c then Some 0
  else None.

(** The body of the loop, on numbers that may be NaN. *)
Definition luhn_digit (alternate : bool) (digit : option nat) : option nat :=
  match digit with
  | None => None
  | Some d =>
      if alternate then
        let d := d * 2 in
        Some (if 9 <? d then d - 9 else d)
      else Some d
  end.

Definition add_nan (sum digit : option nat) : option nat :=
  match sum, digit with
  | Some a, Some b => Some (a + b)
  | _, _ => None
  end.

(** [for (let i = digits.length - 1; i >= 0; i--)]: the argument is
    the array of digits read from its last element on. *)
Fixpoint luhn_loop (digits_from_right : list (option nat)) (alternate : bool)
         (sum : option nat) : option nat :=
  match digits_from_right with
  | [] => sum
  | digit :: tl =>
      luhn_loop tl (negb alternate) (add_nan sum (luhn_digit alternate digit))
  end.

Definition validateChecksum (cardNumber cardType : jsstring) : bool :=
  let digits := map Number_ cardNumber in
  match luhn_loop (rev digits) false (Some 0) with
  | Some sum => sum mod 10 =? 0
  | None => false
  end.

(** ** maskCardNumber *)

(** [None] is the RangeError of [repeat]. *)
Definition maskCardNumber (cardNumber : jsstring) : option jsstring :=
  if length cardNumber <? 4 then Some (js "****")
  else
    let firstFour := substring2 cardNumber 0 4 in
    let lastFour := substring1 cardNumber (Z.of_nat (length cardNumber) - 4) in
    match JsString.repeat (js "*") (Z.of_nat (length cardNumber) - 8) with
    | Some middle => Some (firstFour ++ middle ++ lastFour)
    | None => None
    end.

(** ** validateCardNumber *)

Inductive CardResult : Type :=
| Valid (cardType : jsstring) (issuer description : string)
        (regions : list string) (number rawNumber : jsstring) (checksum : bool)
| INVALID_INPUT
| INVALID_LENGTH (actualLength : nat)
| INVALID_FORMAT
| UNKNOWN_CARD_TYPE (number : jsstring)
| INVALID_CHECKSUM (cardType : jsstring)
| VALIDATION_ERROR.

Definition valid (r : CardResult) : bool :=
  match r with Valid _ _ _ _ _ _ _ => true | _ => false end.

(** [/^\d+$/] *)
Definition digitsOnly : RegExp.t :=
  {| source := seqs [Bol; plus (set [CDigit]); Eol];
     ignoreCase := false; global := false; lastIndex := 0 |}.

(** The argument is a string. Calls of the logger are left out,
    but for the masked number that the call on the valid path
    computes. The [catch] branch is taken when [maskCardNumber]
    throws. *)
Definition validateCardNumber (v : t) (cardNumber : jsstring) : CardResult * t :=
  let v := incr_validationCount v in
  let sanitizedNumber := sanitizeString (inputValidator v) cardNumber in
  if negb (isValidString (inputValidator v) sanitizedNumber) then
    (INVALID_INPUT, incr_suspiciousAttempts v)
  else if (length sanitizedNumber <? 4) || (20 <? length sanitizedNumber) then
    (INVALID_LENGTH (length sanitizedNumber), incr_invalidCards v)
  else if negb (fst (test digitsOnly sanitizedNumber)) then
    (INVALID_FORMAT, incr_invalidCards v)
  else
    let (cardType, v) := detectCardType v sanitizedNumber in
    match cardType with
    | None =>
        let v := incr_invalidCards v in
        match maskCardNumber sanitizedNumber with
        | Some number => (UNKNOWN_CARD_TYPE number, v)
        | None => (VALIDATION_ERROR, incr_suspiciousAttempts v)
        end
    | Some (type, config) =>
        let checksumValid :=
          if checksum config then validateChecksum sanitizedNumber type else true in
        if negb checksumValid then
          (INVALID_CHECKSUM type, incr_invalidCards v)
        else
          let v := incr_validCards v in
          match maskCardNumber sanitizedNumber with
          | Some number =>
              (Valid type (issuer config) (description config) (regions config)
                     number sanitizedNumber checksumValid, v)
          | None => (VALIDATION_ERROR, incr_suspiciousAttempts v)
          end
    end.

(** ** isRegionSupported *)

(** A name that the table has not gives [false]: either it reads
    as [undefined], or it reads as a member of [Object.prototype],
    which has no property [regions], and the TypeError of
    [includes] is caught. *)
Definition isRegionSupported (v : t) (cardType : jsstring) (region : string) : bool :=
  match Obj.get cardType (cardPatterns v) with
  | None => false
  | Some cardConfig =>
      existsb (String.eqb region) (regions cardConfig)
      || existsb (String.eqb "全国") (regions cardConfig)
  end.

End ICCardValidator.

(* ================================================================== *)
(** * InputValidator.js : the class *)
(* ================================================================== *)

(** The methods of the class InputValidator of InputValidator.js
    other than the sanitizer, which is [InputValidator.sanitizeInput]
    above. *)
Module InputValidation.
Import RegExp.
Local Open Scope string_scope.
Local Open Scope list_scope.
Local Open Scope nat_scope.

(** ** The validator object *)

Definition re (r : regex) : RegExp.t :=
  {| source := r; ignoreCase := false; global := false; lastIndex := 0 |}.
Definition re_gi (r : regex) : RegExp.t :=
  {| source := r; ignoreCase := true; global := true; lastIndex := 0 |}.

Definition dangerousPatterns0 : list RegExp.t :=
  [ (* the script element, flags gi *)
    re_gi (InputValidator.element "script");
    (* /javascript:/gi *)
    re_gi (lit "javascript:");
    (* /on\w+\s*=/gi *)
    re_gi (seqs [lit "on"; plus (set [CWord]); star (set [CSpace]); lit "="]);
    (* /data:text\/html/gi *)
    re_gi (lit "data:text/html");
    (* /vbscript:/gi *)
    re_gi (lit "vbscript:") ].

Record Config : Type := {
  maxInputLength : nat;
  allowedICCardFormats : list string;
  dangerousPatterns : list RegExp.t
}.

Record t : Type := { config : Config }.

(** [new InputValidator()] *)
Definition new : t :=
  {| config :=
       {| maxInputLength := 1000;
          allowedICCardFormats := ["TOICA"; "manaca"; "Suica"; "ICOCA"; "SUGOCA"; "PASMO"];
          dangerousPatterns := dangerousPatterns0 |} |}.

Definition with_patterns (v : t) (ps : list RegExp.t) : t :=
  {| config :=
       {| maxInputLength := maxInputLength (config v);
          allowedICCardFormats := allowedICCardFormats (config v);
          dangerousPatterns := ps |} |}.

(** The argument [options] of validateBasicInput: of the object
    that merges it into the configuration only [maxInputLength] is
    read, so this is the one property kept (a number when it is
    given). *)
Record Options : Type := { o_maxInputLength : option nat }.
Definition no_options : Options := {| o_maxInputLength := None |}.

(** The messages of the [errors] arrays. *)
Inductive Message : Type :=
| EMPTY_INPUT                 (* 入力値が空です *)
| TOO_LONG (maxInputLength : nat)   (* 入力値が長すぎます (最大 n 文字) *)
| DANGEROUS_PATTERN           (* 危険なパターンが検出されました *)
| PROCESSING_ERROR            (* 検証処理エラー *)
| UNSUPPORTED_FORMAT          (* 対応していないICカード形式です *)
| BAD_EMPLOYEE_ID.            (* 社員証番号は英数字6-12文字で入力してください *)

(** ** validateBasicInput *)

(** The three result objects: for [null] and [undefined]; at the
    end of the checks, where [valid] is [errors.length === 0]; and
    from the [catch] branch (its property [error], the message of
    the exception, is left out). *)
Inductive BasicResult : Type :=
| Absent
| Checked (errors : list Message) (sanitized : jsstring)
          (originalLength sanitizedLength : nat)
| Thrown.

Definition valid (r : BasicResult) : bool :=
  match r with
  | Checked errors _ _ _ => length errors =? 0
  | _ => false
  end.

Definition errors (r : BasicResult) : list Message :=
  match r with
  | Absent => [EMPTY_INPUT]
  | Checked errors _ _ _ => errors
  | Thrown => [PROCESSING_ERROR]
  end.

Definition sanitized (r : BasicResult) : jsstring :=
  match r with
  | Checked _ sanitized _ _ => sanitized
  | _ => []
  end.

(** The result objects as a caller sees them: own property names
    and values, in the order of the object literals (the value of
    [error], a message, is left empty). *)
Inductive PropertyValue : Type :=
| PBoolean (b : bool)
| PString (s : jsstring)
| PNumber (n : nat)
| PMessages (messages : list Message).

Definition properties (r : BasicResult) : list (jsstring * PropertyValue) :=
  match r with
  | Absent =>
      [ (js "valid", PBoolean false);
        (js "errors", PMessages [EMPTY_INPUT]);
        (js "sanitized", PString []) ]
  | Checked errors sanitized originalLength sanitizedLength =>
      [ (js "valid", PBoolean (length errors =? 0));
        (js "errors", PMessages errors);
        (js "sanitized", PString sanitized);
        (js "originalLength", PNumber originalLength);
        (js "sanitizedLength", PNumber sanitizedLength) ]
  | Thrown =>
      [ (js "valid", PBoolean false);
        (js "errors", PMessages [PROCESSING_ERROR]);
        (js "sanitized", PString []);
        (js "error", PString []) ]
  end.

(** ToBoolean of [result[name]]; a name that the object does not
    have reads as the member of [Object.prototype], an object or a
    function, when there is one, and as [undefined] otherwise. *)
Definition truthy_property (name : string) (r : BasicResult) : bool :=
  match Obj.get (js name) (properties r) with
  | None => Obj.inherited (js name)
  | Some (PBoolean b) => b
  | Some (PString s) => negb (length s =? 0)
  | Some (PNumber n) => negb (n =? 0)
  | Some (PMessages _) => true
  end.

(** The argument [input] has any type (see [DataValidator.Value]);
    the [catch] branch is taken when [String(input)] throws. Its
    handler reads [error.message]: where that read throws (the value
    thrown is [null] or [undefined], for one) the exception of the
    handler leaves the function, which then returns nothing,
    [None]. *)
Definition validateBasicInput (v : t) (input : DataValidator.Value)
           (options : Options) : option BasicResult * t :=
  let maxInputLength :=
    match o_maxInputLength options with
    | Some n => n
    | None => maxInputLength (config v)
    end in
  match input with
  | DataValidator.VNull | DataValidator.VUndefined => (Some Absent, v)
  | _ =>
      match DataValidator.String_ input with
      | None =>
          match DataValidator.thrown input with
          | Some DataValidator.Unreadable => (None, v)
          | _ => (Some Thrown, v)
          end
      | Some input =>
          let errors :=
            if maxInputLength <? length input then [TOO_LONG maxInputLength] else [] in
          let (hit, ps) :=
            DataValidator.first_test (dangerousPatterns (config v)) input in
          let v := with_patterns v ps in
          let errors :=
            match hit with
            | Some _ => errors ++ [DANGEROUS_PATTERN]
            | None => errors
            end in
          let sanitized := InputValidator.sanitizeInput input in
          (Some (Checked errors sanitized (length input) (length sanitized)), v)
      end
  end.

(** ** escapeHtml *)

(** The keys are strings of one code unit; 34 is the double quote. *)
Definition htmlEscapeMap : list (jsstring * jsstring) :=
  [ (js "&", js "&amp;");
    (js "<", js "&lt;");
    (js ">", js "&gt;");
    ([34%N], js "&quot;");
    (js "'", js "&#x27;");
    (js "/", js "&#x2F;");
    (js "`", js "&#x60;");
    (js "=", js "&#x3D;") ].

(** The class of the eight characters, in the order of the source. *)
Definition htmlSpecial : regex :=
  set [cc "&"; cc "<"; cc ">"; CChar 34; cc "'"; cc "`"; cc "="; cc "/"].

(** [escapeHtml(input)] for a string argument (any other type gives
    the empty string). A key that the map lacks would give
    [undefined], which [replace] writes out as a word. *)
Definition escapeHtml (input : jsstring) : jsstring :=
  replace_all_with false htmlSpecial
    (fun char =>
       match Obj.get char htmlEscapeMap with
       | Some entity => entity
       | None => js "undefined"
       end)
    input.

(** ** The masks *)

(** [None] is the RangeError of [repeat]. *)
Definition _maskCardNumber (cardNumber : jsstring) : option jsstring :=
  if length cardNumber <? 4 then Some (js "****")
  else
    let prefix := substring2 cardNumber 0 2 in
    let lastFour := slice1 cardNumber (-4) in
    match JsString.repeat (js "*") (Z.of_nat (length cardNumber) - 6) with
    | Some middle => Some (prefix ++ middle ++ lastFour)
    | None => None
    end.

Definition _maskEmployeeId (employeeId : jsstring) : option jsstring :=
  if length employeeId <? 4 then Some (js "****")
  else
    let first := substring2 employeeId 0 1 in
    let last := slice1 employeeId (-1) in
    match JsString.repeat (js "*") (Z.of_nat (length employeeId) - 2) with
    | Some middle => Some (first ++ middle ++ last)
    | None => None
    end.

(** [/(\d{3})-(\d{4})-(\d{4})/] *)
Definition phoneMask : regex :=
  seqs [Group 1 (Rep (set [CDigit]) 3 (Some 3)); lit "-";
        Group 2 (Rep (set [CDigit]) 4 (Some 4)); lit "-";
        Group 3 (Rep (set [CDigit]) 4 (Some 4))].

(** The template is [$1-****-$3]. *)
Definition _maskPhoneNumber (phoneNumber : jsstring) : jsstring :=
  replace_first false phoneMask
    (fun cs => capture 1 cs ++ js "-****-" ++ capture 3 cs) None phoneNumber.

(** ** validateICCardNumber *)

Record Format : Type := {
  pattern : RegExp.t;
  length_ : nat;
  name : string
}.

(** [^ prefix \d{n} $] *)
Definition prefixed (prefix : regex) (n : nat) : RegExp.t :=
  re (seqs [Bol; prefix; Rep (set [CDigit]) n (Some n); Eol]).

(** The table is built anew by every call, so its patterns carry
    no state from one call to the next. *)
Definition icCardFormats : list (string * Format) :=
  [ ("TOICA",
     {| pattern := prefixed (lit "TO") 14; length_ := 16; name := "TOICA（JR東海）" |});
    ("manaca",
     {| pattern := prefixed (lit "MA") 14; length_ := 16;
        name := "manaca（名古屋市交通局・名鉄）" |});
    ("Suica",
     {| pattern := prefixed (lit "JE") 15; length_ := 17; name := "Suica（JR東日本）" |});
    ("ICOCA",
     {| pattern := prefixed (lit "IC") 14; length_ := 16; name := "ICOCA（JR西日本）" |});
    ("SUGOCA",
     {| pattern := prefixed (lit "SG") 14; length_ := 16; name := "SUGOCA（JR九州）" |});
    ("PASMO",
     (* /^P[AB]\d{14}$/ *)
     {| pattern := prefixed (Seq (lit "P") (set [cc "A"; cc "B"])) 14; length_ := 16;
        name := "PASMO" |}) ].

(** [for (const [type, format] of Object.entries(icCardFormats))]:
    the first entry whose pattern tests true. *)
Fixpoint find_format (formats : list (string * Format)) (sanitized : jsstring)
  : option (string * Format) :=
  match formats with
  | [] => None
  | (type, format) :: tl =>
      if fst (test (pattern format) sanitized) then Some (type, format)
      else find_format tl sanitized
  end.

(** The result objects: the basic result with [cardType: null] and
    [formatValid: false] added; the accepted number; the number of
    no known format. *)
Inductive CardResult : Type :=
| Rejected (basicValidation : BasicResult)
| Accepted (sanitized : jsstring) (cardType cardName : string)
           (maskedNumber : jsstring)
| Unsupported (sanitized : jsstring) (supportedFormats : list string).

Definition card_valid (r : CardResult) : bool :=
  match r with Accepted _ _ _ _ => true | _ => false end.

(** The result objects of validateEmployeeId. *)
Inductive EmployeeResult : Type :=
| E_Rejected (basicValidation : BasicResult)
| E_BadFormat (sanitized : jsstring)
| E_Accepted (sanitized maskedId : jsstring).

Definition employee_valid (r : EmployeeResult) : bool :=
  match r with E_Accepted _ _ => true | _ => false end.

(** [/^[A-Za-z0-9]{6,12}$/] *)
Definition employeeIdPattern : RegExp.t :=
  re (seqs [Bol; Rep (set [range "A" "Z"; range "a" "z"; range "0" "9"]) 6 (Some 12);
            Eol]).

Section CaseMapping.

(** [String.prototype.toUpperCase], the mapping of the Unicode
    character database; the properties say what they ask of it. *)
Variable toUpperCase : jsstring -> jsstring.

(** Nothing catches an exception here: [None] stands for the
    exception that leaves validateBasicInput and for the RangeError
    that [_maskCardNumber] can throw. *)
Definition validateICCardNumber (v : t) (icCardNumber : DataValidator.Value)
  : option CardResult * t :=
  let (basicValidation, v) :=
    validateBasicInput v icCardNumber {| o_maxInputLength := Some 20 |} in
  match basicValidation with
  | None => (None, v)
  | Some basicValidation =>
      if negb (valid basicValidation) then (Some (Rejected basicValidation), v)
      else
        let sanitized := toUpperCase (sanitized basicValidation) in
        match find_format icCardFormats sanitized with
        | Some (type, format) =>
            match _maskCardNumber sanitized with
            | Some maskedNumber =>
                (Some (Accepted sanitized type (name format) maskedNumber), v)
            | None => (None, v)
            end
        | None => (Some (Unsupported sanitized (map fst icCardFormats)), v)
        end
  end.

(** ** validateEmployeeId *)

Definition validateEmployeeId (v : t) (employeeId : DataValidator.Value)
  : option EmployeeResult * t :=
  let (basicValidation, v) :=
    validateBasicInput v employeeId {| o_maxInputLength := Some 20 |} in
  match basicValidation with
  | None => (None, v)
  | Some basicValidation =>
      if negb (valid basicValidation) then (Some (E_Rejected basicValidation), v)
      else
        let sanitized := sanitized basicValidation in
        if negb (fst (test employeeIdPattern sanitized)) then
          (Some (E_BadFormat sanitized), v)
        else
          match _maskEmployeeId sanitized with
          | Some maskedId => (Some (E_Accepted (toUpperCase sanitized) maskedId), v)
          | None => (None, v)
          end
  end.

End CaseMapping.

(** ** validatePhoneNumber *)

Inductive PhoneResult : Type :=
| P_Rejected (basicValidation : BasicResult)
| P_BadFormat (sanitized : jsstring)
| P_Accepted (sanitized maskedNumber : jsstring).

Definition phone_valid (r : PhoneResult) : bool :=
  match r with P_Accepted _ _ => true | _ => false end.

(** [/[^\d\-\(\)\+\s]/g] *)
Definition phoneFilter : regex :=
  nset [CDigit; cc "-"; cc "("; cc ")"; cc "+"; CSpace].

Definition phonePatterns : list RegExp.t :=
  [ (* /^0\d{1,4}-\d{1,4}-\d{4}$/ *)
    re (seqs [Bol; lit "0"; Rep (set [CDigit]) 1 (Some 4); lit "-";
              Rep (set [CDigit]) 1 (Some 4); lit "-";
              Rep (set [CDigit]) 4 (Some 4); Eol]);
    (* /^0[789]0-\d{4}-\d{4}$/ *)
    re (seqs [Bol; lit "0"; set [cc "7"; cc "8"; cc "9"]; lit "0-";
              Rep (set [CDigit]) 4 (Some 4); lit "-";
              Rep (set [CDigit]) 4 (Some 4); Eol]);
    (* /^050-\d{4}-\d{4}$/ *)
    re (seqs [Bol; lit "050-"; Rep (set [CDigit]) 4 (Some 4); lit "-";
              Rep (set [CDigit]) 4 (Some 4); Eol]);
    (* /^\+81-\d{1,4}-\d{1,4}-\d{4}$/ *)
    re (seqs [Bol; lit "+81-"; Rep (set [CDigit]) 1 (Some 4); lit "-";
              Rep (set [CDigit]) 1 (Some 4); lit "-";
              Rep (set [CDigit]) 4 (Some 4); Eol]) ].

(** The four patterns are built anew by every call and carry no
    flag, so [some] is a plain disjunction. Nothing catches an
    exception here: [None] stands for the one that leaves
    validateBasicInput. *)
Definition validatePhoneNumber (v : t) (phoneNumber : DataValidator.Value)
  : option PhoneResult * t :=
  let (basicValidation, v) :=
    validateBasicInput v phoneNumber {| o_maxInputLength := Some 20 |} in
  match basicValidation with
  | None => (None, v)
  | Some basicValidation =>
      if negb (valid basicValidation) then (Some (P_Rejected basicValidation), v)
      else
        let sanitized := replace_all false phoneFilter (sanitized basicValidation) in
        let isValidFormat :=
          existsb (fun pattern => fst (test pattern sanitized)) phonePatterns in
        if negb isValidFormat then (Some (P_BadFormat sanitized), v)
        else (Some (P_Accepted sanitized (_maskPhoneNumber sanitized)), v)
  end.

End InputValidation.

(* ================================================================== *)
(** * SecureHashManager.js : validateNagoyaICCard *)
(* ================================================================== *)

Module SecureHashManager.
Import RegExp.
Local Open Scope string_scope.
Local Open Scope list_scope.
Local Open Scope nat_scope.

(** [_maskICCardNumber], on a string (the empty string is the one
    that [!icCardNumber] turns away); [None] is the RangeError of
    [repeat]. *)
Definition _maskICCardNumber (icCardNumber : jsstring) : option jsstring :=
  if (length icCardNumber =? 0) || (length icCardNumber <? 4) then Some (js "****")
  else
    let lastFour := slice1 icCardNumber (-4) in
    match JsString.repeat (js "*") (Z.of_nat (length icCardNumber) - 4) with
    | Some stars => Some (stars ++ lastFour)
    | None => None
    end.

Record CardType : Type := {
  pattern : RegExp.t;
  length_ : nat;
  prefix : string;
  name : string;
  issuer : string
}.

(** The table of validateNagoyaICCard, built anew by every call. *)
Definition icCardTypes : list (string * CardType) :=
  [ ("TOICA",
     {| pattern := InputValidation.prefixed (lit "TO") 14; length_ := 16;
        prefix := "TO"; name := "TOICA"; issuer := "JR東海" |});
    ("manaca",
     {| pattern := InputValidation.prefixed (lit "MA") 14; length_ := 16;
        prefix := "MA"; name := "manaca"; issuer := "名古屋市交通局・名鉄" |});
    ("Suica",
     {| pattern := InputValidation.prefixed (lit "JE") 15; length_ := 17;
        prefix := "JE"; name := "Suica"; issuer := "JR東日本" |});
    ("ICOCA",
     {| pattern := InputValidation.prefixed (lit "IC") 14; length_ := 16;
        prefix := "IC"; name := "ICOCA"; issuer := "JR西日本" |});
    ("SUGOCA",
     {| pattern := InputValidation.prefixed (lit "SG") 14; length_ := 16;
        prefix := "SG"; name := "SUGOCA"; issuer := "JR九州" |});
    ("PASMO",
     {| pattern := InputValidation.prefixed (Seq (lit "P") (set [cc "A"; cc "B"])) 14;
        length_ := 16; prefix := "P[AB]"; name := "PASMO"; issuer := "PASMO" |}) ].

(** The two result objects. *)
Inductive NagoyaResult : Type :=
| Known (type name issuer : string) (maskedNumber : jsstring)
| UNKNOWN.

Definition valid (r : NagoyaResult) : bool :=
  match r with Known _ _ _ _ => true | UNKNOWN => false end.

(** [for (const [type, config] of Object.entries(icCardTypes))],
    on a string; nothing catches an exception of the mask. *)
Fixpoint first_type (types : list (string * CardType)) (icCardNumber : jsstring)
  : option NagoyaResult :=
  match types with
  | [] => Some UNKNOWN
  | (type, config) :: tl =>
      if fst (test (pattern config) icCardNumber) then
        match _maskICCardNumber icCardNumber with
        | Some maskedNumber => Some (Known type (name config) (issuer config) maskedNumber)
        | None => None
        end
      else first_type tl icCardNumber
  end.

Definition validateNagoyaICCard (icCardNumber : jsstring) : option NagoyaResult :=
  first_type icCardTypes icCardNumber.

End SecureHashManager.

(* ================================================================== *)
(** * transportation-manager.js : validateTransportationId *)
(* ================================================================== *)

Module TransportationManager.
Import RegExp.
Local Open Scope string_scope.
Local Open Scope list_scope.
Local Open Scope nat_scope.

Definition re (r : regex) : RegExp.t :=
  {| source := r; ignoreCase := false; global := false; lastIndex := 0 |}.
Definition re_g (r : regex) : RegExp.t :=
  {| source := r; ignoreCase := false; global := true; lastIndex := 0 |}.
Definition re_gi (r : regex) : RegExp.t :=
  {| source := r; ignoreCase := true; global := true; lastIndex := 0 |}.

Record SecurityConfig : Type := {
  maxQueryLength : nat;
  allowedTransportationIds : list string;
  dangerousPatterns : list RegExp.t
}.

Record t : Type := {
  validator : InputValidation.t;
  securityConfig : SecurityConfig
}.

(** [new TransportationManager()], the cache fields left out. *)
Definition new : t :=
  {| validator := InputValidation.new;
     securityConfig :=
       {| maxQueryLength := 100;
          allowedTransportationIds :=
            ["jr_tokai"; "kintetsu"; "nagoya_subway";
             "meitetsu"; "nagoya_bus"; "meitetsu_bus"];
          dangerousPatterns :=
            [ (* the class of the apostrophe, the double quote, the
                 backtick, the semicolon and the backslash; flag g *)
              re_g (set [cc "'"; CChar 34; cc "`"; cc ";"; cc "\"; cc "\"]);
              (* /--/g *)
              re_g (lit "--");
              (* /\/\*/g *)
              re_g (lit "/*");
              (* /<script/gi *)
              re_gi (lit "<script");
              (* /javascript:/gi *)
              re_gi (lit "javascript:") ] |} |}.

Definition with_validator (tm : t) (v : InputValidation.t) : t :=
  {| validator := v; securityConfig := securityConfig tm |}.

Definition with_patterns (tm : t) (ps : list RegExp.t) : t :=
  {| validator := validator tm;
     securityConfig :=
       {| maxQueryLength := maxQueryLength (securityConfig tm);
          allowedTransportationIds := allowedTransportationIds (securityConfig tm);
          dangerousPatterns := ps |} |}.

(** The result objects, one constructor for every [return]; the
    first one carries the messages that are joined into its own. *)
Inductive IdResult : Type :=
| BAD_FORMAT (basicErrors : list InputValidation.Message)
| BAD_CHARACTERS
| FORBIDDEN_CHARACTERS
| NOT_SUPPORTED (allowedIds : list string)
| ID_VALID.

Definition isValid (r : IdResult) : bool :=
  match r with ID_VALID => true | _ => false end.

(** [/^[a-zA-Z0-9\-_]+$/] *)
Definition allowedPattern : RegExp.t :=
  re (seqs [Bol; plus (set [range "a" "z"; range "A" "Z"; range "0" "9";
                            cc "-"; cc "_"]); Eol]).

(** [allowedTransportationIds.includes(id)]: strict equality, so
    only a string can be included. *)
Definition includes (ids : list string) (id : DataValidator.Value) : bool :=
  match id with
  | DataValidator.VString s => existsb (fun a => Obj.key_eqb (js a) s) ids
  | _ => false
  end.

(** The object given as options has the properties type,
    required, minLength and maxLength, none of which
    validateBasicInput reads. The condition of the first [if] reads
    the property [isValid] of the basic result. [test] on a value
    that is no string tests [String(id)]. Nothing catches an
    exception here: [None] stands for the one that leaves
    validateBasicInput and for what [String(id)] throws in [test]. *)
Definition validateTransportationId (tm : t) (id : DataValidator.Value)
  : option IdResult * t :=
  let (basicValidation, v) :=
    InputValidation.validateBasicInput (validator tm) id InputValidation.no_options in
  let tm := with_validator tm v in
  match basicValidation with
  | None => (None, tm)
  | Some basicValidation =>
      if negb (InputValidation.truthy_property "isValid" basicValidation) then
        (Some (BAD_FORMAT (InputValidation.errors basicValidation)), tm)
      else
        match DataValidator.String_ id with
        | None => (None, tm)
        | Some text =>
            if negb (fst (test allowedPattern text)) then (Some BAD_CHARACTERS, tm)
            else
              let (hit, ps) :=
                DataValidator.first_test (dangerousPatterns (securityConfig tm)) text in
              let tm := with_patterns tm ps in
              match hit with
              | Some _ => (Some FORBIDDEN_CHARACTERS, tm)
              | None =>
                  if negb (includes (allowedTransportationIds (securityConfig tm)) id)
                  then (Some (NOT_SUPPORTED
                                (allowedTransportationIds (securityConfig tm))), tm)
                  else (Some ID_VALID, tm)
              end
        end
  end.

End TransportationManager.

(* ================================================================== *)
(** * SecurityConfig.js : the audit log and the health check *)
(* ================================================================== *)

Module SecurityConfig.
Local Open Scope string_scope.
Local Open Scope list_scope.

(** ** Numbers *)

(** ECMAScript numbers are binary64 floating-point values. *)
Definition number : Set := PrimFloat.float.

(** The number of an integer below 2^63 in absolute value (exact
    below 2^53). *)
Definition of_Z (n : Z) : number :=
  if (n <? 0)%Z then PrimFloat.opp (PrimFloat.of_uint63 (Uint63.of_Z (- n)))
  else PrimFloat.of_uint63 (Uint63.of_Z n).

(** [a >= b] and [a <= b] *)
Definition ge (a b : number) : bool := PrimFloat.leb b a.
Definition le (a b : number) : bool := PrimFloat.leb a b.

(** [Math.round]: the closest integer, the larger one of two that
    are equally close; a value between -0.5 and -0 gives -0; NaN,
    the infinities and the zeros give themselves. A finite value
    with a sign, a mantissa [m] and an exponent [e] is [m * 2^e]. *)
Definition Math_round (x : number) : number :=
  match FloatOps.Prim2SF x with
  | SpecFloat.S754_finite s m e =>
      if (0 <=? e)%Z then x
      else
        let k := (- e)%Z in
        let n := if s then ((2 ^ k - 2 * Zpos m) / 2 ^ (k + 1))%Z
                 else ((2 * Zpos m + 2 ^ k) / 2 ^ (k + 1))%Z in
        if (n =? 0)%Z then (if s then PrimFloat.opp (of_Z 0) else of_Z 0)
        else of_Z n
  | _ => x
  end.

(** ** getAuditLog *)

Section AuditLog.

(** An entry of the audit log, an object with the properties
    timestamp, event, details and userAgent. *)
Variable Entry : Type.

(** [getAuditLog(limit)] for an integer [limit] (100 when the
    argument is left out): the entries that [slice(-limit)] keeps,
    each one with the property [sensitiveData] set. *)
Definition getAuditLog (auditLog : list Entry) (limit : Z) : list (Entry * string) :=
  map (fun log => (log, "[MASKED]")) (slice1 auditLog (- limit)).

End AuditLog.

(** ** performSecurityHealthCheck *)

(** The settings that the health check reads: three numbers, and
    the truth values (ToBoolean) of the two [enabled] settings. *)
Record Config : Type := {
  hash_iterations : number;
  hash_saltLength : number;
  session_timeoutMinutes : number;
  audit_enabled : bool;
  rateLimit_enabled : bool
}.

(** The part of [defaultConfig] that is read. *)
Definition defaultConfig : Config :=
  {| hash_iterations := of_Z 100000;
     hash_saltLength := of_Z 32;
     session_timeoutMinutes := of_Z 30;
     audit_enabled := true;
     rateLimit_enabled := true |}.

Record Checks : Type := {
  hashIterations : bool;
  saltLength : bool;
  sessionTimeout : bool;
  auditEnabled : bool;
  rateLimitEnabled : bool;
  pepperConfigured : bool
}.

(** [Object.values(checks)] *)
Definition values (checks : Checks) : list bool :=
  [ hashIterations checks; saltLength checks; sessionTimeout checks;
    auditEnabled checks; rateLimitEnabled checks; pepperConfigured checks ].

Definition _getSecurityGrade (score : number) : string :=
  if ge score (of_Z 90) then "A"
  else if ge score (of_Z 80) then "B"
  else if ge score (of_Z 70) then "C"
  else if ge score (of_Z 60) then "D"
  else "F".

Definition _getSecurityRecommendations (checks : Checks) : list string :=
  (if negb (hashIterations checks)
   then ["ハッシュ反復回数を100,000以上に設定してください"] else [])
  ++ (if negb (pepperConfigured checks) then ["ペッパー値を設定してください"] else [])
  ++ (if negb (auditEnabled checks) then ["監査ログを有効にしてください"] else [])
  ++ (if negb (rateLimitEnabled checks) then ["レート制限を有効にしてください"] else []).

Record HealthCheck : Type := {
  score : number;
  grade : string;
  checks : Checks;
  recommendations : list string
}.

(** [pepper] is the truth value of
    [this.loadSecureConfig('security_pepper')], which reads the
    storage of the browser and decrypts what it finds; the entry
    that the check adds to the audit log is left out. *)
Definition performSecurityHealthCheck (config : Config) (pepper : bool) : HealthCheck :=
  let checks :=
    {| hashIterations := ge (hash_iterations config) (of_Z 100000);
       saltLength := ge (hash_saltLength config) (of_Z 32);
       sessionTimeout := le (session_timeoutMinutes config) (of_Z 60);
       auditEnabled := audit_enabled config;
       rateLimitEnabled := rateLimit_enabled config;
       pepperConfigured := pepper |} in
  let passedChecks := length (filter (fun b : bool => b) (values checks)) in
  let totalChecks := length (values checks) in
  let score :=
    Math_round
      (PrimFloat.mul
         (PrimFloat.div (of_Z (Z.of_nat passedChecks)) (of_Z (Z.of_nat totalChecks)))
         (of_Z 100)) in
  {| score := score;
     grade := _getSecurityGrade score;
     checks := checks;
     recommendations := _getSecurityRecommendations checks |}.

End SecurityConfig.

Unset Implicit Arguments.

(* ================================================================== *)
(** * Vocabulary of the properties *)
(* ================================================================== *)

Module MatcherSpec.
Import RegExp.

(** A matcher never moves backwards. *)
Definition shrinks (f : mstate -> list mstate) : Prop :=
  forall st st', In st' (f st) -> length (rest st') <= length (rest st).

Definition at_end (st : mstate) : bool :=
  match rest st with [] => true | _ :: _ => false end.

(** [lo <= n <= hi], with no upper bound for [None]. *)
Definition within (lo : nat) (hi : option nat) (n : nat) : bool :=
  Nat.leb lo n && match hi with Some h => Nat.leb n h | None => true end.

Definition le_opt (lo : nat) (hi : option nat) : Prop :=
  match hi with Some h => lo <= h | None => True end.

(** [^a{lo,hi}$], as the pattern notation builds it. *)
Definition anchored (a : atom) (lo : nat) (hi : option nat) : regex :=
  seqs [Bol; Rep (Chr a) lo hi; Eol].

(** What holds of every code unit of the input still holds of the
    input that a matcher leaves. *)
Definition preserves (P : N -> Prop) (f : mstate -> list mstate) : Prop :=
  forall st st', In st' (f st) -> Forall P (rest st) -> Forall P (rest st').

(** A pattern that cannot match in an input all of whose code units
    satisfy [P]: somewhere on every path it needs a code unit that
    its atom refuses whenever [P] holds. *)
Fixpoint dead (ic : bool) (P : N -> Prop) (r : regex) : Prop :=
  match r with
  | Chr a => forall c, P c -> atom_match ic a c = false
  | Seq r1 r2 => dead ic P r1 \/ dead ic P r2
  | Alt r1 r2 => dead ic P r1 /\ dead ic P r2
  | Group _ r' => dead ic P r'
  | _ => False
  end.

End MatcherSpec.

(** The Luhn check as the specification words it: the digits are
    numbered from the rightmost one; every second digit (the digits
    at the odd positions, counting from 0) is doubled, 9 is taken off
    a doubled value above 9, all the values are added, and the number
    is accepted when the sum is a multiple of 10. *)
Module LuhnSpec.

Definition doubled (d : nat) : nat :=
  if Nat.ltb 9 (2 * d) then 2 * d - 9 else 2 * d.

Definition value_at (position digit : nat) : nat :=
  if Nat.odd position then doubled digit else digit.

Definition luhn_sum (digits : list nat) : nat :=
  list_sum (map (fun p => value_at (fst p) (snd p))
                (combine (seq 0 (length digits)) (rev digits))).

Definition luhn_valid (digits : list nat) : bool :=
  Nat.eqb (luhn_sum digits mod 10) 0.

End LuhnSpec.

Module CardSpec.
Import RegExp ICCardValidator LuhnSpec.
Local Open Scope string_scope.
Local Open Scope list_scope.
Local Open Scope nat_scope.

Definition digit_value (c : N) : nat := N.to_nat (c - 48).

(** The sum that the loop adds up, for digits listed from the
    right and the flag [alternate] of the first of them. *)
Fixpoint loop_sum (from_right : list nat) (alternate : bool) : nat :=
  match from_right with
  | [] => 0
  | d :: tl => (if alternate then doubled d else d) + loop_sum tl (negb alternate)
  end.

(** The digit at index [i] replaced by [c]. *)
Definition set_digit (s : jsstring) (i : nat) (c : N) : jsstring :=
  firstn i s ++ c :: skipn (S i) s.

(** The entry that detection picks in the built-in table. *)
Definition entry (name : string) : option (jsstring * CardConfig) :=
  match Obj.get (js name) cardPatterns0 with
  | Some c => Some (js name, c)
  | None => None
  end.

Definition detect_spec (s : jsstring) : option (jsstring * CardConfig) :=
  if forallb isDigit s then
    if length s =? 16 then entry "SUICA"
    else if (10 <=? length s) && (length s <=? 12) then entry "CORPORATE"
    else if (8 <=? length s) && (length s <=? 14) then entry "STUDENT"
    else None
  else None.

(** A validator with the built-in table of card formats. *)
Definition builtin (iv : InputValidatorApi) (st : Stats) : ICCardValidator.t :=
  {| inputValidator := iv; cardPatterns := cardPatterns0; stats := st |}.

(** The mask character, [*]. *)
Definition star_char : N := 42.

(** What validateCardNumber answers on a string of 4 to 20 digits
    that the input validator accepts and leaves as it is. *)
Definition classify_digits (s : jsstring) : CardResult :=
  match detect_spec s with
  | None =>
      match maskCardNumber s with
      | Some number => UNKNOWN_CARD_TYPE number
      | None => VALIDATION_ERROR
      end
  | Some (type, config) =>
      if checksum config && negb (validateChecksum s type) then INVALID_CHECKSUM type
      else
        match maskCardNumber s with
        | Some number =>
            Valid type (issuer config) (description config) (regions config)
                  number s true
        | None => VALIDATION_ERROR
        end
  end.

(** The names of the formats that detection can report. *)
Definition reportable (type : jsstring) : Prop :=
  type = js "SUICA" \/ type = js "CORPORATE" \/ type = js "STUDENT".

(** The formats whose pattern is that of SUICA and which come
    after it in the table. *)
Definition shadowed : list jsstring :=
  map js ["ICOCA"; "MANACA"; "TOICA"; "SUGOCA"; "KITACA"; "HAYAKAKEN"; "NIMOCA"].

(** The type that a result of validateCardNumber names. *)
Definition cardType_of (r : CardResult) : option jsstring :=
  match r with
  | Valid type _ _ _ _ _ _ => Some type
  | INVALID_CHECKSUM type => Some type
  | _ => None
  end.

End CardSpec.

Module ScanSpec.
Import RegExp DataValidator.

(** The pattern matches somewhere in the string: the answer of
    [test] when the search starts at index 0. *)
Definition matches (re : RegExp.t) (s : jsstring) : bool :=
  match search (ignoreCase re) (source re) None s with
  | Some _ => true
  | None => false
  end.

(** The scan as the specification words it: the kind of the first
    of the three pattern sets, in the order SQL, OS command, XSS,
    that has a pattern matching the string. *)
Definition scan_spec (v : DataValidator.t) (s : jsstring) : option Violation :=
  if existsb (fun p => matches p s) (sqlInjectionPatterns v) then Some SQL_INJECTION
  else if existsb (fun p => matches p s) (osCommandPatterns v)
       then Some OS_COMMAND_INJECTION
  else if existsb (fun p => matches p s) (xssPatterns v) then Some XSS
  else None.


(** The cursors of the patterns with the [g] flag are at 0. *)
Definition rewound (ps : list RegExp.t) : Prop :=
  Forall (fun p => global p = true -> lastIndex p = 0) ps.


End ScanSpec.

Module FieldSpec.
Import RegExp DataValidator.
Local Open Scope string_scope.
Local Open Scope list_scope.
Local Open Scope nat_scope.

(** The outcome of the checks that follow the scan, for a rule and
    the string of the value. *)
Definition too_long (rule : FieldRule) (s : jsstring) : bool :=
  maxLength rule <? length s.

Definition blank (s : jsstring) : bool := length (trim s) =? 0.

Definition mismatch (rule : FieldRule) (s : jsstring) : bool :=
  match pattern rule with
  | Some p => negb (blank s) && negb (fst (test p s))
  | None => false
  end.

Definition counts (v : DataValidator.t) : nat * nat * nat * nat :=
  (totalValidations (stats v), successfulValidations (stats v),
   failedValidations (stats v), securityViolations (stats v)).

Definition is_security_violation (r : FieldResult) : bool :=
  match r with SECURITY_VIOLATION _ => true | _ => false end.

(** The part of validateField that follows the conversion of the
    value to the string [s], when the field name has found the rule
    object [rule]. *)
Definition string_checks (v : DataValidator.t) (fieldName : jsstring)
           (rule : FieldRule) (s : jsstring) : FieldResult * DataValidator.t :=
  let (securityCheck, v1) := performSecurityCheck v s fieldName in
  match securityCheck with
  | Unsafe violation _ =>
      (SECURITY_VIOLATION violation, incr_failed (incr_securityViolations v1))
  | Safe =>
      if maxLength rule <? length s then
        (EXCESSIVE_LENGTH (length s) (maxLength rule),
         incr_failed (incr_excessiveLength v1))
      else if required rule && (length (trim s) =? 0) then
        (REQUIRED_FIELD, incr_failed v1)
      else
        match pattern rule with
        | Some p =>
            if 0 <? length (trim s) then
              let (b, v2) := test_rule v1 fieldName (RuleObject rule) p s in
              if negb b then
                (INVALID_FORMAT (source p), incr_failed (incr_invalidFormat v2))
              else finish v2 (RuleObject rule) s
            else finish v1 (RuleObject rule) s
        | None => finish v1 (RuleObject rule) s
        end
  end.

End FieldSpec.

Module ObjectSpec.
Import RegExp DataValidator.
Local Open Scope string_scope.
Local Open Scope list_scope.
Local Open Scope nat_scope.

(** The field validator run on every entry of [data] in turn, on
    the validator as the runs before left it. *)
Fixpoint field_runs (v : DataValidator.t) (entries : list (jsstring * Value))
  : list (jsstring * FieldResult) * DataValidator.t :=
  match entries with
  | [] => ([], v)
  | (fieldName, value) :: tl =>
      let (r, v1) := validateField v fieldName value no_options in
      let (rs, v2) := field_runs v1 tl in
      ((fieldName, r) :: rs, v2)
  end.

Definition failed (run : jsstring * FieldResult) : bool := negb (valid (snd run)).

Definition passed (run : jsstring * FieldResult) : bool := valid (snd run).

Definition field_error (run : jsstring * FieldResult) : ObjectError :=
  FieldError (fst run) (snd run).

(** What the second loop keeps in [sanitizedData]. *)
Fixpoint collect (runs : list (jsstring * FieldResult))
         (acc : list (jsstring * jsstring)) : list (jsstring * jsstring) :=
  match runs with
  | [] => acc
  | (k, r) :: tl =>
      collect tl (if valid r then Obj.assign_string k (sanitizedValue r) acc else acc)
  end.

(** What it keeps in [fieldResults]: own properties and prototype. *)
Fixpoint record_all (runs : list (jsstring * FieldResult))
         (acc : list (jsstring * FieldResult) * option FieldResult)
  : list (jsstring * FieldResult) * option FieldResult :=
  match runs with
  | [] => acc
  | (k, r) :: tl => record_all tl (Obj.assign_object k r (fst acc) (snd acc))
  end.

(** A required field that the first loop reports. *)
Definition reported (results : ObjectResult) (field : jsstring) : Prop :=
  In (MISSING_REQUIRED_FIELD field) (errors results).

End ObjectSpec.

Module SanitizeSpec.
Import RegExp InputValidator.
Local Open Scope string_scope.
Local Open Scope list_scope.
Local Open Scope nat_scope.

(** A function on strings that never makes a string longer and
    that changes every string it makes shorter, and only those. *)
Definition deleting (f : jsstring -> jsstring) : Prop :=
  forall s, length (f s) <= length s /\ (length (f s) = length s -> f s = s).

Definition starts_clean (s : jsstring) : Prop :=
  match s with c :: _ => isWhiteSpace c = false | [] => True end.

Fixpoint startsWith (s word : jsstring) : bool :=
  match word, s with
  | [], _ => true
  | _ :: _, [] => false
  | a :: word, c :: s => (a =? c)%N && startsWith s word
  end.

(** [String.prototype.includes] *)
Fixpoint includes (s word : jsstring) : bool :=
  startsWith s word
  || match s with
     | [] => false
     | _ :: tl => includes tl word
     end.

(** What the demonstration script of the repository asks of a
    sanitized value:
    [!sanitized.includes('script') && !sanitized.includes('javascript')]. *)
Definition isClean (sanitized : jsstring) : bool :=
  negb (includes sanitized (js "script")) && negb (includes sanitized (js "javascript")).

Definition isControl (c : N) : bool := in_range 0 31 c || (127 =? c)%N.

(** The first pass of [sanitizeInput]. *)
Definition strip (s : jsstring) : jsstring := replace_all false controlChars s.

(** The removal passes of [sanitizeInput] between the removal of
    the control characters and the final [trim], in source order:
    flag [i] and pattern of each. *)
Definition removals : list (bool * regex) :=
  [ (true, element "script");
    (true, element "iframe");
    (true, element "object");
    (true, eventHandler);
    (true, lit "javascript:");
    (true, lit "vbscript:") ].

Definition remove_all (s : jsstring) : jsstring :=
  fold_left (fun acc p => replace_all (fst p) (snd p) acc) removals s.

(** A code unit other than [<], [:] and [=]. *)
Definition plain (c : N) : Prop := c <> 60%N /\ c <> 58%N /\ c <> 61%N.

End SanitizeSpec.

Module CursorSpec.
Import RegExp MatcherSpec DataValidator.

(** Two pattern objects that differ by their cursors at most. *)
Definition same_pattern (p q : RegExp.t) : Prop :=
  source p = source q /\ ignoreCase p = ignoreCase q /\ global p = global q.

Definition up_to_cursors (ps qs : list RegExp.t) : Prop := Forall2 same_pattern ps qs.

(** A validator whose scan patterns are those of the constructor,
    the cursors being anywhere. *)
Definition builtin_scan (v : DataValidator.t) : Prop :=
  up_to_cursors (sqlInjectionPatterns v) sqlInjectionPatterns0
  /\ up_to_cursors (osCommandPatterns v) osCommandPatterns0
  /\ up_to_cursors (xssPatterns v) xssPatterns0.

(** Sets of code units: the digits, the white space. *)
Definition digit (c : N) : Prop := isDigit c = true.
Definition blank_char (c : N) : Prop := isWhiteSpace c = true.

(** The pattern object cannot match in an input made of code
    units of [P] (see [MatcherSpec.dead]). *)
Definition dead_for (P : N -> Prop) (re : RegExp.t) : Prop :=
  dead (ignoreCase re) P (source re).

End CursorSpec.

Module RuleSpec.
Import RegExp DataValidator.

(** The rule that addValidationRule stores for a descriptor with
    the four properties it asks for. *)
Definition described (r : RuleDescriptor) : option FieldRule :=
  match d_maxLength r, d_required r, d_sanitize r, d_description r with
  | Some len, Some req, Some san, Some descr =>
      Some {| pattern := d_pattern r; maxLength := len; required := req;
              sanitize := san; description := descr |}
  | _, _, _, _ => None
  end.

(** The assignment [this.validationRules[fieldName] = rule] runs
    the setter of [__proto__]: the name is [__proto__] and the
    registry has no own property of that name. *)
Definition replaces_prototype (v : t) (fieldName : jsstring) : bool :=
  Obj.is_proto fieldName && negb (Obj.has fieldName (validationRules v)).

End RuleSpec.

Module CountSpec.
Import RegExp ICCardValidator.
Local Open Scope string_scope.
Local Open Scope list_scope.
Local Open Scope nat_scope.

Definition is_validation_error (r : CardResult) : bool :=
  match r with VALIDATION_ERROR => true | _ => false end.

(** The sum of the three outcome counters. *)
Definition outcomes (s : Stats) : nat :=
  validCards s + invalidCards s + suspiciousAttempts s.

(** The type that detection gives to a string of digits of an
    accepted length. *)
Definition type_by_length (n : nat) : jsstring :=
  if n =? 16 then js "SUICA"
  else if (10 <=? n) && (n <=? 12) then js "CORPORATE"
  else js "STUDENT".

End CountSpec.

Module EscapeSpec.
Import RegExp InputValidation.
Local Open Scope list_scope.

(** The eight characters that escapeHtml rewrites:
    ampersand, less-than, greater-than, double quote, apostrophe,
    slash, backtick, equals sign. *)
Definition specials : list N := [38; 60; 62; 34; 39; 47; 96; 61]%N.

Definition special (c : N) : bool := existsb (N.eqb c) specials.

(** What is written for one code unit. *)
Definition entity (c : N) : jsstring :=
  match Obj.get [c] htmlEscapeMap with
  | Some e => e
  | None => [c]
  end.

(** The entities. *)
Definition entities : list jsstring := map snd htmlEscapeMap.

Definition ampersand : N := 38.

End EscapeSpec.

Module InputSpec.
Import RegExp InputValidation CursorSpec.
Local Open Scope string_scope.
Local Open Scope list_scope.
Local Open Scope nat_scope.

(** An input validator with the patterns of the constructor, the
    cursors being anywhere. *)
Definition builtin_input (v : InputValidation.t) : Prop :=
  up_to_cursors (dangerousPatterns (config v)) dangerousPatterns0.

(** A first code unit [p1], a second one among [p2], then [n]
    digits and nothing more. *)
Definition prefix_digits (p1 : string) (p2 : list string) (n : nat) (u : jsstring)
  : bool :=
  match u with
  | c1 :: c2 :: tl =>
      (c1 =? chr p1)%N && existsb (fun p => (c2 =? chr p)%N) p2
      && forallb isDigit tl && (length tl =? n)
  | _ => false
  end.

(** The card type of a number, by its two letters and the number
    of its digits. *)
Definition card_type (u : jsstring) : option string :=
  if prefix_digits "T" ["O"] 14 u then Some "TOICA"
  else if prefix_digits "M" ["A"] 14 u then Some "manaca"
  else if prefix_digits "J" ["E"] 15 u then Some "Suica"
  else if prefix_digits "I" ["C"] 14 u then Some "ICOCA"
  else if prefix_digits "S" ["G"] 14 u then Some "SUGOCA"
  else if prefix_digits "P" ["A"; "B"] 14 u then Some "PASMO"
  else None.

Definition card_name (type : string) : string :=
  match find (fun entry => String.eqb (fst entry) type) icCardFormats with
  | Some (_, format) => name format
  | None => ""
  end.

(** The masks, for strings on which they do not throw. *)
Definition card_mask (u : jsstring) : jsstring :=
  firstn 2 u ++ List.repeat CardSpec.star_char (length u - 6) ++ skipn (length u - 4) u.

Definition employee_mask (u : jsstring) : jsstring :=
  firstn 1 u ++ List.repeat CardSpec.star_char (length u - 2) ++ skipn (length u - 1) u.

Definition isAlnum (c : N) : bool :=
  in_range 65 90 c || in_range 97 122 c || in_range 48 57 c.

(** The errors of the length check, and the limit in force. *)
Definition length_errors (max : nat) (s : jsstring) : list Message :=
  if max <? length s then [TOO_LONG max] else [].

Definition limit (v : InputValidation.t) (options : InputValidation.Options) : nat :=
  match o_maxInputLength options with
  | Some n => n
  | None => maxInputLength (config v)
  end.

End InputSpec.

Module ConfigSpec.
Import SecurityConfig.
Local Open Scope list_scope.

(** The number of checks that pass. *)
Definition passed (c : Checks) : nat := length (filter (fun b : bool => b) (values c)).

End ConfigSpec.

Module HashSpec.
Import SecureHashManager.
Local Open Scope string_scope.
Local Open Scope list_scope.
Local Open Scope nat_scope.

(** The issuer of a card type. *)
Definition issuer_of (type : string) : string :=
  match find (fun entry => String.eqb (fst entry) type) icCardTypes with
  | Some (_, config) => issuer config
  | None => ""
  end.

(** Stars for all code units but the last four. *)
Definition last_four_mask (u : jsstring) : jsstring :=
  List.repeat CardSpec.star_char (length u - 4) ++ skipn (length u - 4) u.

End HashSpec.

Module PhoneSpec.
Import RegExp InputValidation.
Local Open Scope string_scope.
Local Open Scope list_scope.
Local Open Scope nat_scope.

Definition hyphen : N := 45.

(** The code units that the filter of validatePhoneNumber keeps. *)
Definition phone_char (c : N) : bool :=
  isDigit c || (c =? 45)%N || (c =? 40)%N || (c =? 41)%N || (c =? 43)%N
  || isWhiteSpace c.

(** A match of [r] started in [st] can end before [tl], with no
    capture made. *)
Definition reaches (r : regex) (st : mstate) (tl : jsstring) : Prop :=
  exists st', In st' (m false r st) /\ rest st' = tl /\ caps st' = [].

(** The state after [n] code units. *)
Fixpoint consume (n : nat) (st : mstate) : mstate :=
  match n with
  | O => st
  | S n' =>
      match rest st with
      | c :: tl => consume n' (advance st c tl)
      | [] => st
      end
  end.

(** [n] digits and a hyphen at the start of [u]: what follows. *)
Definition digits_hyphen (n : nat) (u : jsstring) : option jsstring :=
  if forallb isDigit (firstn n u) && (n <=? length u) then
    match skipn n u with
    | h :: t => if (h =? 45)%N then Some t else None
    | [] => None
    end
  else None.

(** The replacement of a match of the mask pattern at the start of
    [u], followed by the rest of [u]. *)
Definition mask_at (u : jsstring) : option jsstring :=
  match digits_hyphen 3 u with
  | Some u2 =>
      match digits_hyphen 4 u2 with
      | Some u4 =>
          if forallb isDigit (firstn 4 u4) && (4 <=? length u4)
          then Some ((firstn 3 u ++ js "-****-" ++ firstn 4 u4) ++ skipn 4 u4)
          else None
      | None => None
      end
  | None => None
  end.

(** The search of _maskPhoneNumber, the code unit before the
    current position being [p]. *)
Definition mask_from (p : option N) (u : jsstring) : jsstring :=
  replace_first false phoneMask
    (fun cs => capture 1 cs ++ js "-****-" ++ capture 3 cs) p u.

End PhoneSpec.

(** Collaborators for the examples: the sanitizer of
    InputValidator.js with a test for non-empty strings, and
    stand-ins for the hash manager and for [JSON.stringify]. *)
Module Fixtures.

Definition iv0 : InputValidatorApi :=
  {| sanitizeString := InputValidator.sanitizeInput;
     isValidString := fun s => negb (Nat.eqb (length s) 0) |}.

Definition hm0 : HashManagerApi := {| generateHash := fun s => s |}.

Definition stringify0 : list (jsstring * jsstring) -> jsstring :=
  fun o => List.concat (map (fun p => fst p ++ snd p) o).

End Fixtures.


(* ================================================================== *)
(** * Properties of the matcher *)
(* ================================================================== *)

Module RegExpFacts.
Import RegExp MatcherSpec.

Lemma flat_map_ext_in {A B : Type} (f g : A -> list B) (l : list A) :
  (forall a, In a l -> f a = g a) -> flat_map f l = flat_map g l.
Proof.
  induction l as [|a l IH]; intros H; simpl; [reflexivity|].
  rewrite (H a (or_introl eq_refl)), IH; [reflexivity|].
  intros b Hb. apply H. now right.
Qed.

Lemma forallb_ext {A : Type} (f g : A -> bool) (l : list A) :
  (forall a, f a = g a) -> forallb f l = forallb g l.
Proof.
  intros H. induction l as [|a l IH]; simpl; [reflexivity|].
  now rewrite H, IH.
Qed.

Section Shrink.
Variable ic : bool.

Lemma match_word_shrinks w : shrinks (match_word ic w).
Proof.
  induction w as [|a w IH]; intros st st' H; simpl in H.
  - destruct H as [<-|[]]. lia.
  - destruct (rest st) as [|c tl] eqn:E; [destruct H|].
    destruct (canon ic a =? canon ic c)%N; [|destruct H].
    apply IH in H. simpl in *. lia.
Qed.

Lemma rep_shrinks f gs : shrinks f ->
  forall fuel lo hi, shrinks (rep f gs fuel lo hi).
Proof.
  intros Hf fuel. induction fuel as [|fuel IH]; intros lo hi st st' H; simpl in H.
  - destruct H.
  - assert (Hmore : forall x,
              In x (flat_map
                      (fun st'0 =>
                         if Nat.eqb lo 0
                            && Nat.eqb (length (rest st'0)) (length (rest st))
                         then []
                         else rep f gs fuel (Nat.pred lo) (option_map Nat.pred hi) st'0)
                      (f (clear_caps gs st))) ->
              length (rest x) <= length (rest st)).
    { intros x Hx. apply in_flat_map in Hx. destruct Hx as [y [Hy Hx]].
      apply Hf in Hy. simpl in Hy.
      destruct (Nat.eqb lo 0 && Nat.eqb (length (rest y)) (length (rest st)));
        [destruct Hx|].
      apply IH in Hx. lia. }
    destruct hi as [[|hi]|].
    + destruct H as [<-|[]]. lia.
    + destruct (Nat.eqb lo 0).
      * apply in_app_or in H. destruct H as [H|[<-|[]]]; [now apply Hmore|lia].
      * now apply Hmore.
    + destruct (Nat.eqb lo 0).
      * apply in_app_or in H. destruct H as [H|[<-|[]]]; [now apply Hmore|lia].
      * now apply Hmore.
Qed.

Lemma m_shrinks r : shrinks (m ic r).
Proof.
  induction r; intros st st' H.
  - simpl in H. destruct H as [<-|[]]. lia.
  - simpl in H. destruct (rest st) as [|c tl] eqn:E; [destruct H|].
    destruct (atom_match ic a c); [|destruct H].
    destruct H as [<-|[]]. simpl. lia.
  - simpl in H. apply in_flat_map in H. destruct H as [y [Hy H]].
    apply IHr1 in Hy. apply IHr2 in H. lia.
  - simpl in H. apply in_app_or in H.
    destruct H as [H|H]; [now apply IHr1|now apply IHr2].
  - change (In st' (rep (m ic r) (groups r) (rep_fuel min st) min max st)) in H.
    revert H. now apply rep_shrinks.
  - simpl in H. apply in_map_iff in H. destruct H as [y [<- Hy]].
    simpl. now apply IHr.
  - simpl in H. destruct (get_cap i (caps st)).
    + now apply match_word_shrinks in H.
    + destruct H as [<-|[]]. lia.
  - simpl in H. destruct (prev st); [destruct H|]. destruct H as [<-|[]]. lia.
  - simpl in H. destruct (rest st) eqn:E; [|destruct H].
    destruct H as [<-|[]]. rewrite E. simpl. lia.
  - simpl in H. destruct (xorb _ _); [|destruct H]. destruct H as [<-|[]]. lia.
  - simpl in H. destruct (m ic r st); [|destruct H]. destruct H as [<-|[]]. lia.
Qed.

(** The fuel of [rep] never runs out: any larger amount gives
    the same result. *)
Lemma rep_fuel_irrelevant f gs : shrinks f ->
  forall fuel fuel' lo hi st,
    rep_fuel lo st <= fuel -> rep_fuel lo st <= fuel' ->
    rep f gs fuel lo hi st = rep f gs fuel' lo hi st.
Proof.
  intros Hf fuel. unfold rep_fuel.
  induction fuel as [|fuel IH]; intros fuel' lo hi st H H'; [lia|].
  destruct fuel' as [|fuel']; [lia|]. simpl.
  assert (Hmore :
    flat_map
      (fun st' =>
         if Nat.eqb lo 0 && Nat.eqb (length (rest st')) (length (rest st))
         then []
         else rep f gs fuel (Nat.pred lo) (option_map Nat.pred hi) st')
      (f (clear_caps gs st)) =
    flat_map
      (fun st' =>
         if Nat.eqb lo 0 && Nat.eqb (length (rest st')) (length (rest st))
         then []
         else rep f gs fuel' (Nat.pred lo) (option_map Nat.pred hi) st')
      (f (clear_caps gs st))).
  { apply flat_map_ext_in. intros y Hy. apply Hf in Hy. simpl in Hy.
    destruct (Nat.eqb lo 0) eqn:E0; simpl.
    - apply Nat.eqb_eq in E0. subst lo.
      destruct (Nat.eqb (length (rest y)) (length (rest st))) eqn:E1; [reflexivity|].
      apply Nat.eqb_neq in E1. apply IH; simpl; lia.
    - apply Nat.eqb_neq in E0. apply IH; lia. }
  now rewrite Hmore.
Qed.

Corollary m_Rep_fuel r lo hi st fuel :
  rep_fuel lo st <= fuel ->
  m ic (Rep r lo hi) st = rep (m ic r) (groups r) fuel lo hi st.
Proof.
  intros H. change (m ic (Rep r lo hi) st)
    with (rep (m ic r) (groups r) (rep_fuel lo st) lo hi st).
  apply rep_fuel_irrelevant; auto using m_shrinks.
Qed.

End Shrink.

(** ** Patterns of the shape [^a{lo,hi}$] *)

Ltac bool_to_prop :=
  repeat (rewrite ?Bool.andb_true_iff, ?Bool.orb_true_iff, ?Nat.leb_le,
           ?Nat.eqb_eq, ?Bool.andb_false_iff, ?Nat.leb_gt in * ).

Lemma within_step lo hi n :
  hi <> Some 0 ->
  within lo hi (S n) = within (Nat.pred lo) (option_map Nat.pred hi) n.
Proof.
  intros Hhi. unfold within. apply Bool.eq_iff_eq_true.
  destruct hi as [[|h]|]; [congruence| |]; simpl option_map; cbv beta iota;
    bool_to_prop; destruct lo; simpl; lia.
Qed.

Section Anchored.
Variable ic : bool.
Variable a : atom.
Variable gs : list nat.

Lemma clear_caps_rest st : rest (clear_caps gs st) = rest st.
Proof. reflexivity. Qed.

Lemma m_Chr_nil st : rest st = [] -> m ic (Chr a) st = [].
Proof. intros H. simpl. now rewrite H. Qed.

Lemma m_Chr_cons st c tl :
  rest st = c :: tl ->
  m ic (Chr a) st = if atom_match ic a c then [advance st c tl] else [].
Proof. intros H. simpl. now rewrite H. Qed.

Lemma rep_unfold f fuel lo hi st :
  rep f gs (S fuel) lo hi st =
  match hi with
  | Some O => [st]
  | _ =>
      let more :=
        flat_map
          (fun st' =>
             if Nat.eqb lo 0 && Nat.eqb (length (rest st')) (length (rest st))
             then []
             else rep f gs fuel (Nat.pred lo) (option_map Nat.pred hi) st')
          (f (clear_caps gs st)) in
      if Nat.eqb lo 0 then more ++ [st] else more
  end.
Proof. reflexivity. Qed.

Lemma rep_chr_at_end :
  forall l fuel lo hi st,
    rest st = l -> S (lo + length l) <= fuel -> le_opt lo hi ->
    existsb at_end (rep (m ic (Chr a)) gs fuel lo hi st)
    = forallb (atom_match ic a) l && within lo hi (length l).
Proof.
  induction l as [|c tl IH]; intros fuel lo hi st Hrest Hfuel Hle;
    (destruct fuel as [|fuel]; [lia|]); rewrite rep_unfold.
  - (* the input is exhausted *)
    assert (Hend : at_end st = true) by (unfold at_end; now rewrite Hrest).
    rewrite (m_Chr_nil (clear_caps gs st)) by exact Hrest.
    destruct hi as [[|h]|]; simpl in Hle; cbv zeta; simpl flat_map.
    + assert (lo = 0) by lia. subst lo. simpl. now rewrite Hend.
    + destruct lo; simpl; [now rewrite Hend|reflexivity].
    + destruct lo; simpl; [now rewrite Hend|reflexivity].
  - assert (Hend : at_end st = false) by (unfold at_end; now rewrite Hrest).
    assert (Hhead :
      existsb at_end
        (flat_map
           (fun st' =>
              if Nat.eqb lo 0 && Nat.eqb (length (rest st')) (length (rest st))
              then []
              else rep (m ic (Chr a)) gs fuel (Nat.pred lo) (option_map Nat.pred hi) st')
           (m ic (Chr a) (clear_caps gs st)))
      = atom_match ic a c && forallb (atom_match ic a) tl
        && within (Nat.pred lo) (option_map Nat.pred hi) (length tl)).
    { rewrite (@m_Chr_cons (clear_caps gs st) c tl) by exact Hrest.
      destruct (atom_match ic a c); [|reflexivity].
      cbn [flat_map]. rewrite app_nil_r.
      replace (length (rest (advance (clear_caps gs st) c tl))) with (length tl)
        by reflexivity.
      rewrite Hrest. cbn [length].
      replace (Nat.eqb (length tl) (S (length tl))) with false
        by (symmetry; apply Nat.eqb_neq; lia).
      rewrite Bool.andb_false_r.
      rewrite (IH fuel (Nat.pred lo) (option_map Nat.pred hi)).
      - reflexivity.
      - reflexivity.
      - simpl in Hfuel. lia.
      - destruct hi as [h|]; simpl in *; lia. }
    destruct hi as [[|h]|].
    + simpl existsb. rewrite Hend. simpl.
      unfold within. simpl. now rewrite !Bool.andb_false_r.
    + cbv zeta. cbn [length forallb].
      rewrite (@within_step lo (Some (S h)) (length tl)) by congruence.
      destruct (Nat.eqb lo 0).
      * rewrite existsb_app, Hhead. simpl. rewrite Hend.
        now rewrite !Bool.orb_false_r.
      * now rewrite Hhead.
    + cbv zeta. cbn [length forallb].
      rewrite (@within_step lo None (length tl)) by congruence.
      destruct (Nat.eqb lo 0).
      * rewrite existsb_app, Hhead. simpl. rewrite Hend.
        now rewrite !Bool.orb_false_r.
      * now rewrite Hhead.
Qed.

End Anchored.

Section AnchoredClass.
Variable ic : bool.
Variable a : atom.

Lemma flat_map_Eol l : flat_map (m ic Eol) l = filter at_end l.
Proof.
  induction l as [|st l IH]; [reflexivity|].
  cbn [flat_map filter]. rewrite IH. unfold at_end.
  simpl (m ic Eol st). now destruct (rest st).
Qed.

Lemma filter_nil_existsb {A : Type} (f : A -> bool) (l : list A) :
  match filter f l with [] => false | _ :: _ => true end = existsb f l.
Proof.
  induction l as [|x l IH]; simpl; [reflexivity|].
  destruct (f x); simpl; [reflexivity|exact IH].
Qed.

Lemma anchored_not_at_start lo hi c s cs :
  m ic (anchored a lo hi) {| prev := Some c; rest := s; caps := cs |} = [].
Proof. reflexivity. Qed.

Lemma search_anchored_later lo hi c s :
  search ic (anchored a lo hi) (Some c) s = None.
Proof.
  revert c. induction s as [|x s IH]; intros c.
  - reflexivity.
  - unfold search; fold search. unfold match_at.
    rewrite anchored_not_at_start. now rewrite IH.
Qed.

Lemma m_anchored_start lo hi s :
  le_opt lo hi ->
  match m ic (anchored a lo hi) {| prev := None; rest := s; caps := [] |} with
  | [] => false
  | _ :: _ => true
  end = forallb (atom_match ic a) s && within lo hi (length s).
Proof.
  intros Hle. unfold anchored, seqs.
  change (m ic (Seq Bol (Seq (Rep (Chr a) lo hi) Eol))
            {| prev := None; rest := s; caps := [] |})
    with (flat_map (m ic Eol)
            (m ic (Rep (Chr a) lo hi) {| prev := None; rest := s; caps := [] |})
          ++ []).
  rewrite app_nil_r, flat_map_Eol, filter_nil_existsb.
  change (m ic (Rep (Chr a) lo hi) {| prev := None; rest := s; caps := [] |})
    with (rep (m ic (Chr a)) [] (S (lo + length s)) lo hi
              {| prev := None; rest := s; caps := [] |}).
  now apply rep_chr_at_end.
Qed.

(** What [test] answers for a pattern [^a{lo,hi}$] without the
    [g] flag: the whole string is made of [lo] to [hi] code
    units that [a] accepts. *)
Lemma test_anchored lo hi li s :
  le_opt lo hi ->
  fst (test {| source := anchored a lo hi; ignoreCase := ic; global := false;
               lastIndex := li |} s)
  = forallb (atom_match ic a) s && within lo hi (length s).
Proof.
  intros Hle. rewrite <- (@m_anchored_start lo hi s Hle).
  unfold test. cbn [global ignoreCase source].
  destruct s as [|c s]; unfold search; fold search; unfold match_at.
  - destruct (m ic (anchored a lo hi) _); reflexivity.
  - destruct (m ic (anchored a lo hi) _); [|reflexivity].
    now rewrite search_anchored_later.
Qed.

(** Such a test leaves the pattern object as it is. *)
Lemma test_not_global (re : RegExp.t) s :
  global re = false -> snd (test re s) = re.
Proof.
  intros H. unfold test. rewrite H.
  now destruct (search (ignoreCase re) (source re) None s).
Qed.

End AnchoredClass.

Lemma digit_class_match c :
  atom_match false (Class false [range "0" "9"]) c = isDigit c.
Proof.
  unfold atom_match, item_match. simpl.
  now rewrite !Bool.orb_false_r.
Qed.

Section Preserve.
Variable ic : bool.
Variable P : N -> Prop.

Lemma match_word_preserves w : preserves P (match_word ic w).
Proof.
  induction w as [|a w IH]; intros st st' H HP; simpl in H.
  - now destruct H as [<-|[]].
  - destruct (rest st) as [|c tl] eqn:E; [destruct H|].
    destruct (canon ic a =? canon ic c)%N; [|destruct H].
    apply (IH _ _ H). simpl. now inversion HP.
Qed.

Lemma rep_preserves f gs : preserves P f ->
  forall fuel lo hi, preserves P (rep f gs fuel lo hi).
Proof.
  intros Hf fuel. induction fuel as [|fuel IH]; intros lo hi st st' H HP; simpl in H.
  - destruct H.
  - assert (Hmore : forall x,
              In x (flat_map
                      (fun st'0 =>
                         if Nat.eqb lo 0
                            && Nat.eqb (length (rest st'0)) (length (rest st))
                         then []
                         else rep f gs fuel (Nat.pred lo) (option_map Nat.pred hi) st'0)
                      (f (clear_caps gs st))) ->
              Forall P (rest x)).
    { intros x Hx. apply in_flat_map in Hx. destruct Hx as [y [Hy Hx]].
      assert (HPy : Forall P (rest y)) by exact (Hf _ _ Hy HP).
      destruct (Nat.eqb lo 0 && Nat.eqb (length (rest y)) (length (rest st)));
        [destruct Hx|].
      exact (IH _ _ _ _ Hx HPy). }
    destruct hi as [[|hi]|].
    + now destruct H as [<-|[]].
    + destruct (Nat.eqb lo 0).
      * apply in_app_or in H. destruct H as [H|[<-|[]]]; [now apply Hmore|exact HP].
      * now apply Hmore.
    + destruct (Nat.eqb lo 0).
      * apply in_app_or in H. destruct H as [H|[<-|[]]]; [now apply Hmore|exact HP].
      * now apply Hmore.
Qed.

Lemma m_preserves r : preserves P (m ic r).
Proof.
  induction r; intros st st' H HP.
  - simpl in H. now destruct H as [<-|[]].
  - simpl in H. destruct (rest st) as [|c tl] eqn:E; [destruct H|].
    destruct (atom_match ic a c); [|destruct H].
    destruct H as [<-|[]]. simpl. now inversion HP.
  - simpl in H. apply in_flat_map in H. destruct H as [y [Hy H]].
    exact (IHr2 _ _ H (IHr1 _ _ Hy HP)).
  - simpl in H. apply in_app_or in H.
    destruct H as [H|H]; [exact (IHr1 _ _ H HP)|exact (IHr2 _ _ H HP)].
  - change (In st' (rep (m ic r) (groups r) (rep_fuel min st) min max st)) in H.
    exact (rep_preserves _ _ IHr _ _ _ _ _ H HP).
  - simpl in H. apply in_map_iff in H. destruct H as [y [<- Hy]].
    simpl. exact (IHr _ _ Hy HP).
  - simpl in H. destruct (get_cap i (caps st)).
    + exact (match_word_preserves _ _ _ H HP).
    + now destruct H as [<-|[]].
  - simpl in H. destruct (prev st); [destruct H|]. now destruct H as [<-|[]].
  - simpl in H. destruct (rest st) eqn:E; [|destruct H].
    destruct H as [<-|[]]. rewrite E. exact HP.
  - simpl in H. destruct (xorb _ _); [|destruct H]. now destruct H as [<-|[]].
  - simpl in H. destruct (m ic r st); [|destruct H]. now destruct H as [<-|[]].
Qed.

Lemma flat_map_nil {A B : Type} (f : A -> list B) (l : list A) :
  (forall a, In a l -> f a = []) -> flat_map f l = [].
Proof.
  induction l as [|a l IH]; intros H; simpl; [reflexivity|].
  rewrite (H a (or_introl eq_refl)), IH; [reflexivity|].
  intros b Hb. apply H. now right.
Qed.

(** A dead pattern matches nowhere in such an input. *)
Lemma m_dead r : dead ic P r -> forall st, Forall P (rest st) -> m ic r st = [].
Proof.
  induction r; intros Hd st HP; simpl in Hd; try contradiction.
  - simpl. destruct (rest st) as [|c tl]; [reflexivity|].
    rewrite (Hd c); [reflexivity|]. now inversion HP.
  - simpl. destruct Hd as [Hd|Hd].
    + now rewrite (IHr1 Hd st HP).
    + apply flat_map_nil. intros st1 H1. apply (IHr2 Hd).
      exact (m_preserves r1 st st1 H1 HP).
  - simpl. destruct Hd as [Hd1 Hd2].
    now rewrite (IHr1 Hd1 st HP), (IHr2 Hd2 st HP).
  - simpl. now rewrite (IHr Hd st HP).
Qed.

(** Removing the matches of a dead pattern changes nothing. *)
Lemma remove_from_dead r : dead ic P r ->
  forall s p, Forall P s -> remove_from ic r p s 0 = s.
Proof.
  intros Hd s. induction s as [|c tl IH]; intros p HP; [reflexivity|].
  cbn [remove_from]. unfold match_at.
  rewrite (m_dead r Hd {| prev := p; rest := c :: tl; caps := [] |} HP).
  f_equal. apply IH. now inversion HP.
Qed.

End Preserve.

(** A pattern character other than a letter is matched by itself
    alone, with or without the [i] flag. *)
Lemma lit_refuses ic a c :
  in_range 97 122 a = false -> in_range 65 90 a = false -> c <> a ->
  atom_match ic (Lit a) c = false.
Proof.
  intros Hlow Hup Hne. unfold atom_match, canon. apply N.eqb_neq.
  destruct ic; [|congruence]. unfold toUpperAscii. rewrite Hlow.
  destruct (in_range 97 122 c) eqn:Ec; [|congruence].
  unfold in_range in *.
  rewrite Bool.andb_true_iff, !N.leb_le in Ec.
  rewrite Bool.andb_false_iff, !N.leb_gt in Hup. lia.
Qed.

Lemma digit_escape_match c :
  atom_match false (Class false [CDigit]) c = isDigit c.
Proof.
  unfold atom_match, item_match. simpl.
  now rewrite !Bool.orb_false_r.
Qed.

End RegExpFacts.

(* ================================================================== *)
(** * Card classification: detection *)
(* ================================================================== *)

Module CardFacts.
Import RegExp MatcherSpec RegExpFacts ICCardValidator CardSpec.
Local Open Scope string_scope.
Local Open Scope list_scope.
Local Open Scope nat_scope.

Local Arguments test : simpl never.

Lemma test_digits lo hi s :
  lo <= hi ->
  test (digits lo hi) s
  = (forallb isDigit s && within lo (Some hi) (length s), digits lo hi).
Proof.
  intros H.
  rewrite (surjective_pairing (test (digits lo hi) s)). f_equal.
  - unfold digits.
    change (seqs [Bol; Rep (set [range "0" "9"]) lo (Some hi); Eol])
      with (anchored (Class false [range "0" "9"]) lo (Some hi)).
    rewrite test_anchored by exact H.
    f_equal. apply forallb_ext. intros c. apply digit_class_match.
  - now apply test_not_global.
Qed.

Lemma test_digitsOnly s :
  fst (test digitsOnly s) = forallb isDigit s && Nat.leb 1 (length s).
Proof.
  unfold digitsOnly.
  change (seqs [Bol; plus (set [CDigit]); Eol])
    with (anchored (Class false [CDigit]) 1 None).
  rewrite test_anchored by exact I.
  unfold within. rewrite Bool.andb_true_r.
  f_equal. apply forallb_ext. intros c. apply digit_escape_match.
Qed.

Lemma within_16 n : within 16 (Some 16) n = (n =? 16).
Proof.
  unfold within. apply Bool.eq_iff_eq_true.
  rewrite Bool.andb_true_iff, !Nat.leb_le, Nat.eqb_eq. lia.
Qed.

Lemma detect_builtin s : detect cardPatterns0 s = (detect_spec s, cardPatterns0).
Proof.
  unfold cardPatterns0, detect_spec, sixteen.
  cbn [detect pattern with_pattern].
  rewrite !test_digits by lia.
  rewrite within_16. unfold within.
  destruct (forallb isDigit s); cbn [andb]; [|reflexivity].
  destruct (length s =? 16); [reflexivity|].
  destruct ((10 <=? length s) && (length s <=? 12)); [reflexivity|].
  destruct ((8 <=? length s) && (length s <=? 14)); reflexivity.
Qed.

Lemma detectCardType_builtin iv st s :
  detectCardType {| inputValidator := iv; cardPatterns := cardPatterns0; stats := st |} s
  = (detect_spec s,
     {| inputValidator := iv; cardPatterns := cardPatterns0; stats := st |}).
Proof.
  unfold detectCardType. cbn [cardPatterns]. now rewrite detect_builtin.
Qed.

End CardFacts.

(* ================================================================== *)
(** * The checksum *)
(* ================================================================== *)


Module LuhnFacts.
Import ICCardValidator LuhnSpec CardSpec.
Local Open Scope nat_scope.

Lemma Number_digit c : isDigit c = true -> Number_ c = Some (digit_value c).
Proof. intros H. unfold Number_. now rewrite H. Qed.

Lemma map_Number_digits s :
  forallb isDigit s = true -> map Number_ s = map Some (map digit_value s).
Proof.
  induction s as [|c s IH]; simpl; [reflexivity|].
  rewrite Bool.andb_true_iff. intros [Hc Hs].
  now rewrite Number_digit, IH.
Qed.

Lemma digit_value_le c : isDigit c = true -> digit_value c <= 9.
Proof.
  unfold isDigit, in_range, digit_value.
  rewrite Bool.andb_true_iff, !N.leb_le. lia.
Qed.

Lemma digit_value_inj c c' :
  isDigit c = true -> isDigit c' = true ->
  digit_value c = digit_value c' -> c = c'.
Proof.
  unfold isDigit, in_range, digit_value.
  rewrite !Bool.andb_true_iff, !N.leb_le. lia.
Qed.

Lemma luhn_digit_value alternate d :
  luhn_digit alternate (Some d) = Some (if alternate then doubled d else d).
Proof.
  unfold luhn_digit, doubled. destruct alternate; [|reflexivity].
  now rewrite (Nat.mul_comm d 2).
Qed.

Lemma luhn_loop_sum l alternate acc :
  luhn_loop (map Some l) alternate (Some acc) = Some (acc + loop_sum l alternate).
Proof.
  revert alternate acc. induction l as [|d l IH]; intros alternate acc.
  - simpl. f_equal. lia.
  - cbn [map luhn_loop loop_sum]. rewrite luhn_digit_value. cbn [add_nan].
    rewrite IH. f_equal. lia.
Qed.

Lemma loop_sum_positions l k :
  loop_sum l (Nat.odd k)
  = list_sum (map (fun p => value_at (fst p) (snd p))
                  (combine (seq k (length l)) l)).
Proof.
  revert k. induction l as [|d l IH]; intros k; simpl; [reflexivity|].
  rewrite <- IH. rewrite Nat.odd_succ, <- Nat.negb_odd.
  unfold value_at. reflexivity.
Qed.

(** validateChecksum computes the Luhn check of the
    specification on every string of digits. *)
Lemma validateChecksum_luhn s cardType :
  forallb isDigit s = true ->
  validateChecksum s cardType = luhn_valid (map digit_value s).
Proof.
  intros H. unfold validateChecksum, luhn_valid, luhn_sum.
  rewrite (map_Number_digits s H), <- map_rev, luhn_loop_sum.
  assert (E := loop_sum_positions (rev (map digit_value s)) 0).
  rewrite length_rev in E. rewrite <- E. reflexivity.
Qed.

(** ** One changed digit *)

Lemma doubled_le d : d <= 9 -> doubled d <= 9.
Proof. unfold doubled. intros H. destruct (Nat.ltb_spec 9 (2 * d)); lia. Qed.

Lemma doubled_inj d d' : d <= 9 -> d' <= 9 -> doubled d = doubled d' -> d = d'.
Proof.
  unfold doubled. intros H H'.
  destruct (Nat.ltb_spec 9 (2 * d)); destruct (Nat.ltb_spec 9 (2 * d')); lia.
Qed.

Lemma loop_sum_app a b alternate :
  loop_sum (a ++ b) alternate
  = loop_sum a alternate
    + loop_sum b (if Nat.even (length a) then alternate else negb alternate).
Proof.
  revert alternate. induction a as [|x a IH]; intros alternate.
  - simpl. reflexivity.
  - cbn [app loop_sum length]. rewrite IH, Nat.even_succ, <- Nat.negb_even.
    destruct (Nat.even (length a)); simpl; rewrite ?Bool.negb_involutive; lia.
Qed.

Lemma loop_sum_change a x y b alternate :
  x <= 9 -> y <= 9 -> x <> y ->
  loop_sum (a ++ x :: b) alternate mod 10 = 0 ->
  loop_sum (a ++ y :: b) alternate mod 10 <> 0.
Proof.
  intros Hx Hy Hxy. rewrite !loop_sum_app. cbn [loop_sum].
  set (w := if Nat.even (length a) then alternate else negb alternate).
  set (A := loop_sum a alternate). set (B := loop_sum b (negb w)).
  assert (Hw : (if w then doubled x else x) <> (if w then doubled y else y)).
  { destruct w; [|exact Hxy]. intros E. apply Hxy. now apply doubled_inj. }
  assert (Hwx : (if w then doubled x else x) <= 9)
    by (destruct w; [now apply doubled_le|exact Hx]).
  assert (Hwy : (if w then doubled y else y) <= 9)
    by (destruct w; [now apply doubled_le|exact Hy]).
  revert Hw Hwx Hwy.
  generalize (if w then doubled x else x), (if w then doubled y else y).
  intros p q Hpq Hp Hq H1 H2.
  assert (E1 := Nat.div_mod_eq (A + (p + B)) 10).
  assert (E2 := Nat.div_mod_eq (A + (q + B)) 10).
  lia.
Qed.

Lemma set_digit_length s i c : i < length s -> length (set_digit s i c) = length s.
Proof.
  intros H. unfold set_digit.
  rewrite length_app, length_firstn. cbn [length]. rewrite length_skipn. lia.
Qed.

Lemma forallb_firstn {A} (f : A -> bool) n l :
  forallb f l = true -> forallb f (firstn n l) = true.
Proof.
  revert n. induction l as [|x l IH]; intros [|n]; simpl; auto.
  rewrite !Bool.andb_true_iff. intros [? ?]. auto.
Qed.

Lemma forallb_skipn {A} (f : A -> bool) n l :
  forallb f l = true -> forallb f (skipn n l) = true.
Proof.
  revert n. induction l as [|x l IH]; intros [|n]; simpl; auto.
  rewrite !Bool.andb_true_iff. intros [? ?]. auto.
Qed.

Lemma set_digit_digits s i c :
  forallb isDigit s = true -> isDigit c = true ->
  forallb isDigit (set_digit s i c) = true.
Proof.
  intros Hs Hc. unfold set_digit. rewrite forallb_app. cbn [forallb].
  now rewrite forallb_firstn, Hc, forallb_skipn.
Qed.

(** Luhn detects every change of a single digit. *)
Lemma validateChecksum_single_change s i c cardType cardType' :
  forallb isDigit s = true -> i < length s -> isDigit c = true ->
  nth i s 0%N <> c ->
  validateChecksum s cardType = true ->
  validateChecksum (set_digit s i c) cardType' = false.
Proof.
  intros Hs Hi Hc Hne Hok.
  assert (Hs' := @set_digit_digits s i c Hs Hc).
  unfold validateChecksum in *.
  rewrite (map_Number_digits _ Hs'), <- map_rev, luhn_loop_sum.
  rewrite (map_Number_digits _ Hs), <- map_rev, luhn_loop_sum in Hok.
  apply Nat.eqb_eq in Hok. apply Nat.eqb_neq. simpl in *.
  assert (Hsplit : s = firstn i s ++ nth i s 0%N :: skipn (S i) s).
  { clear - Hi. revert i Hi. induction s as [|x s IH]; intros i Hi; simpl in Hi.
    - lia.
    - destruct i; simpl; [reflexivity|]. f_equal. apply IH. lia. }
  assert (Hx : isDigit (nth i s 0%N) = true).
  { rewrite forallb_forall in Hs. apply Hs. now apply nth_In. }
  rewrite Hsplit in Hok at 1.
  unfold set_digit.
  rewrite !map_app, !rev_app_distr in *. cbn [map rev] in *.
  rewrite <- !app_assoc in *. cbn [app] in *.
  revert Hok. apply loop_sum_change.
  - now apply digit_value_le.
  - now apply digit_value_le.
  - intros E. apply Hne. now apply digit_value_inj.
Qed.

End LuhnFacts.

(* ================================================================== *)
(** * Card classification: masking and validateCardNumber *)
(* ================================================================== *)

Module ClassifyFacts.
Import RegExp MatcherSpec RegExpFacts ICCardValidator CardSpec CardFacts LuhnFacts.
Local Open Scope string_scope.
Local Open Scope list_scope.
Local Open Scope nat_scope.

Local Arguments test : simpl never.

Lemma concat_repeat_star n :
  List.concat (List.repeat (js "*") n) = List.repeat star_char n.
Proof. induction n as [|n IH]; simpl; [reflexivity|]. now rewrite IH. Qed.

Lemma maskCardNumber_short s :
  length s < 4 -> maskCardNumber s = Some (js "****").
Proof.
  intros H. unfold maskCardNumber.
  destruct (Nat.ltb_spec (length s) 4); [reflexivity|lia].
Qed.

Lemma maskCardNumber_throws s :
  4 <= length s -> length s < 8 -> maskCardNumber s = None.
Proof.
  intros H4 H8. unfold maskCardNumber, JsString.repeat.
  destruct (Nat.ltb_spec (length s) 4); [lia|].
  destruct (Z.ltb_spec (Z.of_nat (length s) - 8) 0); [reflexivity|lia].
Qed.

Lemma maskCardNumber_long s :
  8 <= length s ->
  maskCardNumber s
  = Some (firstn 4 s ++ List.repeat star_char (length s - 8)
            ++ skipn (length s - 4) s).
Proof.
  intros H8. unfold maskCardNumber, JsString.repeat, substring1, substring2.
  destruct (Nat.ltb_spec (length s) 4); [lia|].
  destruct (Z.ltb_spec (Z.of_nat (length s) - 8) 0); [lia|].
  rewrite concat_repeat_star.
  replace (Z.to_nat (Z.of_nat (length s) - 8)) with (length s - 8) by lia.
  replace (Z.to_nat (Z.of_nat (length s) - 4)) with (length s - 4) by lia.
  replace (Z.to_nat 0) with 0 by reflexivity.
  replace (Z.to_nat 4) with 4 by reflexivity.
  replace (Nat.min (Nat.min 0 4) (length s)) with 0 by lia.
  replace (Nat.min (Nat.max 0 4) (length s)) with 4 by lia.
  reflexivity.
Qed.

Lemma validateCardNumber_digits iv st s :
  sanitizeString iv s = s -> isValidString iv s = true ->
  forallb isDigit s = true -> 4 <= length s -> length s <= 20 ->
  fst (validateCardNumber (builtin iv st) s) = classify_digits s.
Proof.
  intros Hsan Hval Hdig H4 H20.
  unfold validateCardNumber, builtin, classify_digits.
  unfold incr_validationCount, with_stats.
  cbn [inputValidator cardPatterns stats].
  rewrite Hsan, Hval. cbn [negb].
  destruct (Nat.ltb_spec (length s) 4); [lia|].
  destruct (Nat.ltb_spec 20 (length s)); [lia|]. cbn [orb].
  rewrite test_digitsOnly, Hdig.
  destruct (Nat.leb_spec 1 (length s)); [|lia]. cbn [andb negb].
  rewrite detectCardType_builtin.
  destruct (detect_spec s) as [[type config]|].
  - destruct (checksum config); cbn [andb negb].
    + destruct (validateChecksum s type); cbn [negb]; [|reflexivity].
      destruct (maskCardNumber s); reflexivity.
    + destruct (maskCardNumber s); reflexivity.
  - destruct (maskCardNumber s); reflexivity.
Qed.

End ClassifyFacts.

(* ================================================================== *)
(** * The security scan *)
(* ================================================================== *)

Module ScanFacts.
Import RegExp RegExpFacts DataValidator ScanSpec.
Local Open Scope list_scope.
Local Open Scope nat_scope.

Lemma test_stateless p s :
  global p = false -> test p s = (matches p s, p).
Proof.
  intros H. unfold test, matches. rewrite H.
  now destruct (search (ignoreCase p) (source p) None s).
Qed.

Lemma test_rewound p s :
  (global p = true -> lastIndex p = 0) -> fst (test p s) = matches p s.
Proof.
  intros H. destruct (global p) eqn:G.
  - unfold test, matches. rewrite G, (H eq_refl). cbn [Nat.ltb Nat.leb firstn skipn].
    unfold last_of. cbn [rev].
    destruct (search (ignoreCase p) (source p) None s) as [[off len]|]; reflexivity.
  - now rewrite test_stateless.
Qed.


Lemma first_test_rewound ps s :
  rewound ps ->
  match fst (first_test ps s) with Some _ => true | None => false end
  = existsb (fun p => matches p s) ps.
Proof.
  induction 1 as [|p ps Hp Hps IH]; [reflexivity|].
  cbn [first_test existsb]. rewrite <- (test_rewound p s Hp).
  destruct (test p s) as [b p']. cbn [fst].
  destruct b; [reflexivity|].
  destruct (first_test ps s) as [hit tl']. exact IH.
Qed.

Lemma find_existsb {A} (f : A -> bool) (l : list A) :
  match find f l with Some _ => true | None => false end = existsb f l.
Proof. induction l as [|x l IH]; simpl; [reflexivity|]. now destruct (f x). Qed.

(** With every cursor at 0, the scan reports what the
    specification says. *)
Lemma performSecurityCheck_rewound v value fieldName :
  rewound (sqlInjectionPatterns v) -> rewound (osCommandPatterns v) ->
  rewound (xssPatterns v) ->
  violation (fst (performSecurityCheck v value fieldName)) = scan_spec v value.
Proof.
  intros Hsql Hos Hxss. unfold performSecurityCheck, scan_spec.
  rewrite <- (first_test_rewound _ value Hsql),
          <- (first_test_rewound _ value Hos),
          <- (first_test_rewound _ value Hxss).
  destruct (first_test (sqlInjectionPatterns v) value) as [[p|] ps1]; [reflexivity|].
  unfold with_sql, with_os. cbn [osCommandPatterns xssPatterns fst].
  destruct (first_test (osCommandPatterns v) value) as [[p|] ps2]; [reflexivity|].
  cbn [osCommandPatterns xssPatterns fst].
  destruct (first_test (xssPatterns v) value) as [[p|] ps3]; reflexivity.
Qed.

Lemma rewound_new iv hm :
  rewound (sqlInjectionPatterns (new iv hm))
  /\ rewound (osCommandPatterns (new iv hm))
  /\ rewound (xssPatterns (new iv hm)).
Proof. repeat split; repeat constructor. Qed.



End ScanFacts.


Module ScanClaims.
Import RegExp RegExpFacts DataValidator ScanSpec ScanFacts Fixtures.
Local Open Scope string_scope.
Local Open Scope list_scope.
Local Open Scope nat_scope.


(** C1, at the input where the code departs from it: on a new
    validator the string [onclick=1] matches no SQL and no OS
    command pattern and matches an XSS pattern; the first scan
    reports XSS, and the second scan of the same string reports
    that it is safe, because [test] on a pattern with the [g] flag
    resumes at the cursor that the first scan left behind. *)
Theorem second_scan_misses_xss (iv : InputValidatorApi) (hm : HashManagerApi)
        (fieldName : jsstring) :
  let s := js "onclick=1" in
  let first := performSecurityCheck (new iv hm) s fieldName in
  let second := performSecurityCheck (snd first) s fieldName in
  scan_spec (new iv hm) s = Some XSS
  /\ violation (fst first) = Some XSS
  /\ map lastIndex (xssPatterns (snd first)) = [0; 0; 0; 8; 0]
  /\ scan_spec (snd first) s = Some XSS
  /\ fst second = Safe.
Proof. vm_compute. repeat split. Qed.




(** On a new validator the scan of [onclick=1] follows the
    specification. *)
Lemma performSecurityCheck_rewound_witness :
  rewound (sqlInjectionPatterns (new iv0 hm0))
  /\ rewound (osCommandPatterns (new iv0 hm0))
  /\ rewound (xssPatterns (new iv0 hm0))
  /\ violation (fst (performSecurityCheck (new iv0 hm0) (js "onclick=1") (js "notes")))
     = Some XSS.
Proof.
  destruct (rewound_new iv0 hm0) as (Hsql & Hos & Hxss).
  repeat (split; [assumption|]).
  rewrite (performSecurityCheck_rewound (new iv0 hm0) (js "onclick=1") (js "notes")
             Hsql Hos Hxss).
  vm_compute. reflexivity.
Defined.

End ScanClaims.

(* ================================================================== *)
(** * Field validation *)
(* ================================================================== *)

Module FieldClaims.
Import RegExp RegExpFacts DataValidator ScanSpec ScanFacts FieldSpec Fixtures.
Local Open Scope string_scope.
Local Open Scope list_scope.
Local Open Scope nat_scope.

Local Arguments test : simpl never.
Local Arguments performSecurityCheck : simpl never.

Lemma performSecurityCheck_collaborators v value fieldName :
  inputValidator (snd (performSecurityCheck v value fieldName)) = inputValidator v
  /\ validationRules (snd (performSecurityCheck v value fieldName)) = validationRules v
  /\ rulesPrototype (snd (performSecurityCheck v value fieldName)) = rulesPrototype v.
Proof.
  unfold performSecurityCheck.
  destruct (first_test (sqlInjectionPatterns v) value) as [[p|] ps1]; [now repeat split|].
  destruct (first_test (osCommandPatterns (with_sql v ps1)) value) as [[p|] ps2];
    [now repeat split|].
  destruct (first_test (xssPatterns (with_os (with_sql v ps1) ps2)) value)
    as [[p|] ps3]; now repeat split.
Qed.

Lemma set_pattern_inputValidator v fieldName rule p :
  inputValidator (set_pattern v fieldName rule p) = inputValidator v.
Proof.
  unfold set_pattern. destruct (Obj.get fieldName (validationRules v)); [reflexivity|].
  now destruct (rulesPrototype v).
Qed.

(** An own property of the registry is what its name reads,
    whatever the prototype is. *)
Lemma read_rule_own v fieldName rule :
  Obj.get fieldName (validationRules v) = Some rule ->
  read_rule v fieldName = Some (RuleObject rule).
Proof. unfold read_rule. now intros ->. Qed.

Lemma validateField_own_null v fieldName value options rule :
  Obj.get fieldName (validationRules v) = Some rule ->
  value = VNull \/ value = VUndefined ->
  validateField v fieldName value options
  = if required rule && negb (allowEmpty options)
    then (REQUIRED_FIELD, incr_failed (incr_total v))
    else (Ok [] None, incr_successful (incr_total v)).
Proof.
  intros Hreg Hvalue. unfold validateField.
  rewrite (read_rule_own (incr_total v) fieldName rule Hreg).
  cbn [truthy negb rule_required]. now destruct Hvalue as [-> | ->].
Qed.

Lemma validateField_own_string v fieldName value options rule s :
  Obj.get fieldName (validationRules v) = Some rule ->
  String_ value = Some s ->
  match value with VNull | VUndefined => False | _ => True end ->
  validateField v fieldName value options
  = string_checks (incr_total v) fieldName rule s.
Proof.
  intros Hreg Hs Hnn. unfold validateField, string_checks.
  rewrite (read_rule_own (incr_total v) fieldName rule Hreg).
  cbn [truthy negb rule_required rule_pattern exceeded].
  destruct value; try contradiction; rewrite Hs;
    destruct (performSecurityCheck (incr_total v) s fieldName) as [[|k p] v1];
    try reflexivity; now destruct (maxLength rule <? length s).
Qed.

Lemma validateField_own_throws v fieldName value options rule :
  Obj.get fieldName (validationRules v) = Some rule ->
  String_ value = None ->
  validateField v fieldName value options
  = (VALIDATION_ERROR, incr_failed (incr_total v)).
Proof.
  intros Hreg Hs. unfold validateField.
  rewrite (read_rule_own (incr_total v) fieldName rule Hreg).
  cbn [truthy negb]. destruct value as [| |s|[s|e]]; try discriminate Hs.
  reflexivity.
Qed.

(** For a field with a rule of its own the checks run in the
    order null or undefined, security scan, maximum length, required
    after trim, pattern, sanitization, and the first one that fails
    decides the result, the scan being taken by its verdict: a value
    that the scan reports gives SECURITY_VIOLATION whatever its
    length; EXCESSIVE_LENGTH carries the length of the input and the
    limit of the rule. *)
Lemma validateField_order (v : DataValidator.t) (fieldName : jsstring)
        (value : Value) (options : Options) (rule : FieldRule) :
  Obj.get fieldName (validationRules v) = Some rule ->
  let result := fst (validateField v fieldName value options) in
  match value with
  | VNull | VUndefined =>
      result = if required rule && negb (allowEmpty options)
               then REQUIRED_FIELD else Ok [] None
  | _ =>
      match String_ value with
      | None => result = VALIDATION_ERROR
      | Some s =>
          let scan := fst (performSecurityCheck (incr_total v) s fieldName) in
          (forall k p, scan = Unsafe k p -> result = SECURITY_VIOLATION k)
          /\ (scan = Safe -> too_long rule s = true ->
              result = EXCESSIVE_LENGTH (length s) (maxLength rule))
          /\ (scan = Safe -> too_long rule s = false ->
              required rule && blank s = true ->
              result = REQUIRED_FIELD)
          /\ (scan = Safe -> too_long rule s = false ->
              required rule && blank s = false -> mismatch rule s = true ->
              exists p, pattern rule = Some p /\ result = INVALID_FORMAT (source p))
          /\ (scan = Safe -> too_long rule s = false ->
              required rule && blank s = false -> mismatch rule s = false ->
              result = Ok (if sanitize rule
                           then sanitizeString (inputValidator v) s else s)
                          (Some s))
      end
  end.
Proof.
  intros Hreg.
  assert (Hstr : forall s, String_ value = Some s ->
            match value with VNull | VUndefined => False | _ => True end ->
            let result := fst (validateField v fieldName value options) in
            let scan := fst (performSecurityCheck (incr_total v) s fieldName) in
            (forall k p, scan = Unsafe k p -> result = SECURITY_VIOLATION k)
            /\ (scan = Safe -> too_long rule s = true ->
                result = EXCESSIVE_LENGTH (length s) (maxLength rule))
            /\ (scan = Safe -> too_long rule s = false ->
                required rule && blank s = true ->
                result = REQUIRED_FIELD)
            /\ (scan = Safe -> too_long rule s = false ->
                required rule && blank s = false -> mismatch rule s = true ->
                exists p, pattern rule = Some p /\ result = INVALID_FORMAT (source p))
            /\ (scan = Safe -> too_long rule s = false ->
                required rule && blank s = false -> mismatch rule s = false ->
                result = Ok (if sanitize rule
                             then sanitizeString (inputValidator v) s else s)
                            (Some s))).
  { intros s Hs Hnn. cbv zeta.
    rewrite (validateField_own_string v fieldName value options rule s Hreg Hs Hnn).
    unfold string_checks.
    destruct (performSecurityCheck_collaborators (incr_total v) s fieldName)
      as [Hiv _].
    change (inputValidator (incr_total v)) with (inputValidator v) in Hiv.
    destruct (performSecurityCheck (incr_total v) s fieldName) as [scan v1].
    cbn [fst snd] in *. unfold mismatch. unfold too_long, blank.
    destruct scan as [|k p].
    - (* the scan found nothing *)
      split; [intros k p H; discriminate H|].
      destruct (maxLength rule <? length s).
      { repeat split; intros; try discriminate; reflexivity. }
      destruct (required rule && (length (trim s) =? 0)).
      { repeat split; intros; try discriminate; reflexivity. }
      split; [intros _ H; discriminate H|].
      split; [intros _ _ H; discriminate H|].
      assert (Hpos : (0 <? length (trim s)) = negb (length (trim s) =? 0)).
      { destruct (length (trim s)); reflexivity. }
      destruct (pattern rule) as [p|].
      + rewrite Hpos. destruct (length (trim s) =? 0); cbn [negb andb].
        * split; [intros _ _ _ H; discriminate H|]. intros _ _ _ _.
          unfold finish. cbn [fst rule_sanitize]. now rewrite Hiv.
        * unfold test_rule. destruct (test p s) as [b p']. cbn [fst].
          destruct b; cbn [negb].
          -- split; [intros _ _ _ H; discriminate H|]. intros _ _ _ _.
             unfold finish, set_pattern. cbn [fst rule_sanitize].
             destruct (Obj.get fieldName (validationRules v1));
               [|destruct (rulesPrototype v1)];
               cbn [with_rules with_prototype inputValidator]; now rewrite Hiv.
          -- split; [|intros _ _ _ H; discriminate H]. intros _ _ _ _.
             now exists p.
      + split; [intros _ _ _ H; discriminate H|]. intros _ _ _ _.
        unfold finish. cbn [fst rule_sanitize]. now rewrite Hiv.
    - (* the scan reported a violation *)
      split; [intros k' p' H; now inversion H|].
      repeat split; intros H; discriminate H. }
  cbv zeta. destruct value as [| |s|[s|e]].
  - rewrite (validateField_own_null v fieldName VNull options rule Hreg (or_introl eq_refl)).
    now destruct (required rule && negb (allowEmpty options)).
  - rewrite (validateField_own_null v fieldName VUndefined options rule Hreg
               (or_intror eq_refl)).
    now destruct (required rule && negb (allowEmpty options)).
  - cbn [String_]. now apply Hstr.
  - cbn [String_]. now apply Hstr.
  - cbn [String_].
    now rewrite (validateField_own_throws v fieldName (VOther (Throws e)) options rule
                   Hreg eq_refl).
Qed.

(** C2, at the input where the code departs from it: [<embed>]
    matches an XSS pattern and is longer than the 5 code units that
    the rule of lossTime allows. On a new validator the field answers
    SECURITY_VIOLATION, whatever the field; on the validator that
    this first call leaves behind the scan misses the pattern, whose
    cursor has moved, and the field lossTime answers EXCESSIVE_LENGTH
    for the same string. *)
Theorem used_validator_reports_length (iv : InputValidatorApi) (hm : HashManagerApi) :
  let s := js "<embed>" in
  let first := validateField (new iv hm) (js "notes") (VString s) no_options in
  let second := validateField (snd first) (js "lossTime") (VString s) no_options in
  scan_spec (new iv hm) s = Some XSS
  /\ fst (validateField (new iv hm) (js "lossTime") (VString s) no_options)
     = SECURITY_VIOLATION XSS
  /\ fst first = SECURITY_VIOLATION XSS
  /\ scan_spec (snd first) s = Some XSS
  /\ option_map maxLength (Obj.get (js "lossTime") (validationRules (snd first)))
     = Some 5
  /\ fst second = EXCESSIVE_LENGTH 7 5.
Proof. vm_compute. repeat split. Qed.

(** A field name that finds nothing in the registry is an unknown
    field. A name that the registry inherits from Object.prototype,
    toString for one, finds a member of the prototype, which is no
    rule and has no limit, no pattern and no sanitizer: the value is
    scanned and, when the scan reports nothing, accepted as it is. *)
Theorem validateField_unknown (v : DataValidator.t) (fieldName : jsstring)
        (value : Value) (options : Options) :
  Obj.get fieldName (validationRules v) = None -> rulesPrototype v = None ->
  let result := fst (validateField v fieldName value options) in
  (Obj.inherited fieldName = false -> result = UNKNOWN_FIELD)
  /\ (Obj.inherited fieldName = true ->
      result
      = match value with
        | VNull | VUndefined => Ok [] None
        | _ =>
            match String_ value with
            | None => VALIDATION_ERROR
            | Some s =>
                match fst (performSecurityCheck (incr_total v) s fieldName) with
                | Unsafe k _ => SECURITY_VIOLATION k
                | Safe => Ok s (Some s)
                end
            end
        end).
Proof.
  intros Hown Hproto. cbv zeta. unfold validateField, read_rule.
  change (validationRules (incr_total v)) with (validationRules v).
  change (rulesPrototype (incr_total v)) with (rulesPrototype v).
  rewrite Hown, Hproto. split; intros ->; [reflexivity|].
  cbn [truthy negb rule_required rule_pattern exceeded andb].
  destruct value as [| |s|[s|e]]; cbn [String_]; try reflexivity;
    destruct (performSecurityCheck (incr_total v) s fieldName) as [[|k p] v1];
    reflexivity.
Qed.

(** The rule of lossTime allows 5 code units; [<embed>] has 7 and
    matches an XSS pattern: on a new validator the scan decides. *)
Example validateField_order_new :
  (exists rule,
      Obj.get (js "lossTime") (validationRules (new iv0 hm0)) = Some rule
      /\ too_long rule (js "<embed>") = true)
  /\ fst (validateField (new iv0 hm0) (js "lossTime") (VString (js "<embed>"))
                        no_options)
     = SECURITY_VIOLATION XSS.
Proof.
  destruct (Obj.get (js "lossTime") (validationRules (new iv0 hm0)))
    as [rule|] eqn:Hreg; [|vm_compute in Hreg; discriminate Hreg].
  split.
  - exists rule. split; [reflexivity|].
    vm_compute in Hreg. injection Hreg as <-. vm_compute. reflexivity.
  - destruct (validateField_order (new iv0 hm0) (js "lossTime")
                (VString (js "<embed>")) no_options rule Hreg) as [Hscan _].
    eapply Hscan. vm_compute. reflexivity.
Qed.

(** On a new validator [nickname] is an unknown field, and
    [toString] is not: the name [Taro] is accepted for it. *)
Lemma validateField_unknown_witness :
  Obj.get (js "nickname") (validationRules (new iv0 hm0)) = None
  /\ Obj.get (js "toString") (validationRules (new iv0 hm0)) = None
  /\ rulesPrototype (new iv0 hm0) = None
  /\ fst (validateField (new iv0 hm0) (js "nickname") (VString (js "Taro")) no_options)
     = UNKNOWN_FIELD
  /\ fst (validateField (new iv0 hm0) (js "toString") (VString (js "Taro")) no_options)
     = Ok (js "Taro") (Some (js "Taro")).
Proof.
  split; [reflexivity|]. split; [reflexivity|]. split; [reflexivity|]. split.
  - apply (validateField_unknown (new iv0 hm0) (js "nickname")
             (VString (js "Taro")) no_options eq_refl eq_refl).
    reflexivity.
  - rewrite (proj2 (validateField_unknown (new iv0 hm0) (js "toString")
                      (VString (js "Taro")) no_options eq_refl eq_refl) eq_refl).
    vm_compute. reflexivity.
Defined.

(** ** The statistics *)

Lemma performSecurityCheck_counts v value fieldName :
  counts (snd (performSecurityCheck v value fieldName)) = counts v.
Proof.
  unfold performSecurityCheck.
  destruct (first_test (sqlInjectionPatterns v) value) as [[p|] ps1]; [reflexivity|].
  destruct (first_test (osCommandPatterns (with_sql v ps1)) value) as [[p|] ps2];
    [reflexivity|].
  destruct (first_test (xssPatterns (with_os (with_sql v ps1) ps2)) value)
    as [[p|] ps3]; reflexivity.
Qed.

Lemma set_pattern_stats v fieldName rule p :
  stats (set_pattern v fieldName rule p) = stats v.
Proof.
  unfold set_pattern.
  destruct (Obj.get fieldName (validationRules v)); [reflexivity|].
  now destruct (rulesPrototype v).
Qed.

Lemma test_rule_stats v fieldName a p s :
  stats (snd (test_rule v fieldName a p s)) = stats v.
Proof.
  unfold test_rule. destruct (test p s) as [b p']. cbn [snd].
  destruct a; try reflexivity. apply set_pattern_stats.
Qed.

(** The counters after one call of validateField. *)
Lemma validateField_step (v : DataValidator.t) (fieldName : jsstring)
      (value : Value) (options : Options) :
  let result := fst (validateField v fieldName value options) in
  counts (snd (validateField v fieldName value options))
  = (S (totalValidations (stats v)),
     (if valid result then 1 else 0) + successfulValidations (stats v),
     (if valid result then 0 else 1) + failedValidations (stats v),
     (if is_security_violation result then 1 else 0) + securityViolations (stats v)).
Proof.
  cbv zeta. unfold validateField.
  destruct (read_rule (incr_total v) fieldName) as [a|]; [|reflexivity].
  destruct (negb (truthy a)); [reflexivity|].
  assert (Hstr : forall s,
    let run :=
      let (securityCheck, v1) := performSecurityCheck (incr_total v) s fieldName in
      match securityCheck with
      | Unsafe violation _ =>
          (SECURITY_VIOLATION violation, incr_failed (incr_securityViolations v1))
      | Safe =>
          match exceeded a (length s) with
          | Some maxLength =>
              (EXCESSIVE_LENGTH (length s) maxLength,
               incr_failed (incr_excessiveLength v1))
          | None =>
              if rule_required a && (length (trim s) =? 0) then
                (REQUIRED_FIELD, incr_failed v1)
              else
                match rule_pattern a with
                | Some p =>
                    if 0 <? length (trim s) then
                      let (b, v2) := test_rule v1 fieldName a p s in
                      if negb b then
                        (INVALID_FORMAT (source p), incr_failed (incr_invalidFormat v2))
                      else finish v2 a s
                    else finish v1 a s
                | None => finish v1 a s
                end
          end
      end in
    counts (snd run)
    = (S (totalValidations (stats v)),
       (if valid (fst run) then 1 else 0) + successfulValidations (stats v),
       (if valid (fst run) then 0 else 1) + failedValidations (stats v),
       (if is_security_violation (fst run) then 1 else 0)
       + securityViolations (stats v))).
  { intros s. cbv zeta.
    pose proof (performSecurityCheck_counts (incr_total v) s fieldName) as Hc.
    destruct (performSecurityCheck (incr_total v) s fieldName) as [scan v1].
    cbn [snd] in Hc. unfold counts in Hc. cbn [incr_total with_stats stats
      totalValidations successfulValidations failedValidations securityViolations] in Hc.
    injection Hc as Ht Hs Hf Hv.
    destruct scan as [|k p0].
    - destruct (exceeded a (length s)).
      { unfold counts. cbn. now rewrite Ht, Hs, Hf, Hv. }
      destruct (rule_required a && (length (trim s) =? 0)).
      { unfold counts. cbn. now rewrite Ht, Hs, Hf, Hv. }
      destruct (rule_pattern a) as [p|].
      + destruct (0 <? length (trim s)).
        * pose proof (test_rule_stats v1 fieldName a p s) as Hst.
          destruct (test_rule v1 fieldName a p s) as [b v2]. cbn [snd] in Hst.
          destruct b; cbn [negb].
          -- unfold counts, finish. cbn. now rewrite Hst, Ht, Hs, Hf, Hv.
          -- unfold counts. cbn. now rewrite Hst, Ht, Hs, Hf, Hv.
        * unfold counts, finish. cbn. now rewrite Ht, Hs, Hf, Hv.
      + unfold counts, finish. cbn. now rewrite Ht, Hs, Hf, Hv.
    - unfold counts. cbn. now rewrite Ht, Hs, Hf, Hv. }
  destruct value as [| |s|[s|e]]; cbn [String_].
  - now destruct (rule_required a && negb (allowEmpty options)).
  - now destruct (rule_required a && negb (allowEmpty options)).
  - apply Hstr.
  - apply Hstr.
  - reflexivity.
Qed.

(** Every call of validateField adds one to totalValidations and
    one to successfulValidations or to failedValidations, as the
    result is valid or not; it adds one to securityViolations exactly
    when the result is SECURITY_VIOLATION. *)
Lemma validateField_counts (v : DataValidator.t) (fieldName : jsstring)
      (value : Value) (options : Options) :
  let result := fst (validateField v fieldName value options) in
  counts (snd (validateField v fieldName value options))
  = (S (totalValidations (stats v)),
     (if valid result then 1 else 0) + successfulValidations (stats v),
     (if valid result then 0 else 1) + failedValidations (stats v),
     (if is_security_violation result then 1 else 0) + securityViolations (stats v)).
Proof.
  cbv zeta. destruct (validateField v fieldName value options) as [result v'] eqn:E.
  pose proof (validateField_step v fieldName value options) as H.
  rewrite E in H. exact H.
Qed.

(** resetStats puts every counter back to zero. *)
Lemma resetStats_zero (v : DataValidator.t) : stats (resetStats v) = stats0.
Proof. reflexivity. Qed.

End FieldClaims.

(* ================================================================== *)
(** * Object validation *)
(* ================================================================== *)

Module ObjectClaims.
Import RegExp DataValidator ObjectSpec Fixtures.
Local Open Scope string_scope.
Local Open Scope list_scope.
Local Open Scope nat_scope.

Local Arguments validateField : simpl never.

Lemma key_eqb_eq a b : Obj.key_eqb a b = true <-> a = b.
Proof. unfold Obj.key_eqb. destruct (list_eq_dec N.eq_dec a b); split; congruence. Qed.

Lemma key_eqb_refl a : Obj.key_eqb a a = true.
Proof. now apply key_eqb_eq. Qed.

Lemma get_put {A} k k' (a : A) o :
  Obj.get k (Obj.put k' a o) = if Obj.key_eqb k k' then Some a else Obj.get k o.
Proof.
  induction o as [|[k0 a0] o IH]; simpl.
  - reflexivity.
  - destruct (Obj.key_eqb k' k0) eqn:E0; simpl.
    + destruct (Obj.key_eqb k k') eqn:E1; [reflexivity|].
      destruct (Obj.key_eqb k k0) eqn:E2; [|reflexivity].
      apply key_eqb_eq in E0, E2. subst.
      assert (Obj.key_eqb k0 k0 = true) by now apply key_eqb_eq. congruence.
    + destruct (Obj.key_eqb k k0) eqn:E2.
      * destruct (Obj.key_eqb k k') eqn:E1; [|reflexivity].
        apply key_eqb_eq in E1, E2. subst.
        assert (Obj.key_eqb k0 k0 = true) by now apply key_eqb_eq. congruence.
      * exact IH.
Qed.

(** An assignment of a string makes an own property, but for the
    name [__proto__] on an object without an own property of that
    name. *)
Lemma get_assign_string {A} k k' (a : A) o :
  Obj.get k (Obj.assign_string k' a o)
  = if Obj.key_eqb k k' && (Obj.has k' o || negb (Obj.is_proto k'))
    then Some a else Obj.get k o.
Proof.
  unfold Obj.assign_string, Obj.has.
  destruct (Obj.get k' o) as [a'|] eqn:E; cbn [orb].
  - rewrite get_put, Bool.andb_true_r. reflexivity.
  - destruct (Obj.is_proto k'); cbn [negb orb].
    + now rewrite Bool.andb_false_r.
    + now rewrite get_put, Bool.andb_true_r.
Qed.

Lemma filter_nil {A} (f : A -> bool) (l : list A) :
  filter f l = [] <-> forall x, In x l -> f x = false.
Proof.
  induction l as [|a l IH]; simpl.
  - split; [intros _ x []|reflexivity].
  - destruct (f a) eqn:E.
    + split; [intros H; discriminate H|].
      intros H. rewrite (H a (or_introl eq_refl)) in E. discriminate E.
    + rewrite IH. split.
      * intros H x [<-|Hx]; auto.
      * intros H x Hx. apply H. now right.
Qed.

(** A field is missing when [data] has it as [null] or as
    [undefined], or has it not and does not inherit it. *)
Lemma is_missing_cases data field :
  is_missing data field
  = match Obj.get field data with
    | Some VNull | Some VUndefined => true
    | Some _ => false
    | None => negb (Obj.inherited field)
    end.
Proof.
  unfold is_missing, Obj.has_property, Obj.read, Obj.has.
  destruct (Obj.get field data) as [[| |s|c]|]; cbn [orb negb]; try reflexivity.
  destruct (Obj.inherited field); reflexivity.
Qed.

Lemma check_required_spec data requiredFields results :
  check_required data requiredFields results =
  {| o_valid := o_valid results && forallb (fun f => negb (is_missing data f)) requiredFields;
     errors := errors results
               ++ map MISSING_REQUIRED_FIELD (filter (is_missing data) requiredFields);
     sanitizedData := sanitizedData results;
     fieldResults := fieldResults results;
     fieldResultsPrototype := fieldResultsPrototype results;
     dataHash := dataHash results |}.
Proof.
  revert results. induction requiredFields as [|f tl IH]; intros results.
  - simpl. rewrite Bool.andb_true_r, app_nil_r. now destruct results.
  - cbn [check_required forallb filter]. rewrite IH.
    destruct (is_missing data f); cbn [o_valid errors sanitizedData fieldResults
                                        fieldResultsPrototype dataHash negb andb map].
    + now rewrite <- app_assoc, Bool.andb_false_r.
    + reflexivity.
Qed.

Lemma validate_entries_spec v entries results :
  validate_entries v entries results =
  ({| o_valid := o_valid results && forallb passed (fst (field_runs v entries));
      errors := errors results
                ++ map field_error (filter failed (fst (field_runs v entries)));
      sanitizedData := collect (fst (field_runs v entries)) (sanitizedData results);
      fieldResults :=
        fst (record_all (fst (field_runs v entries))
                        (fieldResults results, fieldResultsPrototype results));
      fieldResultsPrototype :=
        snd (record_all (fst (field_runs v entries))
                        (fieldResults results, fieldResultsPrototype results));
      dataHash := dataHash results |},
   snd (field_runs v entries)).
Proof.
  revert v results. induction entries as [|[k x] tl IH]; intros v results.
  - simpl. rewrite Bool.andb_true_r, app_nil_r. now destruct results.
  - cbn [validate_entries field_runs].
    destruct (validateField v k x no_options) as [r v1].
    destruct (Obj.assign_object k r (fieldResults results)
                                (fieldResultsPrototype results)) as [own proto] eqn:Ea.
    rewrite IH. destruct (field_runs v1 tl) as [rs v2].
    cbn [fst snd forallb filter collect record_all]. unfold passed, failed.
    cbn [fst snd]. rewrite Ea.
    destruct (valid r); cbn [o_valid errors sanitizedData fieldResults
                              fieldResultsPrototype dataHash negb andb map].
    + reflexivity.
    + now rewrite <- app_assoc, Bool.andb_false_r.
Qed.

Lemma field_runs_keys v entries :
  map fst (fst (field_runs v entries)) = map fst entries.
Proof.
  revert v. induction entries as [|[k x] tl IH]; intros v; [reflexivity|].
  cbn [field_runs]. destruct (validateField v k x no_options) as [r v1].
  specialize (IH v1). destruct (field_runs v1 tl) as [rs v2].
  cbn [fst map] in *. now rewrite IH.
Qed.

Lemma collect_only_passed runs acc k x :
  Obj.get k (collect runs acc) = Some x ->
  Obj.get k acc = Some x
  \/ exists r, In (k, r) runs /\ valid r = true /\ x = sanitizedValue r.
Proof.
  revert acc. induction runs as [|[k0 r0] tl IH]; intros acc H.
  - now left.
  - cbn [collect] in H. apply IH in H. destruct H as [H|(r & Hin & Hv & Hx)].
    + destruct (valid r0) eqn:Hv0; [|now left].
      rewrite get_assign_string in H.
      destruct (Obj.key_eqb k k0) eqn:E; [|now left].
      destruct (Obj.has k0 acc || negb (Obj.is_proto k0)); [|now left].
      apply key_eqb_eq in E. subst k0. right. exists r0.
      injection H as <-. repeat split; [now left|exact Hv0].
    + right. exists r. repeat split; [now right|exact Hv|exact Hx].
Qed.

Lemma assign_string_keeps {A} k k' (a : A) o :
  Obj.has k o = true -> Obj.has k (Obj.assign_string k' a o) = true.
Proof.
  unfold Obj.has at 2. rewrite get_assign_string.
  destruct (Obj.key_eqb k k' && _); [reflexivity|]. intros H. exact H.
Qed.

Lemma collect_keeps runs acc k :
  Obj.has k acc = true -> Obj.has k (collect runs acc) = true.
Proof.
  revert acc. induction runs as [|[k0 r0] tl IH]; intros acc H; [exact H|].
  cbn [collect]. apply IH. destruct (valid r0); [|exact H].
  now apply assign_string_keeps.
Qed.

Lemma collect_has_passed runs acc k r :
  In (k, r) runs -> valid r = true -> Obj.is_proto k = false ->
  Obj.has k (collect runs acc) = true.
Proof.
  revert acc. induction runs as [|[k0 r0] tl IH]; intros acc Hin Hv Hk; [destruct Hin|].
  cbn [collect]. destruct Hin as [E|Hin].
  - injection E as -> ->. rewrite Hv. apply collect_keeps.
    unfold Obj.has at 1. rewrite get_assign_string, key_eqb_refl, Hk.
    cbn [negb andb]. now rewrite Bool.orb_true_r.
  - now apply IH.
Qed.

(** The name [__proto__] never becomes a property of the
    sanitized data. *)
Lemma collect_no_proto runs acc :
  Obj.has (js "__proto__") acc = false ->
  Obj.has (js "__proto__") (collect runs acc) = false.
Proof.
  revert acc. induction runs as [|[k0 r0] tl IH]; intros acc H; [exact H|].
  cbn [collect]. apply IH. destruct (valid r0); [|exact H].
  unfold Obj.has at 1. rewrite get_assign_string.
  destruct (Obj.key_eqb (js "__proto__") k0) eqn:E; cbn [andb]; [|exact H].
  apply key_eqb_eq in E. subst k0. rewrite H. unfold Obj.is_proto.
  rewrite key_eqb_refl. cbn [negb orb]. exact H.
Qed.

(** What validateObject does: it records one
    MISSING_REQUIRED_FIELD error for every entry of [requiredFields]
    that [data] has as [null] or [undefined], or has not and does not
    inherit, in the order of [requiredFields] and whatever the field
    validator says; it then runs the field validator on every key of
    [data], in order, and records one error for every run that fails;
    [sanitizedData] holds the sanitized values of the runs that pass,
    but for a key [__proto__], and nothing else; the result is valid
    exactly when nothing is reported missing and no run fails, that
    is when there is no error. *)
Lemma validateObject_spec
        (JSON_stringify : list (jsstring * jsstring) -> jsstring)
        (v : DataValidator.t) (data : list (jsstring * Value))
        (requiredFields : list jsstring) :
  let results := fst (validateObject JSON_stringify v data requiredFields) in
  let runs := fst (field_runs v data) in
  errors results
  = map MISSING_REQUIRED_FIELD (filter (is_missing data) requiredFields)
    ++ map field_error (filter failed runs)
  /\ map fst runs = map fst data
  /\ (forall k x, Obj.get k (sanitizedData results) = Some x ->
      exists r, In (k, r) runs /\ valid r = true /\ x = sanitizedValue r)
  /\ (forall k r, In (k, r) runs -> valid r = true -> Obj.is_proto k = false ->
      Obj.has k (sanitizedData results) = true)
  /\ Obj.has (js "__proto__") (sanitizedData results) = false
  /\ (o_valid results = true <->
      (forall f, In f requiredFields -> is_missing data f = false)
      /\ (forall run, In run runs -> valid (snd run) = true))
  /\ (o_valid results = true <-> errors results = [])
  /\ snd (validateObject JSON_stringify v data requiredFields)
     = snd (field_runs v data).
Proof.
  cbv zeta. unfold validateObject.
  rewrite check_required_spec, validate_entries_spec.
  cbn [fst snd o_valid errors sanitizedData fieldResults fieldResultsPrototype
       dataHash results0 app andb].
  set (runs := fst (field_runs v data)).
  assert (Hvalid :
    forallb (fun f => negb (is_missing data f)) requiredFields && forallb passed runs
    = true <->
    (forall f, In f requiredFields -> is_missing data f = false)
    /\ (forall run, In run runs -> valid (snd run) = true)).
  { rewrite Bool.andb_true_iff, !forallb_forall. unfold passed.
    split; intros [H1 H2]; (split; [|exact H2]); intros f Hf; specialize (H1 f Hf).
    - now destruct (is_missing data f).
    - now rewrite H1. }
  split; [reflexivity|]. split; [apply field_runs_keys|].
  split.
  { intros k x H. apply collect_only_passed in H.
    destruct H as [H|H]; [discriminate H|exact H]. }
  split; [intros k r; apply collect_has_passed|].
  split; [now apply collect_no_proto|].
  split; [exact Hvalid|]. split; [|reflexivity].
  rewrite Hvalid. split.
  - intros [H1 H2].
    assert (E1 : filter (is_missing data) requiredFields = [])
      by (apply filter_nil; exact H1).
    assert (E2 : filter failed runs = []).
    { apply filter_nil. intros run Hrun. unfold failed. now rewrite (H2 run Hrun). }
    now rewrite E1, E2.
  - intros H. apply app_eq_nil in H. destruct H as [E1 E2].
    apply map_eq_nil in E1, E2. split.
    + apply filter_nil. exact E1.
    + intros run Hrun. apply (proj1 (filter_nil failed runs) E2) in Hrun.
      unfold failed in Hrun. now destruct (valid (snd run)).
Qed.

(** C3, at the inputs where the code departs from it: a required
    name that [data] does not have but inherits from
    Object.prototype, toString for one, is [in] the object, so the
    first loop does not report it, whatever else the call is given;
    with nothing else to report, the object without properties is
    valid for the required field toString. *)
Theorem inherited_name_is_not_missing
        (JSON_stringify : list (jsstring * jsstring) -> jsstring)
        (v : DataValidator.t) :
  (forall data requiredFields field,
      Obj.get field data = None -> Obj.inherited field = true ->
      ~ reported (fst (validateObject JSON_stringify v data requiredFields)) field)
  /\ (let results := fst (validateObject JSON_stringify v [] [js "toString"]) in
      o_valid results = true /\ errors results = [])
  /\ (let results := fst (validateObject JSON_stringify v [] [js "employeeName"]) in
      o_valid results = false
      /\ errors results = [MISSING_REQUIRED_FIELD (js "employeeName")]).
Proof.
  split; [|split; vm_compute; now split].
  intros data requiredFields field Hown Hin. unfold reported, validateObject.
  rewrite check_required_spec, validate_entries_spec.
  cbn [fst snd o_valid errors results0 app].
  intros H. apply in_app_or in H. destruct H as [H|H].
  - apply in_map_iff in H. destruct H as (f & E & Hf). injection E as ->.
    apply filter_In in Hf. destruct Hf as [_ Hf].
    rewrite is_missing_cases, Hown, Hin in Hf. discriminate Hf.
  - apply in_map_iff in H. destruct H as (run & E & _). discriminate E.
Qed.

(** The example of the specification: [employeeName] is required
    and absent, [employeeId] is present and valid. *)
Example validateObject_spec_example :
  let data := [(js "employeeId", VString (js "EMP001"))] in
  let requiredFields := [js "employeeId"; js "employeeName"] in
  let results := fst (validateObject stringify0 (new iv0 hm0) data requiredFields) in
  o_valid results = false
  /\ errors results = [MISSING_REQUIRED_FIELD (js "employeeName")]
  /\ sanitizedData results = [(js "employeeId", js "EMP001")].
Proof.
  cbv zeta.
  destruct (validateObject_spec stringify0 (new iv0 hm0)
              [(js "employeeId", VString (js "EMP001"))]
              [js "employeeId"; js "employeeName"])
    as (Herr & _ & _ & _ & _ & _ & Hvalid & _).
  split; [|split].
  - destruct (o_valid _) eqn:E; [|reflexivity].
    pose proof (proj1 Hvalid eq_refl) as H.
    rewrite Herr in H. vm_compute in H. discriminate H.
  - rewrite Herr. vm_compute. reflexivity.
  - vm_compute. reflexivity.
Qed.

(** The same example for any collaborators. *)
Lemma validateObject_example JSON_stringify iv hm :
  let results :=
    fst (validateObject JSON_stringify (new iv hm)
           [(js "employeeId", VString (js "EMP001"))]
           [js "employeeId"; js "employeeName"]) in
  o_valid results = false
  /\ errors results = [MISSING_REQUIRED_FIELD (js "employeeName")]
  /\ map fst (sanitizedData results) = [js "employeeId"].
Proof. vm_compute. repeat split. Qed.

End ObjectClaims.

(* ================================================================== *)
(** * Card classification: the claims *)
(* ================================================================== *)

Module CardClaims.
Import RegExp ICCardValidator CardSpec CardFacts LuhnSpec LuhnFacts ClassifyFacts Fixtures.
Local Open Scope string_scope.
Local Open Scope list_scope.
Local Open Scope nat_scope.

Local Arguments test : simpl never.

Lemma reportable_not_shadowed type : reportable type -> ~ In type shadowed.
Proof.
  intros [-> | [-> | ->]] H; vm_compute in H;
    repeat (destruct H as [H|H]; [discriminate H|]); exact H.
Qed.

Lemma detect_spec_reportable s type config :
  detect_spec s = Some (type, config) -> reportable type.
Proof.
  unfold detect_spec, reportable.
  destruct (forallb isDigit s); [|discriminate].
  destruct (length s =? 16).
  { intros H. vm_compute in H. injection H as <- _. now left. }
  destruct ((10 <=? length s) && (length s <=? 12)).
  { intros H. vm_compute in H. injection H as <- _. right. now left. }
  destruct ((8 <=? length s) && (length s <=? 14)); [|discriminate].
  intros H. vm_compute in H. injection H as <- _. right. now right.
Qed.

(** C10: with the built-in table, detection reports SUICA,
    CORPORATE or STUDENT, or nothing; a string of 16 digits is
    detected as SUICA; so neither detection nor classification ever
    names one of the seven formats listed after SUICA with the same
    pattern. *)
Theorem detection_reports_three_types
        (iv : InputValidatorApi) (st : Stats) (s : jsstring) :
  (forall type config,
      fst (detectCardType (builtin iv st) s) = Some (type, config) ->
      reportable type /\ ~ In type shadowed)
  /\ (forallb isDigit s = true -> length s = 16 ->
      exists config,
        fst (detectCardType (builtin iv st) s) = Some (js "SUICA", config))
  /\ (forall type,
      cardType_of (fst (validateCardNumber (builtin iv st) s)) = Some type ->
      reportable type /\ ~ In type shadowed).
Proof.
  split; [|split].
  - intros type config. unfold builtin. rewrite detectCardType_builtin. cbn [fst].
    intros H. apply detect_spec_reportable in H.
    split; [exact H|now apply reportable_not_shadowed].
  - intros Hd Hl. unfold builtin. rewrite detectCardType_builtin. cbn [fst].
    unfold detect_spec. rewrite Hd, Hl. cbn [Nat.eqb].
    eexists. vm_compute. reflexivity.
  - intros type. unfold validateCardNumber, builtin.
    unfold incr_validationCount, with_stats.
    cbn [inputValidator cardPatterns stats].
    destruct (negb (isValidString iv (sanitizeString iv s))); [discriminate|].
    destruct ((length (sanitizeString iv s) <? 4) || (20 <? length (sanitizeString iv s)));
      [discriminate|].
    destruct (negb (fst (test digitsOnly (sanitizeString iv s)))); [discriminate|].
    rewrite detectCardType_builtin.
    destruct (detect_spec (sanitizeString iv s)) as [[type' config]|] eqn:E.
    + apply detect_spec_reportable in E.
      destruct (negb (if checksum config
                      then validateChecksum (sanitizeString iv s) type' else true)).
      * cbn [fst cardType_of]. intros H. injection H as <-.
        split; [exact E|now apply reportable_not_shadowed].
      * destruct (maskCardNumber (sanitizeString iv s)); cbn [fst cardType_of];
          [|discriminate].
        intros H. injection H as <-.
        split; [exact E|now apply reportable_not_shadowed].
    + destruct (maskCardNumber (sanitizeString iv s)); discriminate.
Qed.

(** A number of the manaca fixture of the tests is detected as
    SUICA. *)
Lemma detection_reports_three_types_witness :
  forallb isDigit (js "2000001234567890") = true
  /\ length (js "2000001234567890") = 16
  /\ exists config,
      fst (detectCardType (builtin iv0 stats0) (js "2000001234567890"))
      = Some (js "SUICA", config).
Proof.
  split; [reflexivity|]. split; [reflexivity|].
  apply (detection_reports_three_types iv0 stats0 (js "2000001234567890"));
    reflexivity.
Defined.

(** C4: on strings of digits validateChecksum is the Luhn check
    of the specification; and when a string of 16 digits passes it,
    the string with one digit changed is classified as
    INVALID_CHECKSUM (the input validator being one that accepts
    the changed string and leaves it as it is). *)
Theorem luhn_detects_single_digit_change :
  (forall s cardType,
      forallb isDigit s = true ->
      validateChecksum s cardType = luhn_valid (map digit_value s))
  /\ (forall iv st s cardType i c,
      length s = 16 -> forallb isDigit s = true ->
      validateChecksum s cardType = true ->
      i < 16 -> isDigit c = true -> nth i s 0%N <> c ->
      sanitizeString iv (set_digit s i c) = set_digit s i c ->
      isValidString iv (set_digit s i c) = true ->
      fst (validateCardNumber (builtin iv st) (set_digit s i c))
      = INVALID_CHECKSUM (js "SUICA")).
Proof.
  split; [exact validateChecksum_luhn|].
  intros iv st s cardType i c Hlen Hdig Hok Hi Hc Hne Hsan Hval.
  unfold jsstring, char in *.
  assert (Hlen' : length (set_digit s i c) = 16)
    by (rewrite set_digit_length; unfold jsstring, char in *; lia).
  assert (Hdig' := set_digit_digits s i c Hdig Hc).
  rewrite validateCardNumber_digits by (try assumption; lia).
  unfold classify_digits, detect_spec. rewrite Hdig', Hlen'. cbn [Nat.eqb].
  change (entry "SUICA") with
    (Some (js "SUICA",
           sixteen "Suica/PASMO系ICカード" "JR東日本・関東私鉄"
                   ["関東"; "東海"; "仙台"; "新潟"])).
  cbn [checksum sixteen andb].
  rewrite (validateChecksum_single_change s i c cardType (js "SUICA"))
    by (try assumption; lia).
  reflexivity.
Qed.

(** [4532015112830366] passes the check; with its first digit
    changed to 5 it is classified as INVALID_CHECKSUM. *)
Lemma luhn_detects_single_digit_change_witness :
  validateChecksum (js "4532015112830366") (js "SUICA") = true
  /\ fst (validateCardNumber (builtin iv0 stats0) (js "5532015112830366"))
     = INVALID_CHECKSUM (js "SUICA").
Proof.
  split; [reflexivity|].
  change (js "5532015112830366") with (set_digit (js "4532015112830366") 0 53%N).
  apply (proj2 luhn_detects_single_digit_change iv0 stats0
               (js "4532015112830366") (js "SUICA") 0 53%N);
    try reflexivity; try lia.
  intros H. discriminate H.
Defined.

(** C5, where the code departs from it: a string of 4 to 7 digits
    matches no format, and validateCardNumber answers
    VALIDATION_ERROR, not UNKNOWN_CARD_TYPE, because maskCardNumber
    throws on it. *)
Theorem short_unknown_number_is_validation_error
        (iv : InputValidatorApi) (st : Stats) (s : jsstring) :
  sanitizeString iv s = s -> isValidString iv s = true ->
  forallb isDigit s = true -> 4 <= length s -> length s <= 7 ->
  detect_spec s = None
  /\ fst (validateCardNumber (builtin iv st) s) = VALIDATION_ERROR.
Proof.
  intros Hsan Hval Hdig H4 H7.
  assert (Hnone : detect_spec s = None).
  { unfold detect_spec. rewrite Hdig.
    destruct (Nat.eqb_spec (length s) 16); [lia|].
    destruct (Nat.leb_spec 10 (length s)); [lia|]. cbn [andb].
    destruct (Nat.leb_spec 8 (length s)); [lia|]. reflexivity. }
  split; [exact Hnone|].
  rewrite validateCardNumber_digits by (try assumption; lia).
  unfold classify_digits. rewrite Hnone.
  now rewrite maskCardNumber_throws by lia.
Qed.

Lemma short_unknown_number_is_validation_error_witness :
  sanitizeString iv0 (js "12345") = js "12345"
  /\ isValidString iv0 (js "12345") = true
  /\ fst (validateCardNumber (builtin iv0 stats0) (js "12345")) = VALIDATION_ERROR.
Proof.
  split; [reflexivity|]. split; [reflexivity|].
  apply (short_unknown_number_is_validation_error iv0 stats0 (js "12345"));
    try reflexivity; simpl; lia.
Defined.

(** The part of C5 that holds: a string of 15 or of 17 to 20
    digits is an unknown card type, reported with its mask. *)
Lemma long_unknown_number_is_unknown_card_type iv st s :
  sanitizeString iv s = s -> isValidString iv s = true ->
  forallb isDigit s = true ->
  length s = 15 \/ (17 <= length s /\ length s <= 20) ->
  fst (validateCardNumber (builtin iv st) s)
  = UNKNOWN_CARD_TYPE (firstn 4 s ++ List.repeat star_char (length s - 8)
                         ++ skipn (length s - 4) s).
Proof.
  intros Hsan Hval Hdig Hlen.
  rewrite validateCardNumber_digits by (try assumption; lia).
  unfold classify_digits, detect_spec. rewrite Hdig.
  destruct (Nat.eqb_spec (length s) 16); [lia|].
  destruct (Nat.leb_spec 10 (length s)); destruct (Nat.leb_spec (length s) 12);
    try lia; cbn [andb];
    destruct (Nat.leb_spec 8 (length s)); destruct (Nat.leb_spec (length s) 14);
    try lia; cbn [andb];
    now rewrite maskCardNumber_long by lia.
Qed.

(** C6, with the case where the code departs from it: the example
    of the specification; 8 code units or more; fewer than 4; and
    4 to 7, where [repeat] gets a negative count and throws. *)
Theorem maskCardNumber_cases :
  maskCardNumber (js "1234567890123456") = Some (js "1234********3456")
  /\ (forall s, 8 <= length s ->
      maskCardNumber s
      = Some (firstn 4 s ++ List.repeat star_char (length s - 8)
                ++ skipn (length s - 4) s))
  /\ (forall s, length s < 4 -> maskCardNumber s = Some (js "****"))
  /\ (forall s, 4 <= length s -> length s < 8 -> maskCardNumber s = None)
  /\ maskCardNumber (js "12345") = None.
Proof.
  split; [reflexivity|]. split; [exact maskCardNumber_long|].
  split; [exact maskCardNumber_short|]. split; [exact maskCardNumber_throws|].
  reflexivity.
Qed.

Lemma maskCardNumber_cases_witness :
  4 <= length (js "1234567") /\ length (js "1234567") < 8
  /\ maskCardNumber (js "1234567") = None.
Proof.
  split; [simpl; lia|]. split; [simpl; lia|].
  apply maskCardNumber_cases; simpl; lia.
Defined.

(** C9, as the code has it: the number of the scenario is detected
    as SUICA, fails the Luhn check, and is classified as
    INVALID_CHECKSUM, a result that names the card type and carries
    no masked number. *)
Theorem scenario_number_fails_checksum (iv : InputValidatorApi) (st : Stats) :
  sanitizeString iv (js "1234567890123456") = js "1234567890123456" ->
  isValidString iv (js "1234567890123456") = true ->
  validateChecksum (js "1234567890123456") (js "SUICA") = false
  /\ fst (validateCardNumber (builtin iv st) (js "1234567890123456"))
     = INVALID_CHECKSUM (js "SUICA").
Proof.
  intros Hsan Hval. split; [reflexivity|].
  rewrite validateCardNumber_digits; try assumption; try reflexivity.
  - simpl; lia.
  - simpl; lia.
Qed.

Lemma scenario_number_fails_checksum_witness :
  sanitizeString iv0 (js "1234567890123456") = js "1234567890123456"
  /\ isValidString iv0 (js "1234567890123456") = true
  /\ fst (validateCardNumber (builtin iv0 stats0) (js "1234567890123456"))
     = INVALID_CHECKSUM (js "SUICA").
Proof.
  split; [reflexivity|]. split; [reflexivity|].
  apply (scenario_number_fails_checksum iv0 stats0); reflexivity.
Defined.

Lemma long_unknown_number_is_unknown_card_type_witness :
  sanitizeString iv0 (js "123456789012345") = js "123456789012345"
  /\ isValidString iv0 (js "123456789012345") = true
  /\ fst (validateCardNumber (builtin iv0 stats0) (js "123456789012345"))
     = UNKNOWN_CARD_TYPE (js "1234*******2345").
Proof.
  split; [reflexivity|]. split; [reflexivity|].
  rewrite (long_unknown_number_is_unknown_card_type iv0 stats0 (js "123456789012345"));
    try reflexivity.
  left. reflexivity.
Defined.

End CardClaims.

(* ================================================================== *)
(** * The sanitizer *)
(* ================================================================== *)

Module SanitizeClaims.
Import RegExp MatcherSpec RegExpFacts InputValidator SanitizeSpec.
Local Open Scope string_scope.
Local Open Scope list_scope.
Local Open Scope nat_scope.

(** ** Removal only deletes *)

Lemma deleting_compose f g : deleting f -> deleting g -> deleting (fun s => g (f s)).
Proof.
  intros Hf Hg s. destruct (Hf s) as [Hf1 Hf2]. destruct (Hg (f s)) as [Hg1 Hg2].
  split; [lia|]. intros E.
  assert (Ef : f s = s) by (apply Hf2; lia).
  rewrite Ef in *. now apply Hg2.
Qed.

Lemma remove_from_deleting ic r p s skip :
  length (remove_from ic r p s skip) <= length s
  /\ (length (remove_from ic r p s skip) = length s ->
      remove_from ic r p s skip = s).
Proof.
  revert p skip. induction s as [|c tl IH]; intros p skip.
  - simpl. now split.
  - cbn [remove_from]. destruct skip as [|n].
    + destruct (match_at ic r p (c :: tl)) as [[|n]|].
      * destruct (IH (Some c) 0) as [H1 H2]. cbn [length]. split; [lia|].
        intros E. f_equal. apply H2. lia.
      * destruct (IH (Some c) n) as [H1 H2]. cbn [length]. split; lia.
      * destruct (IH (Some c) 0) as [H1 H2]. cbn [length]. split; [lia|].
        intros E. f_equal. apply H2. lia.
    + destruct (IH (Some c) n) as [H1 H2]. cbn [length]. split; lia.
Qed.

Lemma replace_all_deleting ic r : deleting (replace_all ic r).
Proof. intros s. apply remove_from_deleting. Qed.

Lemma remove_from_Forall (P : N -> Prop) ic r p s skip :
  Forall P s -> Forall P (remove_from ic r p s skip).
Proof.
  intros H. revert p skip. induction H as [|c tl Hc Htl IH]; intros p skip.
  - constructor.
  - cbn [remove_from]. destruct skip as [|n]; [|apply IH].
    destruct (match_at ic r p (c :: tl)) as [[|n]|];
      [constructor; [exact Hc|apply IH] | apply IH | constructor; [exact Hc|apply IH]].
Qed.

Lemma trimStart_deleting : deleting trimStart.
Proof.
  intros s. induction s as [|c tl [IH1 IH2]]; simpl; [now split|].
  destruct (isWhiteSpace c); simpl; split; lia || reflexivity.
Qed.

Lemma trimStart_Forall (P : N -> Prop) s : Forall P s -> Forall P (trimStart s).
Proof.
  induction 1 as [|c tl Hc Htl IH]; simpl; [constructor|].
  destruct (isWhiteSpace c); [exact IH|now constructor].
Qed.

Lemma trimEnd_deleting : deleting trimEnd.
Proof.
  intros s. unfold trimEnd. destruct (trimStart_deleting (rev s)) as [H1 H2].
  rewrite length_rev in H1, H2. rewrite length_rev. split; [exact H1|].
  intros E. rewrite (H2 E). apply rev_involutive.
Qed.

Lemma trim_deleting : deleting trim.
Proof. exact (deleting_compose _ _ trimStart_deleting trimEnd_deleting). Qed.

Lemma trim_Forall (P : N -> Prop) s : Forall P s -> Forall P (trim s).
Proof.
  intros H. unfold trim, trimEnd.
  apply Forall_rev, trimStart_Forall, Forall_rev, trimStart_Forall, H.
Qed.

(** ** [trim] is idempotent *)

Lemma trimStart_clean s : starts_clean (trimStart s).
Proof.
  induction s as [|c tl IH]; simpl; [exact I|].
  destruct (isWhiteSpace c) eqn:E; [exact IH|exact E].
Qed.

Lemma trimStart_of_clean s : starts_clean s -> trimStart s = s.
Proof. destruct s as [|c tl]; simpl; [reflexivity|]. now intros ->. Qed.

Lemma trimStart_snoc l c :
  isWhiteSpace c = false -> trimStart (l ++ [c]) = trimStart l ++ [c].
Proof.
  intros Hc. induction l as [|x l IH]; simpl.
  - now rewrite Hc.
  - destruct (isWhiteSpace x); [exact IH|reflexivity].
Qed.

Lemma trimEnd_clean s : starts_clean s -> starts_clean (trimEnd s).
Proof.
  destruct s as [|c tl]; intros H; [exact I|]. simpl in H.
  unfold trimEnd. cbn [rev]. rewrite trimStart_snoc by exact H.
  rewrite rev_app_distr. exact H.
Qed.

Lemma trimEnd_idempotent s : trimEnd (trimEnd s) = trimEnd s.
Proof.
  unfold trimEnd. rewrite rev_involutive.
  now rewrite (trimStart_of_clean _ (trimStart_clean (rev s))).
Qed.

Lemma trim_idempotent s : trim (trim s) = trim s.
Proof.
  unfold trim at 1.
  rewrite (trimStart_of_clean (trim s)).
  - unfold trim. apply trimEnd_idempotent.
  - unfold trim. apply trimEnd_clean, trimStart_clean.
Qed.

(** ** The first pass removes the control characters *)

Lemma controlChars_match c :
  atom_match false (Class false [CRange 0 31; CChar 127]) c = isControl c.
Proof.
  unfold atom_match, item_match, isControl.
  cbn [existsb xorb item_raw andb]. now rewrite !Bool.orb_false_r.
Qed.

Lemma strip_control p s :
  remove_from false controlChars p s 0 = filter (fun c => negb (isControl c)) s.
Proof.
  revert p. induction s as [|c tl IH]; intros p; [reflexivity|].
  cbn [remove_from filter]. unfold match_at, controlChars, set.
  cbn [m rest]. rewrite controlChars_match.
  destruct (isControl c); cbn [negb].
  - cbn [advance rest length].
    replace (S (length tl) - length tl) with 1 by lia. apply IH.
  - f_equal. apply IH.
Qed.

Lemma filter_all {A} (f : A -> bool) l :
  Forall (fun x => f x = true) l -> filter f l = l.
Proof. induction 1 as [|x l Hx Hl IH]; simpl; [reflexivity|]. now rewrite Hx, IH. Qed.

Lemma filter_Forall {A} (f : A -> bool) l : Forall (fun x => f x = true) (filter f l).
Proof.
  induction l as [|x l IH]; simpl; [constructor|].
  destruct (f x) eqn:E; [now constructor|exact IH].
Qed.

(** ** The shape of [sanitizeInput] *)

Lemma sanitizeInput_shape s : sanitizeInput s = trim (remove_all (strip s)).
Proof. reflexivity. Qed.

Lemma passes_deleting (ps : list (bool * regex)) :
  deleting (fun s => fold_left (fun acc p => replace_all (fst p) (snd p) acc) ps s).
Proof.
  induction ps as [|p ps IH]; cbn [fold_left].
  - intros s. now split.
  - exact (deleting_compose (replace_all (fst p) (snd p)) _
             (replace_all_deleting (fst p) (snd p)) IH).
Qed.

Lemma remove_all_deleting : deleting remove_all.
Proof. exact (passes_deleting removals). Qed.

Lemma passes_Forall (P : N -> Prop) (ps : list (bool * regex)) s :
  Forall P s ->
  Forall P (fold_left (fun acc p => replace_all (fst p) (snd p) acc) ps s).
Proof.
  revert s. induction ps as [|p ps IH]; intros s H; cbn [fold_left]; [exact H|].
  apply IH. now apply remove_from_Forall.
Qed.

Lemma remove_all_Forall (P : N -> Prop) s : Forall P s -> Forall P (remove_all s).
Proof. apply passes_Forall. Qed.

Lemma sanitizeInput_no_control s :
  Forall (fun c => negb (isControl c) = true) (sanitizeInput s).
Proof.
  rewrite sanitizeInput_shape. apply trim_Forall, remove_all_Forall.
  unfold strip, replace_all. rewrite strip_control. apply filter_Forall.
Qed.

Lemma strip_sanitized s : strip (sanitizeInput s) = sanitizeInput s.
Proof.
  unfold strip, replace_all. rewrite strip_control.
  apply filter_all, sanitizeInput_no_control.
Qed.

(** ** Inputs in which the passes find nothing *)

Ltac find_dead :=
  match goal with
  | |- _ \/ _ => (left; find_dead) || (right; find_dead)
  | |- forall c, _ -> atom_match _ (Lit _) c = false =>
      let c := fresh "c" in
      let H1 := fresh in let H2 := fresh in let H3 := fresh in
      intros c (H1 & H2 & H3); apply lit_refuses; [reflexivity|reflexivity|assumption]
  end.

Lemma removals_dead : Forall (fun p => dead (fst p) plain (snd p)) removals.
Proof.
  unfold removals.
  repeat (constructor; [cbv -[atom_match plain]; find_dead|]).
  constructor.
Qed.

Lemma passes_dead (ps : list (bool * regex)) s :
  Forall (fun p => dead (fst p) plain (snd p)) ps -> Forall plain s ->
  fold_left (fun acc p => replace_all (fst p) (snd p) acc) ps s = s.
Proof.
  intros Hps. revert s. induction Hps as [|p ps Hp Hps IH]; intros s Hs; [reflexivity|].
  cbn [fold_left]. unfold replace_all at 2.
  rewrite (remove_from_dead (fst p) plain (snd p) Hp s None Hs). now apply IH.
Qed.

Lemma remove_all_plain s : Forall plain s -> remove_all s = s.
Proof. apply passes_dead, removals_dead. Qed.

Lemma sanitizeInput_Forall (P : N -> Prop) s :
  Forall P s -> Forall P (sanitizeInput s).
Proof.
  intros H. rewrite sanitizeInput_shape.
  apply trim_Forall, remove_all_Forall. unfold strip, replace_all.
  now apply remove_from_Forall.
Qed.

(** Sanitizing twice gives the same as sanitizing once when the
    removal passes leave the sanitized value as it is. *)
Lemma sanitizeInput_twice s :
  remove_all (sanitizeInput s) = sanitizeInput s ->
  sanitizeInput (sanitizeInput s) = sanitizeInput s.
Proof.
  intros E. rewrite (sanitizeInput_shape (sanitizeInput s)), strip_sanitized, E.
  rewrite sanitizeInput_shape. apply trim_idempotent.
Qed.

(** On an input without [<], [:] and [=] the sanitizer is
    idempotent. *)
Lemma sanitizeInput_idempotent_plain (s : jsstring) :
  Forall plain s -> sanitizeInput (sanitizeInput s) = sanitizeInput s.
Proof.
  intros H. apply sanitizeInput_twice, remove_all_plain.
  now apply sanitizeInput_Forall.
Qed.

Lemma sanitizeInput_idempotent_plain_witness :
  Forall plain (js " Tanaka Taro ")
  /\ sanitizeInput (sanitizeInput (js " Tanaka Taro ")) = sanitizeInput (js " Tanaka Taro ").
Proof.
  assert (H : Forall plain (js " Tanaka Taro ")).
  { repeat constructor; intros E; discriminate E. }
  split; [exact H|]. exact (sanitizeInput_idempotent_plain _ H).
Defined.

Lemma trim_clean s : Forall (fun c => isWhiteSpace c = false) s -> trim s = s.
Proof.
  intros H. unfold trim, trimEnd.
  assert (Hs : trimStart s = s).
  { apply trimStart_of_clean. destruct H; [exact I|assumption]. }
  rewrite Hs.
  assert (Hr : trimStart (rev s) = rev s).
  { apply trimStart_of_clean. apply Forall_rev in H.
    destruct H; [exact I|assumption]. }
  unfold jsstring, char in *. rewrite Hr. apply rev_involutive.
Qed.

Lemma digit_facts c :
  isDigit c = true ->
  negb (isControl c) = true /\ plain c /\ isWhiteSpace c = false.
Proof.
  unfold isDigit, isControl, plain, isWhiteSpace, in_range.
  rewrite Bool.andb_true_iff, !N.leb_le. intros [H1 H2].
  split; [|split; [repeat split; lia|]].
  - apply Bool.negb_true_iff, Bool.orb_false_iff. split.
    + apply Bool.andb_false_iff. right. apply N.leb_gt. lia.
    + apply N.eqb_neq. lia.
  - repeat (apply Bool.orb_false_iff; split);
      try (apply N.eqb_neq; lia);
      apply Bool.andb_false_iff;
      ((right; apply N.leb_gt; lia) || (left; apply N.leb_gt; lia)).
Qed.

(** The sanitizer leaves a string of digits as it is. *)
Lemma sanitizeInput_digits (s : jsstring) :
  forallb isDigit s = true -> sanitizeInput s = s.
Proof.
  intros H. rewrite forallb_forall in H.
  assert (H1 : Forall (fun c => negb (isControl c) = true) s)
    by (apply Forall_forall; intros c Hc; now apply digit_facts, H).
  assert (H2 : Forall plain s)
    by (apply Forall_forall; intros c Hc; now apply digit_facts, H).
  assert (H3 : Forall (fun c => isWhiteSpace c = false) s)
    by (apply Forall_forall; intros c Hc; now apply digit_facts, H).
  rewrite sanitizeInput_shape. unfold strip, replace_all.
  rewrite strip_control, (filter_all _ _ H1), (remove_all_plain s H2).
  now apply trim_clean.
Qed.

Lemma sanitizeInput_digits_witness :
  forallb isDigit (js "1234567890123456") = true
  /\ sanitizeInput (js "1234567890123456") = js "1234567890123456".
Proof.
  split; [reflexivity|]. now apply sanitizeInput_digits.
Defined.

(** C8, at an input where the code departs from it: the pass
    that removes [javascript:] runs once, from left to right, and
    its removal puts the halves of another [javascript:] together,
    so sanitizeInput returns the very scheme that it removes; the
    result is not clean for the demonstration script, and a second
    run, which returns the empty string, changes it. *)
Theorem sanitizeInput_returns_scheme :
  let s := js "javajavascript:script:" in
  sanitizeInput s = js "javascript:"
  /\ isClean (sanitizeInput s) = false
  /\ sanitizeInput (sanitizeInput s) = []
  /\ sanitizeInput (sanitizeInput s) <> sanitizeInput s.
Proof.
  cbv zeta.
  assert (E1 : sanitizeInput (js "javajavascript:script:") = js "javascript:")
    by (vm_compute; reflexivity).
  assert (E2 : sanitizeInput (js "javascript:") = []) by (vm_compute; reflexivity).
  rewrite E1, E2. split; [reflexivity|]. split; [vm_compute; reflexivity|].
  split; [reflexivity|discriminate].
Qed.

End SanitizeClaims.

(* ================================================================== *)
(** * Patterns that cannot match *)
(* ================================================================== *)

Module DeadFacts.
Import RegExp MatcherSpec RegExpFacts DataValidator CursorSpec.
Local Open Scope list_scope.
Local Open Scope nat_scope.

Lemma Forall_skipn {A} (P : A -> Prop) n l : Forall P l -> Forall P (skipn n l).
Proof.
  intros H. revert n. induction H as [|x l Hx Hl IH]; intros [|n]; simpl;
    try constructor; auto.
Qed.

(** A dead pattern is found nowhere in such an input. *)
Lemma search_dead ic P r :
  dead ic P r -> forall s p, Forall P s -> search ic r p s = None.
Proof.
  intros Hd s. induction s as [|c tl IH]; intros p HP.
  - unfold search, match_at. now rewrite (m_dead ic P r Hd).
  - unfold search; fold search. unfold match_at.
    rewrite (m_dead ic P r Hd {| prev := p; rest := c :: tl; caps := [] |} HP).
    rewrite IH; [reflexivity|]. now inversion HP.
Qed.

(** [test] answers false for it, wherever the cursor is. *)
Lemma test_dead P (re : RegExp.t) s :
  dead (ignoreCase re) P (source re) -> Forall P s -> fst (test re s) = false.
Proof.
  intros Hd HP. unfold test. destruct (global re).
  - destruct (_ <? _); [reflexivity|].
    rewrite (search_dead _ P _ Hd); [reflexivity|]. now apply Forall_skipn.
  - now rewrite (search_dead _ P _ Hd).
Qed.

Lemma first_test_dead P ps s :
  Forall (fun re => dead (ignoreCase re) P (source re)) ps -> Forall P s ->
  fst (first_test ps s) = None.
Proof.
  intros Hps HP. induction Hps as [|re ps Hre Hps IH]; [reflexivity|].
  cbn [first_test]. pose proof (test_dead P re s Hre HP) as E.
  destruct (test re s) as [b re']. cbn [fst] in E. subst b.
  destruct (first_test ps s) as [hit tl']. exact IH.
Qed.


Lemma same_pattern_refl p : same_pattern p p.
Proof. now repeat split. Qed.

Lemma up_to_cursors_refl ps : up_to_cursors ps ps.
Proof. induction ps; constructor; auto using same_pattern_refl. Qed.

Lemma dead_up_to_cursors P ps qs :
  up_to_cursors ps qs -> Forall (dead_for P) qs -> Forall (dead_for P) ps.
Proof.
  induction 1 as [|p q ps qs (Hs & Hi & _) _ IH]; intros H; [constructor|].
  inversion H as [|? ? Hq Hqs]; subst. constructor; [|now apply IH].
  unfold dead_for in *. now rewrite Hs, Hi.
Qed.

Lemma test_same_pattern p s : same_pattern (snd (test p s)) p.
Proof.
  unfold test. destruct (global p) eqn:G.
  - destruct (_ <? _); [now repeat split|].
    destruct (search _ _ _ _) as [[off len]|]; now repeat split.
  - destruct (search _ _ _ _); now repeat split.
Qed.

Lemma first_test_up_to_cursors ps s : up_to_cursors (snd (first_test ps s)) ps.
Proof.
  induction ps as [|p ps IH]; [constructor|].
  cbn [first_test]. pose proof (test_same_pattern p s) as Hp.
  destruct (test p s) as [b p']. cbn [snd] in Hp.
  destruct b.
  - constructor; [exact Hp|apply up_to_cursors_refl].
  - destruct (first_test ps s) as [hit tl']. constructor; [exact Hp|exact IH].
Qed.

Lemma up_to_cursors_trans ps qs rs :
  up_to_cursors ps qs -> up_to_cursors qs rs -> up_to_cursors ps rs.
Proof.
  intros H. revert rs. induction H as [|p q ps qs (H1 & H2 & H3) _ IH]; intros rs Hr.
  - inversion Hr. constructor.
  - inversion Hr as [|? r ? rs' (H4 & H5 & H6) Hrs]; subst.
    constructor; [|now apply IH]. repeat split; congruence.
Qed.

(** ** Code units that the scan patterns refuse *)

Lemma lit_refuses_set ic (Q : N -> bool) a c :
  (forall x, Q x = true -> in_range 97 122 x = false) ->
  Q (canon ic a) = false -> Q c = true -> atom_match ic (Lit a) c = false.
Proof.
  intros Hlow Ha Hc. unfold atom_match. apply N.eqb_neq. intros E.
  assert (Ec : canon ic c = c).
  { unfold canon, toUpperAscii. destruct ic; [|reflexivity].
    now rewrite (Hlow c Hc). }
  rewrite Ec in E. rewrite E in Ha. congruence.
Qed.

Lemma digit_not_lower x : isDigit x = true -> in_range 97 122 x = false.
Proof.
  unfold isDigit, in_range. rewrite Bool.andb_true_iff, !N.leb_le. intros [H1 H2].
  apply Bool.andb_false_iff. left. apply N.leb_gt. lia.
Qed.

Lemma space_not_lower x : isWhiteSpace x = true -> in_range 97 122 x = false.
Proof.
  unfold isWhiteSpace, in_range.
  rewrite !Bool.orb_true_iff, !Bool.andb_true_iff, !N.leb_le, !N.eqb_eq.
  intros H. apply Bool.andb_false_iff.
  destruct (N.leb_spec 97 x); [right; apply N.leb_gt|now left]. lia.
Qed.

Ltac find_dead_with leaf :=
  lazymatch goal with
  | |- _ /\ _ => split; find_dead_with leaf
  | |- _ \/ _ => first [left; find_dead_with leaf | right; find_dead_with leaf]
  | |- forall c, _ -> atom_match _ (Lit _) c = false => leaf
  end.

Ltac digit_leaf :=
  let c := fresh "c" in let H := fresh "H" in
  intros c H; apply (lit_refuses_set _ isDigit);
  [exact digit_not_lower | reflexivity | exact H].

Ltac blank_leaf :=
  let c := fresh "c" in let H := fresh "H" in
  intros c H; apply (lit_refuses_set _ isWhiteSpace);
  [exact space_not_lower | reflexivity | exact H].

Ltac all_dead leaf :=
  repeat (constructor; [cbv -[atom_match digit blank_char]; find_dead_with leaf|]);
  constructor.

Lemma scan_patterns_refuse_digits :
  Forall (dead_for digit) sqlInjectionPatterns0
  /\ Forall (dead_for digit) osCommandPatterns0
  /\ Forall (dead_for digit) xssPatterns0.
Proof. repeat split; all_dead digit_leaf. Qed.

Lemma scan_patterns_refuse_blanks :
  Forall (dead_for blank_char) sqlInjectionPatterns0
  /\ Forall (dead_for blank_char) osCommandPatterns0
  /\ Forall (dead_for blank_char) xssPatterns0.
Proof. repeat split; all_dead blank_leaf. Qed.

End DeadFacts.

Module ScanStateFacts.
Import RegExp MatcherSpec RegExpFacts DataValidator ScanSpec ScanFacts FieldSpec CursorSpec DeadFacts.
Local Open Scope string_scope.
Local Open Scope list_scope.
Local Open Scope nat_scope.

Local Arguments test : simpl never.
Local Arguments performSecurityCheck : simpl never.

(** A scan moves cursors and counters and nothing else. *)
Lemma performSecurityCheck_builtin v value fieldName :
  builtin_scan v -> builtin_scan (snd (performSecurityCheck v value fieldName)).
Proof.
  intros (Hsql & Hos & Hxss). unfold performSecurityCheck.
  pose proof (first_test_up_to_cursors (sqlInjectionPatterns v) value) as H1.
  destruct (first_test (sqlInjectionPatterns v) value) as [[p|] ps1]; cbn [snd] in *.
  { repeat split; cbn; eauto using up_to_cursors_trans. }
  unfold with_sql, with_os. cbn [osCommandPatterns xssPatterns].
  pose proof (first_test_up_to_cursors (osCommandPatterns v) value) as H2.
  destruct (first_test (osCommandPatterns v) value) as [[p|] ps2]; cbn [snd] in *.
  { repeat split; cbn; eauto using up_to_cursors_trans. }
  cbn [osCommandPatterns xssPatterns].
  pose proof (first_test_up_to_cursors (xssPatterns v) value) as H3.
  destruct (first_test (xssPatterns v) value) as [[p|] ps3]; cbn [snd] in *;
    repeat split; cbn; eauto using up_to_cursors_trans.
Qed.

(** No pattern of the scan can match in an input made of code
    units that all of them refuse: the scan answers safe, wherever
    the cursors are. *)
Lemma performSecurityCheck_dead P v value fieldName :
  Forall (dead_for P) (sqlInjectionPatterns v) ->
  Forall (dead_for P) (osCommandPatterns v) ->
  Forall (dead_for P) (xssPatterns v) ->
  Forall P value ->
  fst (performSecurityCheck v value fieldName) = Safe.
Proof.
  intros Hsql Hos Hxss HP. unfold performSecurityCheck.
  pose proof (first_test_dead P _ value Hsql HP) as E1.
  destruct (first_test (sqlInjectionPatterns v) value) as [hit1 ps1].
  cbn [fst] in E1. subst hit1. unfold with_sql, with_os.
  cbn [osCommandPatterns xssPatterns].
  pose proof (first_test_dead P _ value Hos HP) as E2.
  destruct (first_test (osCommandPatterns v) value) as [hit2 ps2].
  cbn [fst] in E2. subst hit2. cbn [osCommandPatterns xssPatterns].
  pose proof (first_test_dead P _ value Hxss HP) as E3.
  destruct (first_test (xssPatterns v) value) as [hit3 ps3].
  cbn [fst] in E3. subst hit3. reflexivity.
Qed.

Lemma scan_digits v value fieldName :
  builtin_scan v -> Forall digit value ->
  fst (performSecurityCheck v value fieldName) = Safe.
Proof.
  intros (Hsql & Hos & Hxss) HP.
  destruct scan_patterns_refuse_digits as (D1 & D2 & D3).
  apply (performSecurityCheck_dead digit); eauto using dead_up_to_cursors.
Qed.

Lemma scan_blanks v value fieldName :
  builtin_scan v -> Forall blank_char value ->
  fst (performSecurityCheck v value fieldName) = Safe.
Proof.
  intros (Hsql & Hos & Hxss) HP.
  destruct scan_patterns_refuse_blanks as (D1 & D2 & D3).
  apply (performSecurityCheck_dead blank_char); eauto using dead_up_to_cursors.
Qed.

End ScanStateFacts.

(* ================================================================== *)
(** * Field validation: particular inputs, rules, counters *)
(* ================================================================== *)

Module FieldCases.
Import RegExp MatcherSpec RegExpFacts DataValidator ScanSpec ScanFacts FieldSpec
       CursorSpec DeadFacts ScanStateFacts Fixtures.
Local Open Scope string_scope.
Local Open Scope list_scope.
Local Open Scope nat_scope.

Local Arguments test : simpl never.
Local Arguments performSecurityCheck : simpl never.

Lemma trimStart_blank s : Forall blank_char s -> trimStart s = [].
Proof.
  induction 1 as [|c tl Hc Htl IH]; [reflexivity|].
  cbn [trimStart]. unfold blank_char in Hc. now rewrite Hc.
Qed.

Lemma trim_blank s : Forall blank_char s -> trim s = [].
Proof. intros H. unfold trim, trimEnd. now rewrite (trimStart_blank s H). Qed.

Lemma digits_Forall s : forallb isDigit s = true -> Forall digit s.
Proof. rewrite forallb_forall. intros H. apply Forall_forall. exact H. Qed.

Lemma trim_digits s : forallb isDigit s = true -> trim s = s.
Proof.
  intros H. apply SanitizeClaims.trim_clean.
  rewrite forallb_forall in H. apply Forall_forall. intros c Hc.
  now apply SanitizeClaims.digit_facts, H.
Qed.

(** The field icCardNumber accepts exactly the strings of 4 to 20
    digits, wherever the cursors of the scan patterns are, and
    answers with the sanitized string. *)
Theorem validateField_icCardNumber (v : DataValidator.t) (s : jsstring)
        (options : Options) :
  builtin_scan v ->
  Obj.get (js "icCardNumber") (validationRules v)
  = Obj.get (js "icCardNumber") validationRules0 ->
  let result := fst (validateField v (js "icCardNumber") (VString s) options) in
  valid result = forallb isDigit s && (4 <=? length s) && (length s <=? 20)
  /\ (valid result = true ->
      result = Ok (sanitizeString (inputValidator v) s) (Some s)).
Proof.
  intros Hscan Hreg. cbv zeta.
  change (Obj.get (js "icCardNumber") validationRules0)
    with (Some (rule (Some (ICCardValidator.digits 4 20)) 20 true
                     "ICカード番号（数字4-20桁）")) in Hreg.
  rewrite (FieldClaims.validateField_own_string
             v (js "icCardNumber") (VString s) options _ s Hreg eq_refl I).
  unfold string_checks.
  destruct (FieldClaims.performSecurityCheck_collaborators
              (incr_total v) s (js "icCardNumber")) as [Hiv _].
  change (inputValidator (incr_total v)) with (inputValidator v) in Hiv.
  pose proof (scan_digits (incr_total v) s (js "icCardNumber") Hscan) as Hsafe.
  destruct (performSecurityCheck (incr_total v) s (js "icCardNumber")) as [scan v1].
  cbn [fst snd] in Hiv, Hsafe.
  cbn [maxLength required pattern sanitize rule andb].
  unfold test_rule. rewrite CardFacts.test_digits by lia. unfold within.
  destruct (forallb isDigit s) eqn:Hdig.
  - rewrite (Hsafe (digits_Forall s Hdig)), (trim_digits s Hdig).
    destruct (Nat.ltb_spec 20 (length s)); destruct (Nat.leb_spec (length s) 20);
      try lia; rewrite ?Bool.andb_false_r, ?Bool.andb_true_r;
      [split; [reflexivity|discriminate]|].
    destruct (Nat.eqb_spec (length s) 0); destruct (Nat.leb_spec 4 (length s));
      try lia; [split; [reflexivity|discriminate]| |].
    + destruct (Nat.ltb_spec 0 (length s)); [|lia].
      cbn [andb negb fst valid finish rule_sanitize sanitize rule].
      split; [reflexivity|]. intros _.
      now rewrite FieldClaims.set_pattern_inputValidator, Hiv.
    + destruct (Nat.ltb_spec 0 (length s)); [|lia].
      cbn [andb negb fst valid]. split; [reflexivity|discriminate].
  - cbn [andb]. split; [|].
    + destruct scan; [|reflexivity].
      destruct (20 <? length s); [reflexivity|].
      destruct (length (trim s) =? 0) eqn:E0; [reflexivity|].
      destruct (length (trim s)); [discriminate E0|]. reflexivity.
    + destruct scan; [|discriminate].
      destruct (20 <? length s); [discriminate|].
      destruct (length (trim s) =? 0) eqn:E0; [discriminate|].
      destruct (length (trim s)); [discriminate E0|]. discriminate.
Qed.


(** The validator after a scan that moved a cursor still has the
    built-in patterns; the field accepts [1234]. *)
Lemma validateField_icCardNumber_witness :
  let v := snd (performSecurityCheck (new iv0 hm0) (js "onclick=1") (js "notes")) in
  map lastIndex (xssPatterns v) = [0; 0; 0; 8; 0]
  /\ builtin_scan v
  /\ fst (validateField v (js "icCardNumber") (VString (js "1234")) no_options)
     = Ok (js "1234") (Some (js "1234")).
Proof.
  cbv zeta.
  assert (Hscan : builtin_scan
            (snd (performSecurityCheck (new iv0 hm0) (js "onclick=1") (js "notes")))).
  { apply performSecurityCheck_builtin. repeat split; apply up_to_cursors_refl. }
  split; [vm_compute; reflexivity|]. split; [exact Hscan|].
  destruct (validateField_icCardNumber _ (js "1234") no_options Hscan eq_refl)
    as [Hvalid Hok].
  rewrite Hok; [vm_compute; reflexivity|]. rewrite Hvalid. reflexivity.
Defined.

(** A string of white space only (the empty string is one) that is
    not longer than the rule allows: the scan finds nothing in it,
    wherever the cursors are; a required field answers
    REQUIRED_FIELD, with or without the option allowEmpty, and a
    field that is not required accepts it without looking at its
    pattern. *)
Theorem validateField_blank (v : DataValidator.t) (fieldName : jsstring)
        (rule : FieldRule) (s : jsstring) (options : Options) :
  builtin_scan v ->
  Obj.get fieldName (validationRules v) = Some rule ->
  Forall blank_char s -> length s <= maxLength rule ->
  fst (validateField v fieldName (VString s) options)
  = if required rule then REQUIRED_FIELD
    else Ok (if sanitize rule then sanitizeString (inputValidator v) s else s)
            (Some s).
Proof.
  intros Hscan Hreg Hblank Hlen.
  rewrite (FieldClaims.validateField_own_string
             v fieldName (VString s) options rule s Hreg eq_refl I).
  unfold string_checks.
  destruct (FieldClaims.performSecurityCheck_collaborators
              (incr_total v) s fieldName) as [Hiv _].
  change (inputValidator (incr_total v)) with (inputValidator v) in Hiv.
  pose proof (scan_blanks (incr_total v) s fieldName Hscan Hblank) as Hsafe.
  destruct (performSecurityCheck (incr_total v) s fieldName) as [scan v1].
  cbn [fst snd] in Hiv, Hsafe. subst scan.
  destruct (Nat.ltb_spec (maxLength rule) (length s)); [lia|].
  rewrite (trim_blank s Hblank). cbn [length Nat.eqb Nat.ltb Nat.leb].
  rewrite Bool.andb_true_r.
  destruct (required rule); [reflexivity|].
  destruct (pattern rule); unfold finish; cbn [fst rule_sanitize]; now rewrite Hiv.
Qed.

Lemma validateField_blank_witness :
  builtin_scan (new iv0 hm0)
  /\ fst (validateField (new iv0 hm0) (js "employeeId") (VString [])
                        {| allowEmpty := true |})
     = REQUIRED_FIELD
  /\ fst (validateField (new iv0 hm0) (js "lossTime") (VString (js "  ")) no_options)
     = Ok [] (Some (js "  ")).
Proof.
  assert (Hscan : builtin_scan (new iv0 hm0))
    by (repeat split; apply up_to_cursors_refl).
  split; [exact Hscan|]. split.
  - rewrite (validateField_blank (new iv0 hm0) (js "employeeId")
               (rule (Some (bounded [range "A" "Z"; range "a" "z"; range "0" "9"] 6 12))
                     12 true "従業員ID（英数字6-12桁）")
               [] {| allowEmpty := true |} Hscan eq_refl);
      [reflexivity|constructor|simpl; lia].
  - destruct (Obj.get (js "lossTime") (validationRules (new iv0 hm0)))
      as [r|] eqn:Hreg; [|vm_compute in Hreg; discriminate Hreg].
    rewrite (validateField_blank (new iv0 hm0) (js "lossTime") r (js "  ")
               no_options Hscan Hreg).
    + vm_compute in Hreg. injection Hreg as <-. vm_compute. reflexivity.
    + repeat constructor.
    + vm_compute in Hreg. injection Hreg as <-. simpl. lia.
Defined.

(** maskSensitiveData never throws; from 4 code units on it keeps
    the first two and the last two, puts a star for each of the
    others and so keeps the length; a string of exactly 4 code units
    comes back unmasked. *)
Theorem maskSensitiveData_cases (data : jsstring) :
  (length data < 4 -> maskSensitiveData data = js "***")
  /\ (4 <= length data ->
      maskSensitiveData data
      = firstn 2 data ++ List.repeat CardSpec.star_char (length data - 4)
          ++ skipn (length data - 2) data
      /\ length (maskSensitiveData data) = length data)
  /\ (length data = 4 -> maskSensitiveData data = data).
Proof.
  assert (Hlong : 4 <= length data ->
            maskSensitiveData data
            = firstn 2 data ++ List.repeat CardSpec.star_char (length data - 4)
                ++ skipn (length data - 2) data).
  { intros H. unfold maskSensitiveData, substring1, substring2.
    destruct (Nat.ltb_spec (length data) 4); [lia|].
    rewrite ClassifyFacts.concat_repeat_star.
    replace (Z.to_nat (Z.max 0 (Z.of_nat (length data) - 4))) with (length data - 4)
      by lia.
    replace (Z.to_nat (Z.of_nat (length data) - 2)) with (length data - 2) by lia.
    replace (Z.to_nat 0) with 0 by reflexivity.
    replace (Z.to_nat 2) with 2 by reflexivity.
    replace (Nat.min (Nat.min 0 2) (length data)) with 0 by lia.
    replace (Nat.min (Nat.max 0 2) (length data)) with 2 by lia.
    reflexivity. }
  split; [|split].
  - intros H. unfold maskSensitiveData.
    destruct (Nat.ltb_spec (length data) 4); [reflexivity|lia].
  - intros H. split; [now apply Hlong|]. rewrite (Hlong H).
    rewrite !length_app, length_firstn, repeat_length, length_skipn. lia.
  - intros H. rewrite Hlong by lia. rewrite H. cbn [Nat.sub List.repeat app].
    apply firstn_skipn.
Qed.

End FieldCases.

Module ObjectCounts.
Import RegExp DataValidator FieldSpec ObjectSpec ObjectClaims Fixtures.
Local Open Scope string_scope.
Local Open Scope list_scope.
Local Open Scope nat_scope.

Local Arguments validateField : simpl never.



End ObjectCounts.

Module RuleClaims.
Import RegExp DataValidator FieldSpec RuleSpec ObjectClaims Fixtures.
Local Open Scope string_scope.
Local Open Scope list_scope.
Local Open Scope nat_scope.

(** What addValidationRule returns for a name and a descriptor
    that it accepts. *)
Lemma addValidationRule_stores v fieldName r rule :
  isValidString (inputValidator v) fieldName = true ->
  described r = Some rule ->
  addValidationRule v fieldName r
  = (true,
     if replaces_prototype v fieldName then with_prototype v (Some rule)
     else with_rules v (Obj.put fieldName rule (validationRules v))).
Proof.
  intros Hname Hr. unfold addValidationRule, described in *. rewrite Hname. cbn [negb].
  destruct (d_maxLength r) as [len|], (d_required r) as [req|],
           (d_sanitize r) as [san|], (d_description r) as [descr|];
    try discriminate Hr.
  injection Hr as <-. unfold replaces_prototype, Obj.assign_object, Obj.has.
  destruct (Obj.get fieldName (validationRules v)); cbn [negb];
    rewrite ?Bool.andb_false_r, ?Bool.andb_true_r; [now destruct v|].
  destruct (Obj.is_proto fieldName); now destruct v.
Qed.

Lemma addValidationRule_refuses v fieldName r :
  isValidString (inputValidator v) fieldName = false \/ described r = None ->
  addValidationRule v fieldName r = (false, v).
Proof.
  unfold addValidationRule, described.
  destruct (isValidString (inputValidator v) fieldName); cbn [negb]; [|reflexivity].
  intros [H|H]; [discriminate H|].
  destruct (d_maxLength r) as [len|], (d_required r) as [req|],
           (d_sanitize r) as [san|], (d_description r) as [descr|];
    try reflexivity. discriminate H.
Qed.

(** addValidationRule followed by getValidationRule: a rule is
    stored exactly when the input validator accepts the field name
    and the descriptor has the properties maxLength, required,
    sanitize and description; a stored rule is the one that
    getValidationRule returns for this name, also when the name had
    a rule before, and the field is then known to validateField.
    Unless the assignment runs the setter of [__proto__], what
    getValidationRule returns for every other name stays; when it
    does, the own properties of the registry stay, the rule becomes
    the prototype of the registry, and a name of a property of the
    rule that the registry does not have, maxLength for one, now
    reads that property. A refused rule leaves the validator as it
    was. Patterns of the scan and statistics are untouched. *)
Theorem addValidationRule_getValidationRule
        (v : DataValidator.t) (fieldName : jsstring) (r : RuleDescriptor) :
  let ok := fst (addValidationRule v fieldName r) in
  let v' := snd (addValidationRule v fieldName r) in
  (ok = true <->
   isValidString (inputValidator v) fieldName = true /\ described r <> None)
  /\ (ok = true ->
      getValidationRule v' fieldName = option_map RuleObject (described r))
  /\ (ok = true -> forall value options,
        fst (validateField v' fieldName value options) <> UNKNOWN_FIELD)
  /\ (replaces_prototype v fieldName = false ->
      forall other, other <> fieldName ->
        getValidationRule v' other = getValidationRule v other)
  /\ (ok = true -> replaces_prototype v fieldName = true ->
      validationRules v' = validationRules v
      /\ rulesPrototype v' = described r
      /\ forall rule, described r = Some rule ->
           Obj.get (js "maxLength") (validationRules v) = None ->
           getValidationRule v' (js "maxLength")
           = if maxLength rule =? 0 then None
             else Some (NumberValue (maxLength rule)))
  /\ (ok = false -> v' = v)
  /\ stats v' = stats v
  /\ sqlInjectionPatterns v' = sqlInjectionPatterns v
  /\ osCommandPatterns v' = osCommandPatterns v
  /\ xssPatterns v' = xssPatterns v.
Proof.
  cbv zeta.
  destruct (isValidString (inputValidator v) fieldName) eqn:Hname.
  2:{ rewrite (addValidationRule_refuses v fieldName r (or_introl Hname)).
      cbn [fst snd]. repeat split; try discriminate; try reflexivity.
      intros [H _]. discriminate H. }
  destruct (described r) as [rule|] eqn:Hr.
  2:{ rewrite (addValidationRule_refuses v fieldName r (or_intror Hr)).
      cbn [fst snd]. repeat split; try discriminate; try reflexivity.
      intros [_ H]. now contradiction H. }
  rewrite (addValidationRule_stores v fieldName r rule Hname Hr). cbn [fst snd].
  assert (Hself : Obj.key_eqb fieldName fieldName = true) by now apply key_eqb_eq.
  assert (Hread : read_rule
                    (if replaces_prototype v fieldName
                     then with_prototype v (Some rule)
                     else with_rules v (Obj.put fieldName rule (validationRules v)))
                    fieldName
                  = Some (RuleObject rule)).
  { unfold replaces_prototype, Obj.has.
    destruct (Obj.get fieldName (validationRules v)) as [old|] eqn:Hown; cbn [negb].
    - rewrite Bool.andb_false_r. apply FieldClaims.read_rule_own.
      cbn [with_rules validationRules]. now rewrite get_put, Hself.
    - rewrite Bool.andb_true_r. destruct (Obj.is_proto fieldName) eqn:Hp.
      + unfold Obj.is_proto in Hp. apply key_eqb_eq in Hp. subst fieldName.
        unfold read_rule. cbn [with_prototype validationRules rulesPrototype].
        rewrite Hown. reflexivity.
      + apply FieldClaims.read_rule_own.
        cbn [with_rules validationRules]. now rewrite get_put, Hself. }
  split; [split; [intros _; split; [reflexivity|discriminate]|reflexivity]|].
  split; [intros _; unfold getValidationRule; now rewrite Hread|].
  split.
  { intros _ value options. unfold validateField.
    replace (read_rule (incr_total ?[x]) fieldName) with (Some (RuleObject rule))
      by (rewrite <- Hread; now destruct (replaces_prototype v fieldName)).
    cbn [truthy negb].
    destruct value as [| |s|[s|e]]; cbn [String_].
    - destruct (_ && _); discriminate.
    - destruct (_ && _); discriminate.
    - destruct (performSecurityCheck _ _ _) as [[|k p] v1]; [|discriminate].
      destruct (exceeded _ _); [discriminate|]. destruct (_ && _); [discriminate|].
      destruct (rule_pattern _) as [p|]; [|discriminate].
      destruct (_ <? _); [|discriminate].
      destruct (test_rule _ _ _ _ _) as [b v2]. destruct (negb b); discriminate.
    - destruct (performSecurityCheck _ _ _) as [[|k p] v1]; [|discriminate].
      destruct (exceeded _ _); [discriminate|]. destruct (_ && _); [discriminate|].
      destruct (rule_pattern _) as [p|]; [|discriminate].
      destruct (_ <? _); [|discriminate].
      destruct (test_rule _ _ _ _ _) as [b v2]. destruct (negb b); discriminate.
    - discriminate. }
  split.
  { intros -> other Hne. unfold getValidationRule, read_rule.
    cbn [with_rules validationRules rulesPrototype]. rewrite get_put.
    destruct (Obj.key_eqb other fieldName) eqn:E; [|reflexivity].
    apply key_eqb_eq in E. contradiction. }
  split.
  { intros _ ->. split; [reflexivity|]. split; [reflexivity|].
    intros rule' E Hown. injection E as <-.
    unfold getValidationRule, read_rule.
    cbn [with_prototype validationRules rulesPrototype]. rewrite Hown.
    change (Obj.key_eqb (js "maxLength") (js "pattern")) with false.
    change (Obj.key_eqb (js "maxLength") (js "maxLength")) with true.
    cbv beta iota. cbn [truthy]. now destruct (maxLength rule =? 0). }
  split; [discriminate|].
  now destruct (replaces_prototype v fieldName).
Qed.

(** A rule added under the name [__proto__] on a new validator
    becomes the prototype of the registry: the registered fields
    stay, and the names of the properties of the rule read as
    rules. *)
Example addValidationRule_proto :
  let r := {| d_pattern := None; d_maxLength := Some 7; d_required := Some true;
              d_sanitize := Some false; d_description := Some "x" |} in
  let accepting := {| sanitizeString := fun s => s; isValidString := fun _ => true |} in
  let v' := snd (addValidationRule (new accepting hm0) (js "__proto__") r) in
  fst (addValidationRule (new accepting hm0) (js "__proto__") r) = true
  /\ map fst (validationRules v') = map fst validationRules0
  /\ getValidationRule v' (js "maxLength") = Some (NumberValue 7)
  /\ getValidationRule (new accepting hm0) (js "maxLength") = None
  /\ fst (validateField v' (js "required") (VString (js "Taro")) no_options)
     = Ok (js "Taro") (Some (js "Taro")).
Proof. vm_compute. repeat split. Qed.

End RuleClaims.

(* ================================================================== *)
(** * Card classification: counters and accepted numbers *)
(* ================================================================== *)

Module CardCounts.
Import RegExp ICCardValidator CardSpec CountSpec CardFacts LuhnSpec LuhnFacts
       ClassifyFacts Fixtures.
Local Open Scope string_scope.
Local Open Scope list_scope.
Local Open Scope nat_scope.

Local Arguments test : simpl never.

Lemma detectCardType_stats v s :
  stats (snd (detectCardType v s)) = stats v.
Proof. unfold detectCardType. now destruct (detect (cardPatterns v) s). Qed.

(** Every call of validateCardNumber counts once in
    validationCount. It counts once among validCards, invalidCards
    and suspiciousAttempts, but for a call that ends in
    VALIDATION_ERROR, which counts twice there: the exception comes
    after the first of the two counters has been incremented. *)
Theorem validateCardNumber_counts (v : ICCardValidator.t) (cardNumber : jsstring) :
  let result := fst (validateCardNumber v cardNumber) in
  let v' := snd (validateCardNumber v cardNumber) in
  validationCount (stats v') = S (validationCount (stats v))
  /\ outcomes (stats v')
     = outcomes (stats v) + (if is_validation_error result then 2 else 1)
  /\ (valid result = true -> validCards (stats v') = S (validCards (stats v))).
Proof.
  cbv zeta. unfold validateCardNumber, outcomes.
  set (n := sanitizeString (inputValidator (incr_validationCount v)) cardNumber).
  destruct (negb (isValidString (inputValidator (incr_validationCount v)) n)).
  { cbn. repeat split; try lia; try discriminate. }
  destruct ((length n <? 4) || (20 <? length n)).
  { cbn. repeat split; try lia; try discriminate. }
  destruct (negb (fst (test digitsOnly n))).
  { cbn. repeat split; try lia; try discriminate. }
  pose proof (detectCardType_stats (incr_validationCount v) n) as Hst.
  destruct (detectCardType (incr_validationCount v) n) as [[[type config]|] v1];
    cbn [snd] in Hst.
  - destruct (negb (if checksum config then validateChecksum n type else true)).
    + cbn. rewrite Hst. cbn. repeat split; try lia; try discriminate.
    + destruct (maskCardNumber n); cbn; rewrite Hst; cbn; repeat split; try lia;
        try discriminate.
  - destruct (maskCardNumber n); cbn; rewrite Hst; cbn; repeat split; try lia;
      try discriminate.
Qed.

(** With the built-in table, validateCardNumber accepts the
    strings whose sanitized form the input validator accepts and
    which are made of 8 to 14 digits, or of 16 digits that pass the
    Luhn check; the accepted result carries the sanitized number,
    its mask and the type given by its length. The call that ends
    in VALIDATION_ERROR is the one on 4 to 7 digits. *)
Theorem validateCardNumber_accepts
        (iv : InputValidatorApi) (st : Stats) (cardNumber : jsstring) :
  let n := sanitizeString iv cardNumber in
  let result := fst (validateCardNumber (builtin iv st) cardNumber) in
  valid result
  = isValidString iv n && forallb isDigit n
    && ((8 <=? length n) && (length n <=? 14)
        || (length n =? 16) && luhn_valid (map digit_value n))
  /\ (valid result = true ->
      exists iss descr regs,
        result = Valid (type_by_length (length n)) iss descr regs
                       (firstn 4 n ++ List.repeat star_char (length n - 8)
                          ++ skipn (length n - 4) n)
                       n true)
  /\ is_validation_error result
     = isValidString iv n && forallb isDigit n
       && (4 <=? length n) && (length n <=? 7).
Proof.
  cbv zeta. unfold validateCardNumber, builtin.
  unfold incr_validationCount, with_stats.
  cbn [inputValidator cardPatterns stats].
  set (n := sanitizeString iv cardNumber).
  destruct (isValidString iv n); cbn [negb andb].
  2:{ cbn. repeat split. discriminate. }
  destruct (Nat.ltb_spec (length n) 4) as [H4|H4].
  { cbn [orb fst valid is_validation_error].
    destruct (Nat.leb_spec 8 (length n)); [lia|].
    destruct (Nat.eqb_spec (length n) 16); [lia|].
    destruct (Nat.leb_spec 4 (length n)); [lia|].
    cbn [andb orb]. rewrite !Bool.andb_false_r. repeat split. discriminate. }
  destruct (Nat.ltb_spec 20 (length n)) as [H20|H20].
  { cbn [orb fst valid is_validation_error].
    destruct (Nat.leb_spec (length n) 14); [lia|].
    destruct (Nat.eqb_spec (length n) 16); [lia|].
    destruct (Nat.leb_spec (length n) 7); [lia|].
    cbn [andb orb]. rewrite !Bool.andb_false_r. repeat split. discriminate. }
  cbn [orb]. rewrite test_digitsOnly.
  destruct (Nat.leb_spec 1 (length n)); [|lia]. rewrite Bool.andb_true_r.
  destruct (forallb isDigit n) eqn:Hdig; cbn [negb andb].
  2:{ cbn. repeat split. discriminate. }
  rewrite detectCardType_builtin. unfold detect_spec. rewrite Hdig.
  rewrite <- (validateChecksum_luhn n (js "SUICA") Hdig).
  unfold type_by_length.
  destruct (Nat.eqb_spec (length n) 16) as [E16|E16].
  { change (entry "SUICA") with
      (Some (js "SUICA",
             sixteen "Suica/PASMO系ICカード" "JR東日本・関東私鉄"
                     ["関東"; "東海"; "仙台"; "新潟"])).
    cbn [checksum sixteen].
    destruct (Nat.leb_spec 4 (length n)); [|lia].
    destruct (Nat.leb_spec (length n) 7); [lia|].
    destruct (Nat.leb_spec (length n) 14); [lia|]. rewrite Bool.andb_false_r.
    cbn [orb andb].
    change (validateChecksum n (js "SUICA")) with (validateChecksum n (js "SUICA")).
    destruct (validateChecksum n (js "SUICA")); cbn [negb].
    - rewrite maskCardNumber_long by lia. cbn [fst valid is_validation_error issuer
        description regions]. repeat split. intros _. now eexists _, _, _.
    - cbn. repeat split. discriminate. }
  rewrite Bool.andb_false_r || cbn [andb]. rewrite Bool.orb_false_r.
  destruct (Nat.leb_spec 10 (length n)); destruct (Nat.leb_spec (length n) 12);
    cbn [andb];
    try (change (entry "CORPORATE") with
           (Some (js "CORPORATE",
                  {| pattern := digits 10 12; length_ := OneOf [10; 11; 12];
                     checksum := false;
                     description := "企業系ICカード"; issuer := "各企業・団体";
                     regions := ["全国"] |}));
         cbn [checksum negb];
         rewrite maskCardNumber_long by lia;
         destruct (Nat.leb_spec 8 (length n)); [|lia];
         destruct (Nat.leb_spec (length n) 14); [|lia];
         destruct (Nat.leb_spec 4 (length n)); [|lia];
         destruct (Nat.leb_spec (length n) 7); [lia|];
         cbn; repeat split; intros _; now eexists _, _, _);
    (destruct (Nat.leb_spec 8 (length n)); destruct (Nat.leb_spec (length n) 14);
     cbn [andb];
     try (change (entry "STUDENT") with
            (Some (js "STUDENT",
                   {| pattern := digits 8 14;
                      length_ := OneOf [8; 9; 10; 11; 12; 13; 14];
                      checksum := false;
                      description := "学生証系ICカード"; issuer := "各教育機関";
                      regions := ["全国"] |}));
          cbn [checksum negb];
          rewrite maskCardNumber_long by lia;
          destruct (Nat.leb_spec 4 (length n)); [|lia];
          destruct (Nat.leb_spec (length n) 7); [lia|];
          cbn; repeat split; intros _; now eexists _, _, _);
     try lia;
     (destruct (Nat.leb_spec 4 (length n)); [|lia]);
     destruct (Nat.leb_spec (length n) 7);
     [rewrite maskCardNumber_throws by lia| rewrite maskCardNumber_long by lia];
     cbn; repeat split; discriminate).
Qed.

End CardCounts.

(* ================================================================== *)
(** * InputValidator.js : escapeHtml *)
(* ================================================================== *)

Module EscapeFacts.
Import RegExp MatcherSpec RegExpFacts InputValidation EscapeSpec.
Local Open Scope string_scope.
Local Open Scope list_scope.
Local Open Scope nat_scope.

(** Replacement of the matches of a pattern of one atom: code unit
    by code unit. *)
Lemma replace_from_atom ic f a p s :
  replace_from ic f (Chr a) p s 0
  = flat_map (fun c => if atom_match ic a c then f [c] else [c]) s.
Proof.
  revert p. induction s as [|c tl IH]; intros p; [reflexivity|].
  cbn [replace_from flat_map]. unfold match_at. cbn [m rest].
  destruct (atom_match ic a c).
  - cbn [advance rest length].
    replace (S (length tl) - length tl) with 1 by lia.
    cbn [firstn]. now rewrite IH.
  - now rewrite IH.
Qed.

Lemma special_cases c :
  special c = true ->
  c = 38%N \/ c = 60%N \/ c = 62%N \/ c = 34%N \/ c = 39%N \/ c = 47%N
  \/ c = 96%N \/ c = 61%N.
Proof.
  unfold special, specials. cbn [existsb].
  rewrite !Bool.orb_true_iff, !N.eqb_eq. intuition discriminate.
Qed.

Lemma special_class c :
  atom_match false (Class false [cc "&"; cc "<"; cc ">"; CChar 34; cc "'";
                                 cc "`"; cc "="; cc "/"]) c
  = special c.
Proof.
  unfold atom_match, item_match, special, specials.
  cbn [existsb xorb item_raw andb cc chr]. rewrite !Bool.orb_false_r.
  rewrite !(N.eqb_sym c).
  change (N_of_ascii "&") with 38%N. change (N_of_ascii "<") with 60%N.
  change (N_of_ascii ">") with 62%N. change (N_of_ascii "'") with 39%N.
  change (N_of_ascii "`") with 96%N. change (N_of_ascii "=") with 61%N.
  change (N_of_ascii "/") with 47%N.
  destruct (38 =? c)%N, (60 =? c)%N, (62 =? c)%N, (34 =? c)%N, (39 =? c)%N,
           (96 =? c)%N, (61 =? c)%N, (47 =? c)%N; reflexivity.
Qed.

Lemma entity_plain c : special c = false -> entity c = [c].
Proof.
  unfold special, specials, entity, htmlEscapeMap. cbn [existsb].
  rewrite !Bool.orb_false_iff, !N.eqb_neq. intros (H1&H2&H3&H4&H5&H6&H7&H8&_).
  cbn [Obj.get]. unfold Obj.key_eqb.
  repeat (destruct (list_eq_dec N.eq_dec _ _) as [E|_];
          [injection E as E; congruence|]).
  reflexivity.
Qed.

(** escapeHtml rewrites code unit by code unit. *)
Lemma escapeHtml_chars s : escapeHtml s = flat_map entity s.
Proof.
  unfold escapeHtml, replace_all_with, htmlSpecial, set.
  rewrite replace_from_atom. apply flat_map_ext. intros c.
  rewrite special_class. destruct (special c) eqn:E.
  - apply special_cases in E.
    destruct E as [->|[->|[->|[->|[->|[->|[->| ->]]]]]]]; reflexivity.
  - symmetry. now apply entity_plain.
Qed.

Lemma entity_special c : special c = true -> In (entity c) entities.
Proof.
  intros E. apply special_cases in E.
  destruct E as [->|[->|[->|[->|[->|[->|[->| ->]]]]]]]; vm_compute; tauto.
Qed.


(** An entity begins with the ampersand, contains no other one, and
    none of the other seven characters. *)
Lemma entity_shape c :
  special c = true ->
  exists body, entity c = ampersand :: body
               /\ body <> []
               /\ Forall (fun x => special x = false) body.
Proof.
  intros E. apply special_cases in E.
  destruct E as [->|[->|[->|[->|[->|[->|[->| ->]]]]]]];
    eexists; (split; [reflexivity|]); (split; [discriminate|]);
    repeat constructor.
Qed.

Lemma length_entity c : 1 <= length (entity c).
Proof.
  destruct (special c) eqn:E.
  - destruct (entity_shape c E) as (body & -> & _). simpl. lia.
  - rewrite (entity_plain c E). simpl. lia.
Qed.

Lemma length_escaped s : length s <= length (flat_map entity s).
Proof.
  induction s as [|c tl IH]; [reflexivity|].
  cbn [flat_map length]. rewrite length_app.
  pose proof (length_entity c). lia.
Qed.

(** Two code units whose entities start two equal strings are
    equal, and so are what follows the entities. *)
Lemma entity_prefix_free c d a b :
  entity c ++ a = entity d ++ b -> c = d /\ a = b.
Proof.
  destruct (special c) eqn:Ec, (special d) eqn:Ed.
  - apply special_cases in Ec, Ed.
    destruct Ec as [->|[->|[->|[->|[->|[->|[->| ->]]]]]]];
      destruct Ed as [->|[->|[->|[->|[->|[->|[->| ->]]]]]]];
      cbn; intros H; try discriminate H; split; congruence.
  - destruct (entity_shape c Ec) as (body & -> & _).
    rewrite (entity_plain d Ed). cbn. intros H. injection H as H _.
    subst d. discriminate Ed.
  - destruct (entity_shape d Ed) as (body & -> & _).
    rewrite (entity_plain c Ec). cbn. intros H. injection H as H _.
    subst c. discriminate Ec.
  - rewrite (entity_plain c Ec), (entity_plain d Ed). cbn.
    intros H. now injection H.
Qed.

End EscapeFacts.

Module EscapeClaims.
Import RegExp InputValidation EscapeSpec EscapeFacts.
Local Open Scope string_scope.
Local Open Scope list_scope.
Local Open Scope nat_scope.

(** escapeHtml works code unit by code unit: escaping two strings
    and joining the results gives the same as escaping the joined
    strings, and the result is never shorter than the input. *)
Theorem escapeHtml_app (a b : jsstring) :
  escapeHtml (a ++ b) = escapeHtml a ++ escapeHtml b
  /\ length a <= length (escapeHtml a).
Proof.
  rewrite !escapeHtml_chars. split; [apply flat_map_app|apply length_escaped].
Qed.

(** The result of escapeHtml holds none of the characters
    less-than, greater-than, double quote, apostrophe, slash,
    backtick and equals sign, and every ampersand in it starts one
    of the eight entities. *)
Theorem escapeHtml_safe (input : jsstring) :
  Forall (fun c => special c = true -> c = ampersand) (escapeHtml input)
  /\ (forall i, nth_error (escapeHtml input) i = Some ampersand ->
      exists e, In e entities
                /\ firstn (length e) (skipn i (escapeHtml input)) = e).
Proof.
  rewrite escapeHtml_chars. split.
  - induction input as [|c tl IH]; [constructor|].
    cbn [flat_map]. apply Forall_app. split; [|exact IH].
    destruct (special c) eqn:E.
    + destruct (entity_shape c E) as (body & -> & _ & Hbody).
      constructor; [reflexivity|].
      eapply Forall_impl; [|exact Hbody]. cbn. intros x Hx Hs. congruence.
    + rewrite (entity_plain c E). constructor; [|constructor]. congruence.
  - induction input as [|c tl IH]; intros i Hi.
    + destruct i; discriminate Hi.
    + cbn [flat_map] in *.
      destruct (Nat.lt_ge_cases i (length (entity c))) as [Hlt|Hge].
      * rewrite nth_error_app1 in Hi by exact Hlt.
        destruct (special c) eqn:E.
        -- destruct (entity_shape c E) as (body & Hent & _ & Hbody).
           assert (i = 0).
           { rewrite Hent in Hi. destruct i as [|i]; [reflexivity|].
             cbn [nth_error] in Hi. apply nth_error_In in Hi.
             rewrite Forall_forall in Hbody. apply Hbody in Hi. discriminate Hi. }
           subst i. exists (entity c). split; [now apply entity_special|].
           cbn [skipn]. rewrite firstn_app, Nat.sub_diag, firstn_all.
           cbn [firstn]. apply app_nil_r.
        -- rewrite (entity_plain c E) in Hi, Hlt. cbn [length] in Hlt.
           assert (i = 0) by lia. subst i. cbn in Hi. injection Hi as ->.
           discriminate E.
      * rewrite nth_error_app2 in Hi by exact Hge.
        destruct (IH _ Hi) as (e & He & Hpre). exists e. split; [exact He|].
        rewrite skipn_app.
        rewrite (skipn_all2 (entity c)) by exact Hge. exact Hpre.
Qed.

(** escapeHtml loses nothing: two inputs with the same result are
    the same input. *)
Theorem escapeHtml_injective (s t : jsstring) :
  escapeHtml s = escapeHtml t -> s = t.
Proof.
  rewrite !escapeHtml_chars. revert t.
  induction s as [|c s IH]; intros [|d t] H.
  - reflexivity.
  - cbn [flat_map] in H. pose proof (length_entity d) as Hd.
    apply (f_equal (@length N)) in H. rewrite length_app in H. cbn in H. lia.
  - cbn [flat_map] in H. pose proof (length_entity c) as Hc.
    apply (f_equal (@length N)) in H. rewrite length_app in H. cbn in H. lia.
  - cbn [flat_map] in H. apply entity_prefix_free in H. destruct H as [-> H].
    f_equal. now apply IH.
Qed.

Lemma escapeHtml_injective_witness :
  escapeHtml (js "a<" ++ js "b") = escapeHtml (js "a<b")
  /\ js "a<" ++ js "b" = js "a<b".
Proof.
  assert (H : escapeHtml (js "a<" ++ js "b") = escapeHtml (js "a<b"))
    by (vm_compute; reflexivity).
  split; [exact H|]. exact (escapeHtml_injective _ _ H).
Defined.

(** escapeHtml leaves a string as it is exactly when the string
    holds none of the eight characters; and escaping an escaped
    string changes it exactly when the string holds one of them (its
    result then holds an ampersand). *)
Theorem escapeHtml_fixed_points (s : jsstring) :
  (escapeHtml s = s <-> forallb (fun c => negb (special c)) s = true)
  /\ (escapeHtml (escapeHtml s) = escapeHtml s
      <-> forallb (fun c => negb (special c)) s = true).
Proof.
  assert (Hfix : forall u,
            flat_map entity u = u <-> forallb (fun c => negb (special c)) u = true).
  { induction u as [|c u IH]; [now split|]. cbn [flat_map forallb].
    rewrite Bool.andb_true_iff, Bool.negb_true_iff, <- IH. split.
    - intros H. destruct (special c) eqn:E.
      + exfalso. destruct (entity_shape c E) as (body & Hent & Hne & _).
        rewrite Hent in H. injection H as _ H.
        apply (f_equal (@length N)) in H. rewrite length_app in H.
        pose proof (length_escaped u). destruct body; [congruence|]. cbn in H. lia.
      + rewrite (entity_plain c E) in H. cbn in H. injection H as H. now split.
    - intros [E H]. rewrite (entity_plain c E), H. reflexivity. }
  assert (Hkeep : forall u,
            forallb (fun c => negb (special c)) (flat_map entity u)
            = forallb (fun c => negb (special c)) u).
  { induction u as [|c u IH]; [reflexivity|].
    change (flat_map entity (c :: u)) with (entity c ++ flat_map entity u).
    rewrite forallb_app. unfold jsstring, char in *. rewrite IH.
    cbn [forallb]. f_equal. destruct (special c) eqn:E.
    - destruct (entity_shape c E) as (body & -> & _). reflexivity.
    - rewrite (entity_plain c E). cbn [forallb]. now rewrite E. }
  rewrite !escapeHtml_chars. split; [apply Hfix|].
  rewrite Hfix. now rewrite Hkeep.
Qed.

End EscapeClaims.

(* ================================================================== *)
(** * InputValidator.js : the validation methods *)
(* ================================================================== *)

Module PrefixFacts.
Import RegExp MatcherSpec RegExpFacts InputValidation InputSpec.
Local Open Scope string_scope.
Local Open Scope list_scope.
Local Open Scope nat_scope.

Lemma search_unfold ic r p s :
  search ic r p s
  = match match_at ic r p s with
    | Some len => Some (0, len)
    | None =>
        match s with
        | c :: tl =>
            match search ic r (Some c) tl with
            | Some (off, len) => Some (S off, len)
            | None => None
            end
        | [] => None
        end
    end.
Proof. destruct s; reflexivity. Qed.

(** A pattern that starts with [^] matches at index 0 only. *)
Lemma search_bol_later ic r c s : search ic (Seq Bol r) (Some c) s = None.
Proof.
  revert c. induction s as [|x s IH]; intros c; rewrite search_unfold;
    unfold match_at; cbn [m prev flat_map]; [reflexivity|].
  now rewrite IH.
Qed.

Lemma m_bol_start ic r s cs :
  m ic (Seq Bol r) {| prev := None; rest := s; caps := cs |}
  = m ic r {| prev := None; rest := s; caps := cs |}.
Proof. cbn [m prev flat_map]. apply app_nil_r. Qed.

Lemma test_bol ic r li s :
  fst (test {| source := Seq Bol r; ignoreCase := ic; global := false;
               lastIndex := li |} s)
  = match m ic r {| prev := None; rest := s; caps := [] |} with
    | [] => false
    | _ :: _ => true
    end.
Proof.
  rewrite <- m_bol_start. unfold test. cbn [global ignoreCase source].
  rewrite search_unfold. unfold match_at.
  destruct (m ic (Seq Bol r) _); [|reflexivity].
  destruct s as [|c s]; [reflexivity|]. now rewrite search_bol_later.
Qed.

(** The tail [\d{n}$] of a format. *)
Lemma m_digits_end n st :
  match m false (Seq (Rep (set [CDigit]) n (Some n)) Eol) st with
  | [] => false
  | _ :: _ => true
  end = forallb isDigit (rest st) && (length (rest st) =? n).
Proof.
  change (m false (Seq (Rep (set [CDigit]) n (Some n)) Eol) st)
    with (flat_map (m false Eol)
            (rep (m false (Chr (Class false [CDigit]))) [] (rep_fuel n st) n (Some n) st)).
  rewrite flat_map_Eol, filter_nil_existsb.
  rewrite (rep_chr_at_end false (Class false [CDigit]) []
                         (rest st) (rep_fuel n st) n (Some n) st eq_refl).
  - f_equal.
    + apply forallb_ext. intros c. apply digit_escape_match.
    + unfold within. apply Bool.eq_iff_eq_true.
      rewrite Bool.andb_true_iff, !Nat.leb_le, Nat.eqb_eq. lia.
  - unfold rep_fuel. lia.
  - simpl. lia.
Qed.

Lemma m_two_atoms ic a1 a2 r st :
  m ic (Seq (Seq (Chr a1) (Chr a2)) r) st
  = match rest st with
    | c1 :: c2 :: tl =>
        if atom_match ic a1 c1 && atom_match ic a2 c2
        then m ic r (advance (advance st c1 (c2 :: tl)) c2 tl)
        else []
    | _ => []
    end.
Proof.
  cbn [m]. destruct (rest st) as [|c1 [|c2 tl]]; [reflexivity| |].
  - destruct (atom_match ic a1 c1); reflexivity.
  - destruct (atom_match ic a1 c1); [|reflexivity].
    cbn [flat_map advance rest app].
    destruct (atom_match ic a2 c2); [|reflexivity].
    cbn [flat_map andb]. apply app_nil_r.
Qed.

Lemma test_prefixed a1 a2 n u :
  fst (test (prefixed (Seq (Chr a1) (Chr a2)) n) u)
  = match u with
    | c1 :: c2 :: tl =>
        atom_match false a1 c1 && atom_match false a2 c2
        && forallb isDigit tl && (length tl =? n)
    | _ => false
    end.
Proof.
  unfold prefixed, InputValidation.re, seqs. rewrite test_bol, m_two_atoms.
  cbn [rest]. destruct u as [|c1 [|c2 tl]]; [reflexivity|reflexivity|].
  destruct (atom_match false a1 c1 && atom_match false a2 c2); [|reflexivity].
  rewrite m_digits_end. reflexivity.
Qed.

Lemma lit_match a c : atom_match false (Lit a) c = (c =? a)%N.
Proof. unfold atom_match, canon. apply N.eqb_sym. Qed.

Lemma find_format_builtin u :
  find_format icCardFormats u
  = match card_type u with
    | Some type =>
        find (fun entry => String.eqb (fst entry) type) icCardFormats
    | None => None
    end.
Proof.
  unfold icCardFormats, card_type. cbn [find_format pattern lit js seqs map
    list_ascii_of_string].
  unfold set at 1. rewrite !test_prefixed.
  unfold prefix_digits. destruct u as [|c1 [|c2 tl]]; [reflexivity|reflexivity|].
  rewrite !lit_match. cbn [existsb]. rewrite !Bool.orb_false_r.
  unfold cc, atom_match, item_match. cbn [existsb xorb item_raw andb].
  rewrite !Bool.orb_false_r. rewrite !(N.eqb_sym (chr _) c2).
  change (N_of_ascii "T") with (chr "T"). change (N_of_ascii "O") with (chr "O").
  change (N_of_ascii "M") with (chr "M"). change (N_of_ascii "A") with (chr "A").
  change (N_of_ascii "J") with (chr "J"). change (N_of_ascii "E") with (chr "E").
  change (N_of_ascii "I") with (chr "I"). change (N_of_ascii "C") with (chr "C").
  change (N_of_ascii "S") with (chr "S"). change (N_of_ascii "G") with (chr "G").
  change (N_of_ascii "P") with (chr "P").
  repeat match goal with
         | |- context [if ?b then _ else _] => destruct b; [reflexivity|]
         end.
  reflexivity.
Qed.

End PrefixFacts.

Module InputFacts.
Import RegExp MatcherSpec RegExpFacts DataValidator ScanSpec ScanFacts SanitizeSpec
       InputValidation CursorSpec InputSpec PrefixFacts DeadFacts.
Local Open Scope string_scope.
Local Open Scope list_scope.
Local Open Scope nat_scope.

Local Arguments test : simpl never.

Ltac plain_leaf :=
  let c := fresh "c" in
  let H1 := fresh in let H2 := fresh in let H3 := fresh in
  intros c (H1 & H2 & H3); apply lit_refuses; [reflexivity|reflexivity|assumption].

Lemma dangerous_patterns_refuse_plain : Forall (dead_for plain) dangerousPatterns0.
Proof.
  repeat (constructor; [cbv -[atom_match plain]; find_dead_with plain_leaf|]).
  constructor.
Qed.

(** ** The masks *)

Lemma slice1_last {A} (s : list A) (k : nat) :
  0 < k -> k <= length s -> slice1 s (- Z.of_nat k) = skipn (length s - k) s.
Proof.
  intros H0 Hk. unfold slice1.
  destruct (Z.ltb_spec (- Z.of_nat k) 0); [|lia].
  f_equal. lia.
Qed.

Lemma maskCardNumber_from_6 u :
  6 <= length u -> _maskCardNumber u = Some (card_mask u).
Proof.
  intros H. unfold _maskCardNumber, card_mask, JsString.repeat, substring2.
  destruct (Nat.ltb_spec (length u) 4); [lia|].
  destruct (Z.ltb_spec (Z.of_nat (length u) - 6) 0); [lia|].
  rewrite ClassifyFacts.concat_repeat_star.
  change (-4)%Z with (- Z.of_nat 4)%Z. rewrite slice1_last by lia.
  replace (Z.to_nat (Z.of_nat (length u) - 6)) with (length u - 6) by lia.
  replace (Z.to_nat 0) with 0 by reflexivity.
  replace (Z.to_nat 2) with 2 by reflexivity.
  replace (Nat.min (Nat.min 0 2) (length u)) with 0 by lia.
  replace (Nat.min (Nat.max 0 2) (length u)) with 2 by lia.
  reflexivity.
Qed.

Lemma maskEmployeeId_long u :
  4 <= length u -> _maskEmployeeId u = Some (employee_mask u).
Proof.
  intros H. unfold _maskEmployeeId, employee_mask, JsString.repeat, substring2.
  destruct (Nat.ltb_spec (length u) 4); [lia|].
  destruct (Z.ltb_spec (Z.of_nat (length u) - 2) 0); [lia|].
  rewrite ClassifyFacts.concat_repeat_star.
  change (-1)%Z with (- Z.of_nat 1)%Z. rewrite slice1_last by lia.
  replace (Z.to_nat (Z.of_nat (length u) - 2)) with (length u - 2) by lia.
  replace (Z.to_nat 0) with 0 by reflexivity.
  replace (Z.to_nat 1) with 1 by reflexivity.
  replace (Nat.min (Nat.min 0 1) (length u)) with 0 by lia.
  replace (Nat.min (Nat.max 0 1) (length u)) with 1 by lia.
  reflexivity.
Qed.

Lemma maskEmployeeId_cases u :
  _maskEmployeeId u
  = Some (if length u <? 4 then js "****" else employee_mask u).
Proof.
  destruct (Nat.ltb_spec (length u) 4) as [H|H].
  - unfold _maskEmployeeId.
    destruct (Nat.ltb_spec (length u) 4); [reflexivity|lia].
  - now apply maskEmployeeId_long.
Qed.

(** ** validateBasicInput *)

(** The one way out of validateBasicInput without a result: the
    handler cannot read the message of what [String(input)] has
    thrown. *)
Lemma validateBasicInput_escapes v input options :
  (fst (validateBasicInput v input options) = None
   <-> thrown input = Some Unreadable)
  /\ (thrown input = Some Readable ->
      fst (validateBasicInput v input options) = Some Thrown).
Proof.
  unfold validateBasicInput.
  destruct input as [| |s|[s|[|]]]; cbn [String_ thrown];
    try destruct (first_test (dangerousPatterns (config v)) s) as [hit ps];
    cbn [fst]; (split; [split|]); try discriminate; reflexivity.
Qed.

Lemma validateBasicInput_plain v s options :
  builtin_input v -> Forall plain s ->
  fst (validateBasicInput v (VString s) options)
  = Some (Checked (length_errors (limit v options) s)
                  (InputValidator.sanitizeInput s)
                  (length s) (length (InputValidator.sanitizeInput s))).
Proof.
  intros Hv Hs. unfold validateBasicInput. cbn [String_].
  pose proof (first_test_dead plain (dangerousPatterns (config v)) s
                (dead_up_to_cursors plain _ _ Hv dangerous_patterns_refuse_plain) Hs)
    as E.
  destruct (first_test (dangerousPatterns (config v)) s) as [hit ps].
  cbn [fst] in E. subst hit. reflexivity.
Qed.

(** The format patterns ask for 16 or 17 code units. *)
Lemma card_type_length u type : card_type u = Some type -> 16 <= length u.
Proof.
  unfold card_type, prefix_digits. destruct u as [|c1 [|c2 tl]]; try discriminate.
  intros H. cbn [length].
  repeat match type of H with
         | (if ?b then _ else _) = _ =>
             let E := fresh "E" in
             destruct b eqn:E;
             [rewrite !Bool.andb_true_iff, Nat.eqb_eq in E; lia|]
         end.
  discriminate H.
Qed.

Lemma find_format_length u type format :
  find_format icCardFormats u = Some (type, format) -> 16 <= length u.
Proof.
  rewrite find_format_builtin. destruct (card_type u) as [t|] eqn:E; [|discriminate].
  intros _. exact (card_type_length u t E).
Qed.

Lemma find_card_name type u :
  card_type u = Some type ->
  exists format,
    find (fun entry => String.eqb (fst entry) type) icCardFormats = Some (type, format)
    /\ name format = card_name type.
Proof.
  unfold card_type.
  repeat match goal with
         | |- (if ?b then _ else _) = _ -> _ =>
             destruct b; [intros H; injection H as <-; eexists; split; reflexivity|]
         end.
  discriminate.
Qed.

(** ** Letters and digits *)

Lemma alnum_facts c :
  isAlnum c = true ->
  negb (isControl c) = true /\ plain c /\ isWhiteSpace c = false.
Proof.
  unfold isAlnum, isControl, plain, isWhiteSpace, in_range.
  rewrite !Bool.orb_true_iff, !Bool.andb_true_iff, !N.leb_le. intros H.
  split; [|split; [repeat split; lia|]].
  - apply Bool.negb_true_iff, Bool.orb_false_iff. split.
    + apply Bool.andb_false_iff. right. apply N.leb_gt. lia.
    + apply N.eqb_neq. lia.
  - repeat (apply Bool.orb_false_iff; split);
      try (apply N.eqb_neq; lia);
      apply Bool.andb_false_iff;
      first [left; apply N.leb_gt; lia | right; apply N.leb_gt; lia].
Qed.

Lemma sanitizeInput_alnum s :
  forallb isAlnum s = true -> InputValidator.sanitizeInput s = s.
Proof.
  intros H. rewrite forallb_forall in H.
  assert (H1 : Forall (fun c => negb (isControl c) = true) s)
    by (apply Forall_forall; intros c Hc; now apply alnum_facts, H).
  assert (H2 : Forall plain s)
    by (apply Forall_forall; intros c Hc; now apply alnum_facts, H).
  assert (H3 : Forall (fun c => isWhiteSpace c = false) s)
    by (apply Forall_forall; intros c Hc; now apply alnum_facts, H).
  rewrite SanitizeClaims.sanitizeInput_shape. unfold strip, replace_all.
  rewrite SanitizeClaims.strip_control, (SanitizeClaims.filter_all _ _ H1),
    (SanitizeClaims.remove_all_plain s H2).
  now apply SanitizeClaims.trim_clean.
Qed.

Lemma digit_alnum c : isDigit c = true -> isAlnum c = true.
Proof. unfold isAlnum, isDigit. intros ->. apply Bool.orb_true_r. Qed.

Lemma alnum_class c :
  atom_match false (Class false [range "A" "Z"; range "a" "z"; range "0" "9"]) c
  = isAlnum c.
Proof.
  unfold atom_match, item_match, isAlnum. simpl.
  now rewrite !Bool.orb_false_r, Bool.orb_assoc.
Qed.

Lemma test_employeeId s :
  fst (test employeeIdPattern s)
  = forallb isAlnum s && ((6 <=? length s) && (length s <=? 12)).
Proof.
  unfold employeeIdPattern, InputValidation.re.
  change (seqs [Bol; Rep (set [range "A" "Z"; range "a" "z"; range "0" "9"]) 6 (Some 12);
                Eol])
    with (anchored (Class false [range "A" "Z"; range "a" "z"; range "0" "9"])
                   6 (Some 12)).
  rewrite test_anchored by (simpl; lia).
  f_equal. apply forallb_ext. intros c. apply alnum_class.
Qed.

End InputFacts.

Module InputClaims.
Import RegExp MatcherSpec RegExpFacts DataValidator ScanSpec ScanFacts SanitizeSpec
       InputValidation CursorSpec InputSpec PrefixFacts DeadFacts InputFacts.
Local Open Scope string_scope.
Local Open Scope list_scope.
Local Open Scope nat_scope.

Local Arguments test : simpl never.

(** _maskCardNumber throws on 4 and on 5 code units, where the
    count given to [repeat] is negative, and on no other string;
    from 6 code units on it keeps the first two and the last four,
    puts a star for each of the others and so keeps the length. *)
Theorem maskCardNumber_throws_on_4_and_5 (cardNumber : jsstring) :
  (_maskCardNumber cardNumber = None
   <-> 4 <= length cardNumber /\ length cardNumber <= 5)
  /\ (length cardNumber < 4 -> _maskCardNumber cardNumber = Some (js "****"))
  /\ (6 <= length cardNumber ->
      _maskCardNumber cardNumber = Some (card_mask cardNumber)
      /\ length (card_mask cardNumber) = length cardNumber).
Proof.
  assert (Hshort : length cardNumber < 4 ->
                   _maskCardNumber cardNumber = Some (js "****")).
  { intros H. unfold _maskCardNumber.
    destruct (Nat.ltb_spec (length cardNumber) 4); [reflexivity|lia]. }
  assert (Hmid : 4 <= length cardNumber -> length cardNumber <= 5 ->
                 _maskCardNumber cardNumber = None).
  { intros H4 H5. unfold _maskCardNumber, JsString.repeat.
    destruct (Nat.ltb_spec (length cardNumber) 4); [lia|].
    destruct (Z.ltb_spec (Z.of_nat (length cardNumber) - 6) 0); [reflexivity|lia]. }
  split; [split|split].
  - intros E.
    destruct (Nat.lt_ge_cases (length cardNumber) 4) as [H|H];
      [rewrite Hshort in E by exact H; discriminate E|].
    destruct (Nat.le_gt_cases (length cardNumber) 5) as [H'|H']; [now split|].
    rewrite maskCardNumber_from_6 in E by lia. discriminate E.
  - intros [H4 H5]. now apply Hmid.
  - exact Hshort.
  - intros H. split; [now apply maskCardNumber_from_6|].
    unfold card_mask.
    rewrite !length_app, length_firstn, repeat_length, length_skipn. lia.
Qed.

(** _maskEmployeeId never throws; from 4 code units on it keeps
    the first and the last one, puts a star for each of the others
    and so keeps the length. *)
Theorem maskEmployeeId_total (employeeId : jsstring) :
  _maskEmployeeId employeeId
  = Some (if length employeeId <? 4 then js "****" else employee_mask employeeId)
  /\ (4 <= length employeeId ->
      length (employee_mask employeeId) = length employeeId).
Proof.
  split.
  - apply maskEmployeeId_cases.
  - intros H. unfold employee_mask.
    rewrite !length_app, length_firstn, repeat_length, length_skipn. lia.
Qed.

(** validateBasicInput on a string, the cursors of the dangerous
    patterns being at 0: the result carries the sanitized string and
    the two lengths; its errors are the length error, when the
    string is longer than the limit in force, followed by one
    danger error, when one of the patterns matches somewhere in the
    string; the result is valid when neither is the case. The
    hypothesis on the cursors is needed: on a new validator a second
    call on [javascript:] accepts what the first call refused. *)
Theorem validateBasicInput_rewound
        (v : InputValidation.t) (s : jsstring) (options : InputValidation.Options) :
  rewound (dangerousPatterns (config v)) ->
  let dangerous := existsb (fun p => matches p s) (dangerousPatterns (config v)) in
  let result := fst (validateBasicInput v (VString s) options) in
  result
  = Some (Checked (length_errors (limit v options) s
                     ++ if dangerous then [DANGEROUS_PATTERN] else [])
                  (InputValidator.sanitizeInput s)
                  (length s) (length (InputValidator.sanitizeInput s)))
  /\ option_map InputValidation.valid result
     = Some ((length s <=? limit v options) && negb dangerous).
Proof.
  intros Hrew. cbv zeta. unfold validateBasicInput. cbn [String_].
  pose proof (first_test_rewound (dangerousPatterns (config v)) s Hrew) as E.
  destruct (first_test (dangerousPatterns (config v)) s) as [hit ps].
  cbn [fst] in *. rewrite <- E. fold (limit v options). fold (length_errors (limit v options) s).
  unfold length_errors.
  destruct (Nat.ltb_spec (limit v options) (length s));
    destruct (Nat.leb_spec (length s) (limit v options)); try lia;
    destruct hit; split; reflexivity.
Qed.


Lemma validateBasicInput_rewound_witness :
  let first := validateBasicInput InputValidation.new (VString (js "javascript:"))
                                  InputValidation.no_options in
  rewound (dangerousPatterns (config InputValidation.new))
  /\ option_map InputValidation.valid (fst first) = Some false
  /\ option_map InputValidation.valid
       (fst (validateBasicInput (snd first) (VString (js "javascript:"))
                                InputValidation.no_options))
     = Some true.
Proof.
  cbv zeta.
  assert (Hrew : rewound (dangerousPatterns (config InputValidation.new)))
    by (repeat constructor).
  split; [exact Hrew|]. split; [|vm_compute; reflexivity].
  destruct (validateBasicInput_rewound InputValidation.new (js "javascript:")
              InputValidation.no_options Hrew) as [_ Hvalid].
  rewrite Hvalid. vm_compute. reflexivity.
Defined.

(** validateICCardNumber throws on one kind of input only, in
    every state of the validator and for every case mapping: an
    input whose conversion to a string throws a value of which the
    handler of validateBasicInput cannot read the message; an input
    that throws another value is rejected with the processing
    error. The mask is never the cause: a number reaches
    _maskCardNumber only after it matched a format, and the formats
    ask for 16 or 17 code units. *)
Theorem validateICCardNumber_throws
        (toUpperCase : jsstring -> jsstring) (v : InputValidation.t) (input : Value) :
  (fst (validateICCardNumber toUpperCase v input) = None
   <-> thrown input = Some Unreadable)
  /\ (thrown input = Some Readable ->
      fst (validateICCardNumber toUpperCase v input) = Some (Rejected Thrown)).
Proof.
  destruct (validateBasicInput_escapes v input {| o_maxInputLength := Some 20 |})
    as [Hnone Hthrown].
  unfold validateICCardNumber.
  destruct (validateBasicInput v input {| o_maxInputLength := Some 20 |})
    as [[basic|] v1]; cbn [fst] in *.
  - assert (Hsome : exists result,
      fst (if negb (InputValidation.valid basic) then (Some (Rejected basic), v1)
           else
             match find_format icCardFormats (toUpperCase (sanitized basic)) with
             | Some (type, format) =>
                 match _maskCardNumber (toUpperCase (sanitized basic)) with
                 | Some maskedNumber =>
                     (Some (Accepted (toUpperCase (sanitized basic)) type
                                     (name format) maskedNumber), v1)
                 | None => (None, v1)
                 end
             | None =>
                 (Some (Unsupported (toUpperCase (sanitized basic))
                                    (map fst icCardFormats)), v1)
             end) = Some result).
    { destruct (negb (InputValidation.valid basic)); [now eexists|].
      destruct (find_format icCardFormats (toUpperCase (sanitized basic)))
        as [[type format]|] eqn:E; [|now eexists].
      apply find_format_length in E.
      rewrite maskCardNumber_from_6 by lia. now eexists. }
    split.
    + destruct Hsome as [result E]. cbv zeta. rewrite E.
      split; [discriminate|]. intros H. apply Hnone in H. discriminate H.
    + intros H. apply Hthrown in H. injection H as ->. reflexivity.
  - split; [split; [intros _; now apply Hnone|reflexivity]|].
    intros H. apply Hthrown in H. discriminate H.
Qed.

(** An object whose [toString] throws [null] makes
    validateICCardNumber throw; one whose [toString] throws an
    [Error] is rejected. *)
Lemma validateICCardNumber_throws_witness :
  fst (validateICCardNumber (map toUpperAscii) InputValidation.new
                            (VOther (Throws Unreadable))) = None
  /\ fst (validateICCardNumber (map toUpperAscii) InputValidation.new
                               (VOther (Throws Readable))) = Some (Rejected Thrown).
Proof.
  split.
  - apply (proj1 (validateICCardNumber_throws (map toUpperAscii) InputValidation.new
                    (VOther (Throws Unreadable)))).
    reflexivity.
  - apply (proj2 (validateICCardNumber_throws (map toUpperAscii) InputValidation.new
                    (VOther (Throws Readable)))).
    reflexivity.
Defined.

(** validateICCardNumber on a string of at most 20 code units
    without [<], [:] and [=], wherever the cursors of the dangerous
    patterns are: the answer is decided by the upper-cased sanitized
    string [u]. Two letters and 14 digits (15 for Suica) give the
    card type, TO for TOICA, MA for manaca, JE for Suica, IC for
    ICOCA, SG for SUGOCA, PA or PB for PASMO, with the mask that
    keeps the two letters and the last four digits; any other [u] is
    reported as an unsupported format. *)
Theorem validateICCardNumber_plain
        (toUpperCase : jsstring -> jsstring) (v : InputValidation.t) (s : jsstring) :
  builtin_input v -> Forall plain s -> length s <= 20 ->
  let u := toUpperCase (InputValidator.sanitizeInput s) in
  fst (validateICCardNumber toUpperCase v (VString s))
  = Some match card_type u with
         | Some type => Accepted u type (card_name type) (card_mask u)
         | None => Unsupported u ["TOICA"; "manaca"; "Suica"; "ICOCA"; "SUGOCA"; "PASMO"]
         end.
Proof.
  intros Hv Hs Hlen. cbv zeta. unfold validateICCardNumber.
  pose proof (validateBasicInput_plain v s {| o_maxInputLength := Some 20 |} Hv Hs) as E.
  destruct (validateBasicInput v (VString s) {| o_maxInputLength := Some 20 |})
    as [basic v1].
  cbn [fst] in E. subst basic. unfold length_errors, limit. cbn [o_maxInputLength].
  destruct (Nat.ltb_spec 20 (length s)); [lia|].
  cbn [InputValidation.valid length Nat.eqb negb sanitized].
  rewrite find_format_builtin.
  destruct (card_type (toUpperCase (InputValidator.sanitizeInput s))) as [type|] eqn:Et;
    [|reflexivity].
  destruct (find_card_name type _ Et) as (format & -> & <-).
  rewrite maskCardNumber_from_6 by (apply card_type_length in Et; lia).
  reflexivity.
Qed.

Lemma validateICCardNumber_plain_witness :
  builtin_input InputValidation.new
  /\ Forall plain (js "to12345678901234")
  /\ fst (validateICCardNumber (map toUpperAscii) InputValidation.new
                               (VString (js "to12345678901234")))
     = Some (Accepted (js "TO12345678901234") "TOICA" "TOICA（JR東海）"
                      (js "TO**********1234")).
Proof.
  assert (Hv : builtin_input InputValidation.new) by apply up_to_cursors_refl.
  assert (Hs : Forall plain (js "to12345678901234"))
    by (repeat constructor; intros E; discriminate E).
  split; [exact Hv|]. split; [exact Hs|].
  rewrite (validateICCardNumber_plain (map toUpperAscii) InputValidation.new
             (js "to12345678901234") Hv Hs); [reflexivity|simpl; lia].
Defined.

(** A card number made of digits only, the form that DataValidator
    and ICCardValidator ask for, is never accepted by
    validateICCardNumber: up to 20 digits are reported as an
    unsupported format, more as too long. *)
Theorem validateICCardNumber_rejects_digits
        (toUpperCase : jsstring -> jsstring) (v : InputValidation.t) (s : jsstring) :
  builtin_input v -> forallb isDigit s = true -> toUpperCase s = s ->
  fst (validateICCardNumber toUpperCase v (VString s))
  = Some (if length s <=? 20
          then Unsupported s ["TOICA"; "manaca"; "Suica"; "ICOCA"; "SUGOCA"; "PASMO"]
          else Rejected (Checked [TOO_LONG 20] s (length s) (length s))).
Proof.
  intros Hv Hdig Hup. unfold validateICCardNumber.
  assert (Halnum : forallb isAlnum s = true).
  { rewrite forallb_forall in *. intros c Hc. now apply digit_alnum, Hdig. }
  assert (Hplain : Forall plain s).
  { rewrite forallb_forall in Halnum. apply Forall_forall. intros c Hc.
    now apply alnum_facts, Halnum. }
  pose proof (validateBasicInput_plain v s {| o_maxInputLength := Some 20 |} Hv Hplain)
    as E.
  destruct (validateBasicInput v (VString s) {| o_maxInputLength := Some 20 |})
    as [basic v1].
  cbn [fst] in E. subst basic. rewrite (sanitizeInput_alnum s Halnum).
  unfold length_errors, limit. cbn [o_maxInputLength].
  destruct (Nat.ltb_spec 20 (length s)); destruct (Nat.leb_spec (length s) 20);
    try lia; [reflexivity|].
  cbn [InputValidation.valid length Nat.eqb negb sanitized]. rewrite Hup.
  rewrite find_format_builtin.
  assert (Enone : card_type s = None).
  { unfold card_type, prefix_digits. destruct s as [|c1 [|c2 tl]]; try reflexivity.
    cbn [forallb] in Hdig. apply Bool.andb_true_iff in Hdig. destruct Hdig as [H1 _].
    unfold isDigit, in_range in H1. rewrite Bool.andb_true_iff, !N.leb_le in H1.
    repeat match goal with
           | |- context [(c1 =? chr ?a)%N] =>
               replace (c1 =? chr a)%N with false
                 by (symmetry; apply N.eqb_neq; cbn; lia)
           end.
    reflexivity. }
  now rewrite Enone.
Qed.

Lemma validateICCardNumber_rejects_digits_witness :
  builtin_input InputValidation.new
  /\ forallb isDigit (js "1234567890123456") = true
  /\ fst (validateICCardNumber (map toUpperAscii) InputValidation.new
                               (VString (js "1234567890123456")))
     = Some (Unsupported (js "1234567890123456")
                         ["TOICA"; "manaca"; "Suica"; "ICOCA"; "SUGOCA"; "PASMO"]).
Proof.
  assert (Hv : builtin_input InputValidation.new) by apply up_to_cursors_refl.
  split; [exact Hv|]. split; [reflexivity|].
  rewrite (validateICCardNumber_rejects_digits (map toUpperAscii) InputValidation.new
             (js "1234567890123456") Hv eq_refl eq_refl).
  reflexivity.
Defined.

(** validateEmployeeId throws on one kind of input only, an
    input whose conversion to a string throws a value of which the
    handler of validateBasicInput cannot read the message; the mask
    is never the cause. It accepts an input only when the sanitized
    string is made of 6 to 12 letters and digits, and then returns
    that string in upper case with the mask of the string as it was
    typed; and it accepts every string of 6 to 12 letters and
    digits, wherever the cursors of the dangerous patterns are. *)
Theorem validateEmployeeId_accepts
        (toUpperCase : jsstring -> jsstring) (v : InputValidation.t) :
  (forall input,
      fst (validateEmployeeId toUpperCase v input) = None
      <-> thrown input = Some Unreadable)
  /\ (forall input u maskedId,
      fst (validateEmployeeId toUpperCase v input) = Some (E_Accepted u maskedId) ->
      exists s, String_ input = Some s
                /\ forallb isAlnum (InputValidator.sanitizeInput s) = true
                /\ 6 <= length (InputValidator.sanitizeInput s) <= 12
                /\ u = toUpperCase (InputValidator.sanitizeInput s)
                /\ maskedId = employee_mask (InputValidator.sanitizeInput s))
  /\ (forall s,
      builtin_input v -> forallb isAlnum s = true -> 6 <= length s <= 12 ->
      fst (validateEmployeeId toUpperCase v (VString s))
      = Some (E_Accepted (toUpperCase s) (employee_mask s))).
Proof.
  split; [|split].
  - intros input.
    destruct (validateBasicInput_escapes v input {| o_maxInputLength := Some 20 |})
      as [Hnone _].
    unfold validateEmployeeId.
    destruct (validateBasicInput v input {| o_maxInputLength := Some 20 |})
      as [[basic|] v1]; cbn [fst] in *.
    + destruct (negb (InputValidation.valid basic));
        [split; [discriminate|intros H; apply Hnone in H; discriminate H]|].
      destruct (negb (fst (test employeeIdPattern (sanitized basic))));
        [split; [discriminate|intros H; apply Hnone in H; discriminate H]|].
      rewrite (maskEmployeeId_cases (sanitized basic)).
      split; [discriminate|intros H; apply Hnone in H; discriminate H].
    + split; [intros _; now apply Hnone|reflexivity].
  - intros input u maskedId. unfold validateEmployeeId, validateBasicInput.
    destruct input as [| |s|[s|[|]]];
      cbn [String_ thrown fst negb InputValidation.valid];
      try discriminate.
    + destruct (first_test (dangerousPatterns (config v)) s) as [hit ps].
      destruct (negb (InputValidation.valid _)); [discriminate|].
      cbn [sanitized]. rewrite test_employeeId.
      destruct (forallb isAlnum _) eqn:Ha; [|discriminate].
      destruct (Nat.leb_spec 6 (length (InputValidator.sanitizeInput s)));
        [|discriminate].
      destruct (Nat.leb_spec (length (InputValidator.sanitizeInput s)) 12);
        [|discriminate].
      cbn [andb negb]. rewrite maskEmployeeId_long by lia.
      cbn [fst]. intros Hres. injection Hres as <- <-. exists s. repeat split; auto.
    + destruct (first_test (dangerousPatterns (config v)) s) as [hit ps].
      destruct (negb (InputValidation.valid _)); [discriminate|].
      cbn [sanitized]. rewrite test_employeeId.
      destruct (forallb isAlnum _) eqn:Ha; [|discriminate].
      destruct (Nat.leb_spec 6 (length (InputValidator.sanitizeInput s)));
        [|discriminate].
      destruct (Nat.leb_spec (length (InputValidator.sanitizeInput s)) 12);
        [|discriminate].
      cbn [andb negb]. rewrite maskEmployeeId_long by lia.
      cbn [fst]. intros Hres. injection Hres as <- <-. exists s. repeat split; auto.
  - intros s Hv Halnum [H6 H12]. unfold validateEmployeeId.
    assert (Hplain : Forall plain s).
    { rewrite forallb_forall in Halnum. apply Forall_forall. intros c Hc.
      now apply alnum_facts, Halnum. }
    pose proof (validateBasicInput_plain v s {| o_maxInputLength := Some 20 |} Hv Hplain)
      as E.
    destruct (validateBasicInput v (VString s) {| o_maxInputLength := Some 20 |})
      as [basic v1].
    cbn [fst] in E. subst basic. rewrite (sanitizeInput_alnum s Halnum).
    unfold length_errors, limit. cbn [o_maxInputLength].
    unfold jsstring, char in *.
    destruct (Nat.ltb_spec 20 (length s)); [lia|].
    cbn [InputValidation.valid length Nat.eqb negb sanitized].
    rewrite test_employeeId, Halnum. unfold jsstring, char in *.
    destruct (Nat.leb_spec 6 (length s)); [|lia].
    destruct (Nat.leb_spec (length s) 12); [|lia].
    cbn [andb negb].
    now rewrite maskEmployeeId_long by (unfold jsstring, char in *; lia).
Qed.

(** An object whose [toString] throws [undefined] makes
    validateEmployeeId throw; the string [emp001] is accepted. *)
Lemma validateEmployeeId_accepts_witness :
  fst (validateEmployeeId (map toUpperAscii) InputValidation.new
                          (VOther (Throws Unreadable))) = None
  /\ builtin_input InputValidation.new
  /\ fst (validateEmployeeId (map toUpperAscii) InputValidation.new
                             (VString (js "emp001")))
     = Some (E_Accepted (js "EMP001") (js "e****1")).
Proof.
  assert (Hv : builtin_input InputValidation.new) by apply up_to_cursors_refl.
  destruct (validateEmployeeId_accepts (map toUpperAscii) InputValidation.new)
    as (Hthrows & _ & Haccepts).
  split; [apply Hthrows; reflexivity|]. split; [exact Hv|].
  rewrite (Haccepts (js "emp001") Hv eq_refl); [reflexivity|simpl; lia].
Defined.

End InputClaims.

(* ================================================================== *)
(** * transportation-manager.js : validateTransportationId *)
(* ================================================================== *)

Module TransportClaims.
Import RegExp DataValidator InputValidation TransportationManager.
Local Open Scope string_scope.
Local Open Scope list_scope.
Local Open Scope nat_scope.

(** No result object of validateBasicInput has a property named
    [isValid]: the name of the verdict is [valid]. *)
Lemma no_isValid_property r : truthy_property "isValid" r = false.
Proof. destruct r; reflexivity. Qed.

Lemma valid_property r : truthy_property "valid" r = InputValidation.valid r.
Proof. destruct r; reflexivity. Qed.

(** validateTransportationId accepts no id at all, the six ids of
    its own allow list included: it reads the verdict of
    validateBasicInput under the name [isValid], which no result of
    validateBasicInput has, so the first test always turns the id
    away, with the errors of the basic validation (none for an id
    that validateBasicInput accepts); where validateBasicInput
    throws, so does validateTransportationId. Only the dangerous
    patterns of the input validator may have moved. *)
Theorem validateTransportationId_rejects_all
        (tm : TransportationManager.t) (id : Value) :
  let basic := validateBasicInput (validator tm) id InputValidation.no_options in
  fst (validateTransportationId tm id)
  = option_map (fun r => BAD_FORMAT (InputValidation.errors r)) (fst basic)
  /\ option_map isValid (fst (validateTransportationId tm id))
     = option_map (fun _ => false) (fst basic)
  /\ snd (validateTransportationId tm id) = with_validator tm (snd basic)
  /\ (option_map InputValidation.valid (fst basic) = Some true ->
      fst (validateTransportationId tm id) = Some (BAD_FORMAT [])).
Proof.
  cbv zeta. unfold validateTransportationId.
  destruct (validateBasicInput (validator tm) id InputValidation.no_options)
    as [[basic|] v]; cbn [fst snd option_map].
  - rewrite no_isValid_property. cbn [negb fst snd isValid option_map].
    repeat split. intros Hvalid. do 2 f_equal.
    destruct basic as [|errors s n1 n2|]; try discriminate Hvalid.
    cbn [InputValidation.valid InputValidation.errors] in *.
    destruct errors; [reflexivity|discriminate Hvalid].
  - repeat split. discriminate.
Qed.

(** The ids of the allow list are turned away like all others. *)
Example allowed_ids_rejected :
  map (fun id => option_map isValid
                   (fst (validateTransportationId TransportationManager.new
                           (VString (js id)))))
      (allowedTransportationIds (securityConfig TransportationManager.new))
  = [Some false; Some false; Some false; Some false; Some false; Some false].
Proof. vm_compute. reflexivity. Qed.

End TransportClaims.

(* ================================================================== *)
(** * SecurityConfig.js : the audit log and the health check *)
(* ================================================================== *)

Module ConfigClaims.
Import SecurityConfig ConfigSpec.
Local Open Scope string_scope.
Local Open Scope list_scope.
Local Open Scope nat_scope.

(** getAuditLog returns the newest [limit] entries, oldest first,
    or all of them when there are fewer; with the limit 0 it returns
    the whole log, and with a limit below zero it drops that many of
    the oldest entries. Every entry it returns has [sensitiveData]
    set to the mask. *)
Theorem getAuditLog_limit (Entry : Type) (auditLog : list Entry) (limit : Z) :
  let result := getAuditLog auditLog limit in
  map fst result
  = (if (0 <? limit)%Z then skipn (length auditLog - Z.to_nat limit) auditLog
     else skipn (Z.to_nat (- limit)) auditLog)
  /\ ((0 < limit)%Z -> length result = Nat.min (Z.to_nat limit) (length auditLog))
  /\ (limit = 0%Z -> map fst result = auditLog)
  /\ Forall (fun entry => snd entry = "[MASKED]") result.
Proof.
  cbv zeta. unfold getAuditLog.
  assert (Hslice :
    slice1 auditLog (- limit)
    = if (0 <? limit)%Z then skipn (length auditLog - Z.to_nat limit) auditLog
      else skipn (Z.to_nat (- limit)) auditLog).
  { unfold slice1.
    destruct (Z.ltb_spec 0 limit); destruct (Z.ltb_spec (- limit) 0); try lia.
    - f_equal. lia.
    - destruct (Z.min_spec (- limit) (Z.of_nat (length auditLog))) as [[H1 ->]|[H1 ->]].
      + reflexivity.
      + rewrite Nat2Z.id. rewrite !skipn_all2; [reflexivity|lia|lia]. }
  rewrite map_map. cbn [fst]. rewrite map_id, Hslice.
  split; [reflexivity|]. split; [|split].
  - intros H. rewrite length_map.
    destruct (Z.ltb_spec 0 limit); [|lia]. rewrite length_skipn. lia.
  - intros ->. reflexivity.
  - apply Forall_forall. intros entry H. apply in_map_iff in H.
    destruct H as (log & <- & _). reflexivity.
Qed.

(** The health check: its score is one of seven values, so its
    grade is never C; the grade is A when all six checks pass, B
    when five pass, D when four pass and F below; without a stored
    pepper the grade is B at best. It gives no recommendation for a
    failed saltLength or sessionTimeout check, so a grade D can come
    with no recommendation. *)
Theorem performSecurityHealthCheck_grades (config : Config) (pepper : bool) :
  let result := performSecurityHealthCheck config pepper in
  score result
  = nth (passed (checks result))
        (map of_Z [0; 17; 33; 50; 67; 83; 100]%Z) (of_Z 0)
  /\ grade result
     = nth (passed (checks result)) ["F"; "F"; "F"; "F"; "D"; "B"; "A"] "F"
  /\ grade result <> "C"
  /\ (pepper = false -> grade result <> "A")
  /\ (recommendations result = []
      <-> hashIterations (checks result) = true
          /\ pepperConfigured (checks result) = true
          /\ auditEnabled (checks result) = true
          /\ rateLimitEnabled (checks result) = true).
Proof.
  cbv zeta. unfold performSecurityHealthCheck, passed.
  cbn [score grade checks recommendations values hashIterations saltLength
       sessionTimeout auditEnabled rateLimitEnabled pepperConfigured].
  destruct (ge (hash_iterations config) (of_Z 100000)),
           (ge (hash_saltLength config) (of_Z 32)),
           (le (session_timeoutMinutes config) (of_Z 60)),
           (audit_enabled config), (rateLimit_enabled config), pepper;
    (split; [vm_compute; reflexivity|]);
    (split; [vm_compute; reflexivity|]);
    (split; [vm_compute; discriminate|]);
    (split; [vm_compute; intros H; try discriminate H; discriminate|]);
    vm_compute; split; try (intros H; discriminate H);
    try (intros (H1 & H2 & H3 & H4); discriminate);
    try (intros _; repeat split).
Qed.

End ConfigClaims.

(* ================================================================== *)
(** * SecureHashManager.js : validateNagoyaICCard *)
(* ================================================================== *)

Module HashClaims.
Import RegExp MatcherSpec RegExpFacts DataValidator ScanSpec ScanFacts SanitizeSpec
       InputValidation CursorSpec InputSpec PrefixFacts DeadFacts InputFacts
       SecureHashManager HashSpec.
Local Open Scope string_scope.
Local Open Scope list_scope.
Local Open Scope nat_scope.

Local Arguments test : simpl never.

Lemma maskICCardNumber_long u :
  4 <= length u -> _maskICCardNumber u = Some (last_four_mask u).
Proof.
  intros H. unfold _maskICCardNumber, last_four_mask, JsString.repeat.
  destruct (Nat.eqb_spec (length u) 0); [lia|].
  destruct (Nat.ltb_spec (length u) 4); [lia|]. cbn [orb].
  destruct (Z.ltb_spec (Z.of_nat (length u) - 4) 0); [lia|].
  rewrite ClassifyFacts.concat_repeat_star.
  change (-4)%Z with (- Z.of_nat 4)%Z. rewrite slice1_last by lia.
  replace (Z.to_nat (Z.of_nat (length u) - 4)) with (length u - 4) by lia.
  reflexivity.
Qed.

Lemma first_type_builtin u :
  first_type icCardTypes u
  = match card_type u with
    | Some type =>
        match _maskICCardNumber u with
        | Some masked => Some (Known type type (issuer_of type) masked)
        | None => None
        end
    | None => Some UNKNOWN
    end.
Proof.
  unfold icCardTypes, card_type. cbn [first_type SecureHashManager.pattern lit js seqs map
    list_ascii_of_string SecureHashManager.name SecureHashManager.issuer].
  unfold set at 1. rewrite !test_prefixed.
  unfold prefix_digits. destruct u as [|c1 [|c2 tl]]; [reflexivity|reflexivity|].
  rewrite !lit_match. cbn [existsb]. rewrite !Bool.orb_false_r.
  unfold cc, atom_match, item_match. cbn [existsb xorb item_raw andb].
  rewrite !Bool.orb_false_r. rewrite !(N.eqb_sym (chr _) c2).
  change (N_of_ascii "T") with (chr "T"). change (N_of_ascii "O") with (chr "O").
  change (N_of_ascii "M") with (chr "M"). change (N_of_ascii "A") with (chr "A").
  change (N_of_ascii "J") with (chr "J"). change (N_of_ascii "E") with (chr "E").
  change (N_of_ascii "I") with (chr "I"). change (N_of_ascii "C") with (chr "C").
  change (N_of_ascii "S") with (chr "S"). change (N_of_ascii "G") with (chr "G").
  change (N_of_ascii "P") with (chr "P").
  repeat match goal with
         | |- context [if ?b then _ else _] => destruct b; [reflexivity|]
         end.
  reflexivity.
Qed.

Lemma prefix_digits_alnum p1 p2 n u :
  prefix_digits p1 p2 n u = true ->
  isAlnum (chr p1) = true -> forallb (fun p => isAlnum (chr p)) p2 = true ->
  forallb isAlnum u = true.
Proof.
  unfold prefix_digits. destruct u as [|c1 [|c2 tl]]; try discriminate.
  rewrite !Bool.andb_true_iff, N.eqb_eq, existsb_exists.
  intros [[[-> (p & Hp & E)] Hd] _] H1 H2. apply N.eqb_eq in E. subst c2.
  cbn [forallb]. rewrite H1. rewrite forallb_forall in H2. rewrite (H2 p Hp).
  cbn [andb]. rewrite forallb_forall in *. intros c Hc. apply digit_alnum, Hd, Hc.
Qed.

(** A number with a card type is made of letters and digits. *)
Lemma card_type_alnum u type :
  card_type u = Some type -> forallb isAlnum u = true.
Proof.
  unfold card_type. intros H.
  repeat match type of H with
         | (if ?b then _ else _) = _ =>
             let E := fresh "E" in
             destruct b eqn:E;
             [exact (prefix_digits_alnum _ _ _ _ E eq_refl eq_refl)|]
         end.
  discriminate H.
Qed.

(** validateNagoyaICCard never throws. It knows the numbers made
    of two letters and 14 digits (15 for Suica), TO for TOICA, MA
    for manaca, JE for Suica, IC for ICOCA, SG for SUGOCA, PA or PB
    for PASMO, in upper case only, and answers with a mask that
    keeps the last four digits and the length of the number; every
    other string is UNKNOWN. *)
Theorem validateNagoyaICCard_cases (icCardNumber : jsstring) :
  validateNagoyaICCard icCardNumber
  = Some match card_type icCardNumber with
         | Some type =>
             Known type type (issuer_of type) (last_four_mask icCardNumber)
         | None => UNKNOWN
         end
  /\ (forall type, card_type icCardNumber = Some type ->
      length (last_four_mask icCardNumber) = length icCardNumber).
Proof.
  unfold validateNagoyaICCard. rewrite first_type_builtin. split.
  - destruct (card_type icCardNumber) as [type|] eqn:Et; [|reflexivity].
    rewrite maskICCardNumber_long by (apply card_type_length in Et; lia).
    reflexivity.
  - intros type Et. apply card_type_length in Et. unfold last_four_mask.
    rewrite length_app, repeat_length, length_skipn. lia.
Qed.

(** A number that validateNagoyaICCard knows and that the case
    mapping leaves as it is, is accepted by validateICCardNumber of
    the input validator with the same card type, wherever the
    cursors of the dangerous patterns are. The two masks differ:
    the one of the input validator shows the two letters. *)
Theorem validateNagoyaICCard_validateICCardNumber
        (toUpperCase : jsstring -> jsstring) (v : InputValidation.t) (s : jsstring)
        (type name issuer : string) (maskedNumber : jsstring) :
  builtin_input v -> toUpperCase s = s ->
  validateNagoyaICCard s = Some (Known type name issuer maskedNumber) ->
  fst (validateICCardNumber toUpperCase v (VString s))
  = Some (Accepted s type (card_name type) (card_mask s))
  /\ maskedNumber = List.repeat CardSpec.star_char 2 ++ skipn 2 (card_mask s)
  /\ firstn 2 (card_mask s) = firstn 2 s.
Proof.
  intros Hv Hup Hknown.
  unfold validateNagoyaICCard in Hknown. rewrite first_type_builtin in Hknown.
  destruct (card_type s) as [type'|] eqn:Et; [|discriminate Hknown].
  pose proof (card_type_length s type' Et) as Hlen.
  rewrite maskICCardNumber_long in Hknown by lia.
  injection Hknown as <- _ _ <-.
  pose proof (card_type_alnum s type' Et) as Halnum.
  assert (Hplain : Forall plain s).
  { apply Forall_forall. intros c Hc. rewrite forallb_forall in Halnum.
    now apply alnum_facts, Halnum. }
  assert (Hshort : length s <= 17).
  { revert Et. unfold card_type, prefix_digits.
    destruct s as [|c1 [|c2 tl]]; try discriminate. cbn [length]. intros H.
    repeat match type of H with
           | (if ?b then _ else _) = _ =>
               let E := fresh "E" in
               destruct b eqn:E;
               [rewrite !Bool.andb_true_iff, Nat.eqb_eq in E; lia|]
           end.
    discriminate H. }
  split; [|split].
  - unfold validateICCardNumber.
    pose proof (validateBasicInput_plain v s {| o_maxInputLength := Some 20 |} Hv Hplain)
      as E.
    destruct (validateBasicInput v (VString s) {| o_maxInputLength := Some 20 |})
      as [basic v1].
    cbn [fst] in E. subst basic. unfold length_errors, limit. cbn [o_maxInputLength].
    destruct (Nat.ltb_spec 20 (length s)); [lia|].
    cbn [InputValidation.valid length Nat.eqb negb sanitized].
    rewrite (sanitizeInput_alnum s Halnum), Hup, find_format_builtin, Et.
    destruct (find_card_name type' _ Et) as (format & -> & <-).
    rewrite maskCardNumber_from_6 by lia.
    reflexivity.
  - unfold last_four_mask, card_mask.
    assert (E2 : length (firstn 2 s) = 2) by (rewrite length_firstn; lia).
    rewrite skipn_app, E2, Nat.sub_diag.
    rewrite (skipn_all2 (firstn 2 s)) by lia. cbn [app skipn].
    rewrite app_assoc, <- repeat_app. do 2 f_equal. lia.
  - unfold card_mask.
    assert (E2 : length (firstn 2 s) = 2) by (rewrite length_firstn; lia).
    rewrite firstn_app, E2, Nat.sub_diag, firstn_O, app_nil_r, firstn_firstn.
    reflexivity.
Qed.

Lemma validateNagoyaICCard_validateICCardNumber_witness :
  builtin_input InputValidation.new
  /\ validateNagoyaICCard (js "PB12345678901234")
     = Some (Known "PASMO" "PASMO" "PASMO" (js "************1234"))
  /\ fst (validateICCardNumber (map toUpperAscii) InputValidation.new
                               (VString (js "PB12345678901234")))
     = Some (Accepted (js "PB12345678901234") "PASMO" "PASMO"
                      (js "PB**********1234")).
Proof.
  assert (Hv : builtin_input InputValidation.new) by apply up_to_cursors_refl.
  assert (Hn : validateNagoyaICCard (js "PB12345678901234")
               = Some (Known "PASMO" "PASMO" "PASMO" (js "************1234")))
    by (vm_compute; reflexivity).
  split; [exact Hv|]. split; [exact Hn|].
  exact (proj1 (validateNagoyaICCard_validateICCardNumber
                  (map toUpperAscii) InputValidation.new (js "PB12345678901234")
                  "PASMO" "PASMO" "PASMO" (js "************1234")
                  Hv eq_refl Hn)).
Defined.

End HashClaims.

(* ================================================================== *)
(** * InputValidator.js : validatePhoneNumber *)
(* ================================================================== *)

Module PhoneFacts.
Import RegExp MatcherSpec RegExpFacts DataValidator ScanSpec ScanFacts SanitizeSpec
       InputValidation CursorSpec InputSpec PrefixFacts DeadFacts InputFacts PhoneSpec.
Local Open Scope string_scope.
Local Open Scope list_scope.
Local Open Scope nat_scope.

Local Arguments test : simpl never.

(** ** Exact repetitions *)

Lemma clear_caps_nil st : clear_caps [] st = st.
Proof.
  destruct st as [p r cs]. unfold clear_caps. cbn [prev rest caps existsb negb].
  f_equal. induction cs as [|x cs IH]; cbn [filter]; [reflexivity|now rewrite IH].
Qed.

Lemma rest_consume n : forall st, rest (consume n st) = skipn n (rest st).
Proof.
  induction n as [|n IH]; intros st; [reflexivity|]. cbn [consume].
  destruct (rest st) as [|c tl] eqn:E; [now rewrite E|].
  rewrite IH. reflexivity.
Qed.

Lemma caps_consume n : forall st, caps (consume n st) = caps st.
Proof.
  induction n as [|n IH]; intros st; [reflexivity|]. cbn [consume].
  destruct (rest st) as [|c tl] eqn:E; [reflexivity|].
  rewrite IH. reflexivity.
Qed.

Lemma rep_exact ic a n :
  forall fuel st, S (n + length (rest st)) <= fuel ->
    rep (m ic (Chr a)) [] fuel n (Some n) st
    = if forallb (atom_match ic a) (firstn n (rest st)) && (n <=? length (rest st))
      then [consume n st] else [].
Proof.
  induction n as [|n IH]; intros fuel st Hfuel;
    (destruct fuel as [|fuel]; [lia|]); rewrite rep_unfold.
  - reflexivity.
  - cbv zeta. cbn [Nat.eqb Nat.pred option_map andb]. rewrite clear_caps_nil.
    destruct (rest st) as [|c tl] eqn:E.
    + rewrite (m_Chr_nil ic a st E). reflexivity.
    + rewrite (m_Chr_cons ic a st c tl E). cbn [firstn forallb length consume].
      rewrite E. destruct (atom_match ic a c); [|reflexivity].
      cbn [flat_map andb]. rewrite app_nil_r.
      rewrite IH by (cbn [advance rest]; cbn [length] in Hfuel; lia).
      reflexivity.
Qed.

Lemma m_digits_exact n st :
  m false (Rep (set [CDigit]) n (Some n)) st
  = if forallb isDigit (firstn n (rest st)) && (n <=? length (rest st))
    then [consume n st] else [].
Proof.
  change (m false (Rep (set [CDigit]) n (Some n)) st)
    with (rep (m false (Chr (Class false [CDigit]))) [] (S (n + length (rest st)))
              n (Some n) st).
  rewrite rep_exact by lia.
  replace (forallb (atom_match false (Class false [CDigit])) (firstn n (rest st)))
    with (forallb isDigit (firstn n (rest st)));
    [reflexivity|].
  apply forallb_ext. intros c. symmetry. apply digit_escape_match.
Qed.

Lemma m_group_digits i n st :
  m false (Group i (Rep (set [CDigit]) n (Some n))) st
  = if forallb isDigit (firstn n (rest st)) && (n <=? length (rest st))
    then [set_cap i (firstn n (rest st)) (consume n st)] else [].
Proof.
  change (m false (Group i (Rep (set [CDigit]) n (Some n))) st)
    with (map (fun st' =>
                 set_cap i (firstn (length (rest st) - length (rest st')) (rest st)) st')
              (m false (Rep (set [CDigit]) n (Some n)) st)).
  rewrite m_digits_exact.
  destruct (forallb isDigit (firstn n (rest st))); [|reflexivity].
  destruct (Nat.leb_spec n (length (rest st))); [|reflexivity].
  cbn [andb map]. rewrite rest_consume, length_skipn.
  replace (length (rest st) - (length (rest st) - n)) with n by lia. reflexivity.
Qed.

Lemma m_Seq ic r1 r2 st : m ic (Seq r1 r2) st = flat_map (m ic r2) (m ic r1 st).
Proof. reflexivity. Qed.

Lemma m_hyphen st :
  m false (Chr (Lit 45)) st
  = match rest st with
    | c :: tl => if (c =? 45)%N then [advance st c tl] else []
    | [] => []
    end.
Proof.
  destruct (rest st) as [|c tl] eqn:E.
  - now rewrite (m_Chr_nil false (Lit 45) st E).
  - now rewrite (m_Chr_cons false (Lit 45) st c tl E), lit_match.
Qed.

(** ** The mask pattern at one position *)

Lemma mask_head p u (X : jsstring) :
  match m false phoneMask {| prev := p; rest := u; caps := [] |} with
  | st :: _ => (capture 1 (caps st) ++ js "-****-" ++ capture 3 (caps st)) ++ rest st
  | [] => X
  end
  = match mask_at u with Some r => r | None => X end.
Proof.
  change phoneMask
    with (Seq (Group 1 (Rep (set [CDigit]) 3 (Some 3)))
           (Seq (Chr (Lit 45))
              (Seq (Group 2 (Rep (set [CDigit]) 4 (Some 4)))
                 (Seq (Chr (Lit 45)) (Group 3 (Rep (set [CDigit]) 4 (Some 4))))))).
  unfold mask_at, digits_hyphen.
  rewrite m_Seq, m_group_digits. cbn [rest].
  destruct (forallb isDigit (firstn 3 u) && (3 <=? length u)); [|reflexivity].
  cbn [flat_map]. rewrite app_nil_r, m_Seq, m_hyphen.
  cbn [set_cap advance rest]. rewrite rest_consume. cbn [set_cap advance rest].
  destruct (skipn 3 u) as [|h1 u2]; [reflexivity|].
  destruct (h1 =? 45)%N; [|reflexivity].
  cbn [flat_map]. rewrite app_nil_r, m_Seq, m_group_digits. cbn [advance rest].
  destruct (forallb isDigit (firstn 4 u2) && (4 <=? length u2)); [|reflexivity].
  cbn [flat_map]. rewrite app_nil_r, m_Seq, m_hyphen.
  cbn [set_cap advance rest]. rewrite rest_consume. cbn [set_cap advance rest].
  destruct (skipn 4 u2) as [|h2 u4]; [reflexivity|].
  destruct (h2 =? 45)%N; [|reflexivity].
  cbn [flat_map]. rewrite app_nil_r, m_group_digits. cbn [advance rest].
  destruct (forallb isDigit (firstn 4 u4) && (4 <=? length u4)); [|reflexivity].
  cbn [set_cap advance caps rest]. rewrite rest_consume, caps_consume.
  cbn [set_cap advance caps rest]. rewrite caps_consume.
  cbn [set_cap advance caps rest]. rewrite caps_consume.
  cbn [rest caps capture get_cap Nat.eqb]. reflexivity.
Qed.

Lemma maskPhoneNumber_step p u :
  mask_from p u
  = match mask_at u with
    | Some r => r
    | None =>
        match u with
        | c :: tl => c :: mask_from (Some c) tl
        | [] => []
        end
    end.
Proof.
  rewrite <- mask_head with (p := p). destruct u; reflexivity.
Qed.

(** ** Groups of digits between hyphens *)

Lemma digit_not_hyphen c : isDigit c = true -> (c =? 45)%N = false.
Proof.
  unfold isDigit, in_range. rewrite Bool.andb_true_iff, !N.leb_le.
  intros H. apply N.eqb_neq. lia.
Qed.

Lemma digits_hyphen_app a : forall n t,
  forallb isDigit a = true ->
  digits_hyphen n (a ++ 45%N :: t) = if length a =? n then Some t else None.
Proof.
  unfold digits_hyphen.
  induction a as [|x a IH]; intros n t Ha.
  - destruct n as [|n]; reflexivity.
  - cbn [forallb] in Ha. apply Bool.andb_true_iff in Ha. destruct Ha as [Hx Ha].
    destruct n as [|n].
    + cbn. now rewrite (digit_not_hyphen x Hx).
    + cbn [app firstn forallb length skipn Nat.leb Nat.eqb]. rewrite Hx.
      cbn [andb]. exact (IH n t Ha).
Qed.

Lemma digits_hyphen_digits d : forall n,
  forallb isDigit d = true -> digits_hyphen n d = None.
Proof.
  unfold digits_hyphen.
  induction d as [|x d IH]; intros n Hd.
  - destruct n; reflexivity.
  - cbn [forallb] in Hd. apply Bool.andb_true_iff in Hd. destruct Hd as [Hx Hd].
    destruct n as [|n].
    + cbn. now rewrite (digit_not_hyphen x Hx).
    + cbn [firstn forallb length skipn Nat.leb]. rewrite Hx. cbn [andb].
      exact (IH n Hd).
Qed.

Lemma mask_at_digits d : forallb isDigit d = true -> mask_at d = None.
Proof. intros H. unfold mask_at. now rewrite digits_hyphen_digits. Qed.

Lemma mask_at_two_groups b c :
  forallb isDigit b = true -> forallb isDigit c = true ->
  mask_at (b ++ 45%N :: c) = None.
Proof.
  intros Hb Hc. unfold mask_at. rewrite digits_hyphen_app by exact Hb.
  destruct (length b =? 3); [|reflexivity].
  now rewrite digits_hyphen_digits.
Qed.

Lemma mask_at_three_groups a b c :
  forallb isDigit a = true -> forallb isDigit b = true -> forallb isDigit c = true ->
  mask_at (a ++ 45%N :: b ++ 45%N :: c)
  = if (length a =? 3) && (length b =? 4) && (4 <=? length c)
    then Some (a ++ js "-****-" ++ c) else None.
Proof.
  intros Ha Hb Hc. unfold mask_at. rewrite digits_hyphen_app by exact Ha.
  destruct (Nat.eqb_spec (length a) 3) as [E3|]; [|reflexivity].
  rewrite digits_hyphen_app by exact Hb.
  destruct (length b =? 4); [|reflexivity].
  assert (H4 : forallb isDigit (firstn 4 c) = true).
  { pose proof Hc as Hc'. rewrite <- (firstn_skipn 4 c), forallb_app in Hc'.
    apply Bool.andb_true_iff in Hc'. exact (proj1 Hc'). }
  cbv beta iota. unfold jsstring, char in *. rewrite H4. cbn [andb].
  destruct (4 <=? length c); [|reflexivity].
  rewrite <- E3, firstn_app, firstn_all, Nat.sub_diag, firstn_O, app_nil_r.
  rewrite <- !app_assoc, firstn_skipn. reflexivity.
Qed.

Lemma mask_from_digits c : forall p,
  forallb isDigit c = true -> mask_from p c = c.
Proof.
  induction c as [|x c IH]; intros p Hc; rewrite maskPhoneNumber_step,
    (mask_at_digits _ Hc); [reflexivity|].
  cbn [forallb] in Hc. apply Bool.andb_true_iff in Hc. now rewrite IH.
Qed.

Lemma mask_from_two_groups b c : forall p,
  forallb isDigit b = true -> forallb isDigit c = true ->
  mask_from p (b ++ 45%N :: c) = b ++ 45%N :: c.
Proof.
  induction b as [|x b IH]; intros p Hb Hc; rewrite maskPhoneNumber_step,
    (mask_at_two_groups _ _ Hb Hc); cbn [app].
  - now rewrite mask_from_digits.
  - cbn [forallb] in Hb. apply Bool.andb_true_iff in Hb. now rewrite IH.
Qed.

(** A number of three groups of digits is masked exactly when the
    first group has three digits or more, the second one four and
    the third one four or more. *)
Lemma mask_from_three_groups a b c : forall p,
  forallb isDigit a = true -> forallb isDigit b = true -> forallb isDigit c = true ->
  mask_from p (a ++ 45%N :: b ++ 45%N :: c)
  = if (3 <=? length a) && (length b =? 4) && (4 <=? length c)
    then a ++ js "-****-" ++ c else a ++ 45%N :: b ++ 45%N :: c.
Proof.
  induction a as [|x a IH]; intros p Ha Hb Hc; rewrite maskPhoneNumber_step,
    (mask_at_three_groups _ _ _ Ha Hb Hc).
  - cbn [length Nat.eqb Nat.leb andb app]. cbv beta iota.
    f_equal. exact (mask_from_two_groups b c (Some 45%N) Hb Hc).
  - cbn [forallb] in Ha. apply Bool.andb_true_iff in Ha. destruct Ha as [Hx Ha].
    destruct (Nat.eqb_spec (length (x :: a)) 3) as [E3|N3].
    + replace (3 <=? length (x :: a)) with true by (symmetry; apply Nat.leb_le; lia).
      cbn [andb].
      destruct ((length b =? 4) && (4 <=? length c)) eqn:E; [reflexivity|].
      cbv beta iota. cbn [app]. f_equal. rewrite (IH _ Ha Hb Hc).
      cbn [length] in E3.
      replace (3 <=? length a) with false by (symmetry; apply Nat.leb_gt; lia).
      reflexivity.
    + cbn [andb]. cbv beta iota. cbn [app].
      replace (3 <=? length (x :: a)) with (3 <=? length a)
        by (apply Bool.eq_iff_eq_true; rewrite !Nat.leb_le; cbn [length] in *; lia).
      rewrite (IH _ Ha Hb Hc).
      destruct ((3 <=? length a) && (length b =? 4) && (4 <=? length c));
        reflexivity.
Qed.

(** ** The filter *)

Lemma phoneFilter_match c :
  atom_match false (Class true [CDigit; cc "-"; cc "("; cc ")"; cc "+"; CSpace]) c
  = negb (phone_char c).
Proof.
  unfold atom_match, item_match, phone_char, cc. cbn [existsb item_raw xorb andb].
  rewrite !Bool.orb_false_r.
  change (chr "-") with 45%N. change (chr "(") with 40%N.
  change (chr ")") with 41%N. change (chr "+") with 43%N.
  rewrite !(N.eqb_sym _ c), !Bool.orb_assoc. reflexivity.
Qed.

Lemma phoneFilter_filter p s :
  remove_from false phoneFilter p s 0 = filter phone_char s.
Proof.
  revert p. induction s as [|c tl IH]; intros p; [reflexivity|].
  cbn [remove_from filter]. unfold match_at, phoneFilter, nset.
  cbn [m rest]. rewrite phoneFilter_match.
  destruct (phone_char c); cbn [negb].
  - f_equal. apply IH.
  - cbn [advance rest length].
    replace (S (length tl) - length tl) with 1 by lia. apply IH.
Qed.

(** ** A match of the first pattern *)

Lemma reaches_chr a st c tl :
  rest st = c :: tl -> atom_match false a c = true -> caps st = [] ->
  reaches (Chr a) st tl.
Proof.
  intros E Ha Hc. exists (advance st c tl).
  rewrite (m_Chr_cons false a st c tl E), Ha. repeat split; [now left|exact Hc].
Qed.

Lemma reaches_seq r1 r2 st mid tl :
  reaches r1 st mid ->
  (forall st1, rest st1 = mid -> caps st1 = [] -> reaches r2 st1 tl) ->
  reaches (Seq r1 r2) st tl.
Proof.
  intros (st1 & H1 & E1 & K1) H2. destruct (H2 st1 E1 K1) as (st2 & H & E2 & K2).
  exists st2. repeat split; [|exact E2|exact K2].
  rewrite m_Seq. apply in_flat_map. now exists st1.
Qed.

Lemma reaches_eol st : rest st = [] -> caps st = [] -> reaches Eol st [].
Proof.
  intros E C. exists st. cbn [m]. rewrite E. repeat split; [now left|exact C].
Qed.

Lemma rep_reaches a w : forall fuel lo hi st tl,
  rest st = w ++ tl -> forallb (atom_match false a) w = true ->
  lo <= length w <= hi -> caps st = [] ->
  S (lo + length (rest st)) <= fuel ->
  exists st', In st' (rep (m false (Chr a)) [] fuel lo (Some hi) st)
              /\ rest st' = tl /\ caps st' = [].
Proof.
  induction w as [|c w IH]; intros fuel lo hi st tl E Hw Hlen Hc Hfuel;
    (destruct fuel as [|fuel]; [lia|]); rewrite rep_unfold.
  - cbn [length] in Hlen. assert (lo = 0) by lia. subst lo. exists st.
    repeat split; [|exact E|exact Hc].
    destruct hi as [|hi]; [now left|]. cbv zeta. cbn [Nat.eqb].
    apply in_or_app. right. now left.
  - cbn [forallb] in Hw. apply Bool.andb_true_iff in Hw. destruct Hw as [Hx Hw].
    cbn [length] in Hlen. destruct hi as [|hi]; [lia|].
    cbv zeta. rewrite clear_caps_nil.
    cbn [app] in E. rewrite (m_Chr_cons false a st c (w ++ tl) E), Hx.
    cbn [flat_map]. rewrite app_nil_r. cbn [advance rest].
    rewrite E. cbn [length].
    replace (length (w ++ tl) =? S (length (w ++ tl))) with false
      by (symmetry; apply Nat.eqb_neq; lia).
    rewrite Bool.andb_false_r. cbn [option_map Nat.pred].
    destruct (IH fuel (Nat.pred lo) hi
                 {| prev := Some c; rest := w ++ tl; caps := caps st |} tl
                 eq_refl Hw ltac:(lia) Hc
                 ltac:(cbn [rest]; rewrite E in Hfuel; cbn [length] in Hfuel; lia))
      as (st' & Hin & E' & C').
    exists st'. repeat split; [|exact E'|exact C'].
    destruct (lo =? 0); [apply in_or_app; left|]; exact Hin.
Qed.

Lemma reaches_digits w lo hi st tl :
  rest st = w ++ tl -> forallb isDigit w = true -> lo <= length w <= hi ->
  caps st = [] ->
  reaches (Rep (set [CDigit]) lo (Some hi)) st tl.
Proof.
  intros E Hw Hlen Hc. unfold reaches.
  change (m false (Rep (set [CDigit]) lo (Some hi)) st)
    with (rep (m false (Chr (Class false [CDigit]))) [] (S (lo + length (rest st)))
              lo (Some hi) st).
  apply (rep_reaches (Class false [CDigit]) w); try assumption; [|lia].
  rewrite <- Hw. apply forallb_ext. exact digit_escape_match.
Qed.

Lemma test_fixed_line a b c :
  forallb isDigit a = true -> forallb isDigit b = true -> forallb isDigit c = true ->
  1 <= length a <= 4 -> 1 <= length b <= 4 -> length c = 4 ->
  existsb (fun pattern => fst (test pattern (48%N :: a ++ 45%N :: b ++ 45%N :: c)))
          phonePatterns = true.
Proof.
  intros Ha Hb Hc La Lb Lc. unfold phonePatterns. cbn [existsb].
  apply Bool.orb_true_iff. left.
  change (re (seqs [Bol; lit "0"; Rep (set [CDigit]) 1 (Some 4); lit "-";
                    Rep (set [CDigit]) 1 (Some 4); lit "-";
                    Rep (set [CDigit]) 4 (Some 4); Eol]))
    with {| source :=
              Seq Bol
                (Seq (Chr (Lit 48))
                   (Seq (Rep (set [CDigit]) 1 (Some 4))
                      (Seq (Chr (Lit 45))
                         (Seq (Rep (set [CDigit]) 1 (Some 4))
                            (Seq (Chr (Lit 45))
                               (Seq (Rep (set [CDigit]) 4 (Some 4)) Eol))))));
            ignoreCase := false; global := false; lastIndex := 0 |}.
  rewrite test_bol.
  assert (H : reaches
                (Seq (Chr (Lit 48))
                   (Seq (Rep (set [CDigit]) 1 (Some 4))
                      (Seq (Chr (Lit 45))
                         (Seq (Rep (set [CDigit]) 1 (Some 4))
                            (Seq (Chr (Lit 45))
                               (Seq (Rep (set [CDigit]) 4 (Some 4)) Eol))))))
                {| prev := None; rest := 48%N :: a ++ 45%N :: b ++ 45%N :: c; caps := [] |}
                []).
  { eapply reaches_seq; [eapply reaches_chr; reflexivity|].
    intros st1 E1 K1.
    eapply reaches_seq; [apply (reaches_digits a 1 4 st1 _ E1 Ha La K1)|].
    intros st2 E2 K2.
    eapply reaches_seq; [eapply reaches_chr; [exact E2|reflexivity|exact K2]|].
    intros st3 E3 K3.
    eapply reaches_seq; [apply (reaches_digits b 1 4 st3 _ E3 Hb Lb K3)|].
    intros st4 E4 K4.
    eapply reaches_seq; [eapply reaches_chr; [exact E4|reflexivity|exact K4]|].
    intros st5 E5 K5.
    eapply reaches_seq;
      [apply (reaches_digits c 4 4 st5 []);
       [now rewrite app_nil_r|exact Hc|unfold jsstring, char in *; lia|exact K5]|].
    intros st6 E6 K6. exact (reaches_eol st6 E6 K6). }
  destruct H as (st' & Hin & _). destruct (m false _ _); [destruct Hin|reflexivity].
Qed.

End PhoneFacts.

Module PhoneClaims.
Import RegExp MatcherSpec RegExpFacts DataValidator ScanSpec ScanFacts SanitizeSpec
       InputValidation CursorSpec InputSpec PrefixFacts DeadFacts InputFacts PhoneSpec
       PhoneFacts.
Local Open Scope string_scope.
Local Open Scope list_scope.
Local Open Scope nat_scope.

Local Arguments test : simpl never.

(** validatePhoneNumber on a string of at most 20 code units
    without [<], [:] and [=], wherever the cursors of the dangerous
    patterns are: when what the filter leaves of the sanitized string
    is a fixed-line or mobile number, a zero and one to four digits,
    a hyphen, one to four digits, a hyphen and four digits, the number
    is accepted. Its masked form hides the second group only when
    that group has four digits and the first one three or more;
    every other number, 052-123-4567 for one, is returned in full as
    its masked form. *)
Theorem validatePhoneNumber_fixed_line
        (v : InputValidation.t) (s a b c : jsstring) :
  builtin_input v -> Forall plain s -> length s <= 20 ->
  filter phone_char (InputValidator.sanitizeInput s)
  = chr "0" :: a ++ hyphen :: b ++ hyphen :: c ->
  forallb isDigit a = true -> forallb isDigit b = true -> forallb isDigit c = true ->
  1 <= length a <= 4 -> 1 <= length b <= 4 -> length c = 4 ->
  let u := chr "0" :: a ++ hyphen :: b ++ hyphen :: c in
  fst (validatePhoneNumber v (VString s))
  = Some (P_Accepted u (if (2 <=? length a) && (length b =? 4)
                        then chr "0" :: a ++ js "-****-" ++ c else u)).
Proof.
  intros Hv Hs Hlen Hu Ha Hb Hc La Lb Lc. cbv zeta. unfold validatePhoneNumber.
  pose proof (validateBasicInput_plain v s {| o_maxInputLength := Some 20 |} Hv Hs) as E.
  destruct (validateBasicInput v (VString s) {| o_maxInputLength := Some 20 |})
    as [basic v1].
  cbn [fst] in E. subst basic. unfold length_errors, limit. cbn [o_maxInputLength].
  destruct (Nat.ltb_spec 20 (length s)); [lia|].
  cbn [InputValidation.valid length Nat.eqb negb sanitized].
  unfold replace_all. rewrite phoneFilter_filter, Hu. cbv zeta.
  change (chr "0") with 48%N. unfold hyphen.
  unfold jsstring, char in *.
  rewrite (test_fixed_line a b c Ha Hb Hc La Lb Lc). cbn [negb fst].
  change (_maskPhoneNumber (48%N :: a ++ 45%N :: b ++ 45%N :: c))
    with (mask_from None (48%N :: a ++ 45%N :: b ++ 45%N :: c)).
  change (48%N :: a ++ 45%N :: b ++ 45%N :: c)
    with ((48%N :: a) ++ 45%N :: b ++ 45%N :: c).
  rewrite mask_from_three_groups;
    [|cbn [forallb]; rewrite Ha; reflexivity|exact Hb|exact Hc].
  cbn [length]. rewrite Lc. cbn [Nat.leb]. rewrite Bool.andb_true_r.
  reflexivity.
Qed.

Lemma validatePhoneNumber_fixed_line_witness :
  builtin_input InputValidation.new
  /\ Forall plain (js "052-123-4567")
  /\ fst (validatePhoneNumber InputValidation.new (VString (js "052-123-4567")))
     = Some (P_Accepted (js "052-123-4567") (js "052-123-4567"))
  /\ fst (validatePhoneNumber InputValidation.new (VString (js "090-1234-5678")))
     = Some (P_Accepted (js "090-1234-5678") (js "090-****-5678")).
Proof.
  assert (Hv : builtin_input InputValidation.new) by apply up_to_cursors_refl.
  assert (Hs : forall s, forallb (fun c => negb (N.eqb c 60 || N.eqb c 58 || N.eqb c 61)) s = true ->
                         Forall plain s).
  { intros s H. apply Forall_forall. intros x Hx. rewrite forallb_forall in H.
    specialize (H x Hx). apply Bool.negb_true_iff in H.
    rewrite !Bool.orb_false_iff, !N.eqb_neq in H. unfold plain. tauto. }
  split; [exact Hv|]. split; [apply Hs; reflexivity|]. split.
  - apply (validatePhoneNumber_fixed_line InputValidation.new (js "052-123-4567")
             (js "52") (js "123") (js "4567") Hv);
      [apply Hs; reflexivity|simpl; lia|vm_compute; reflexivity|reflexivity|reflexivity
      |reflexivity|simpl; lia|simpl; lia|reflexivity].
  - apply (validatePhoneNumber_fixed_line InputValidation.new (js "090-1234-5678")
             (js "90") (js "1234") (js "5678") Hv);
      [apply Hs; reflexivity|simpl; lia|vm_compute; reflexivity|reflexivity|reflexivity
      |reflexivity|simpl; lia|simpl; lia|reflexivity].
Defined.

End PhoneClaims.

(* ================================================================== *)
(** * Evaluations on inputs of the test suites *)
(* ================================================================== *)

Module Examples.
Import RegExp InputValidator DataValidator ICCardValidator Fixtures.
Local Open Scope string_scope.
Local Open Scope list_scope.

Definition scan (s : string) : option Violation :=
  violation (fst (performSecurityCheck (DataValidator.new iv0 hm0) (js s) (js "notes"))).

Example scan_sql_keyword : scan "'; DROP TABLE users; --" = Some SQL_INJECTION.
Proof. reflexivity. Qed.

Example scan_sql_tautology : scan "' OR '1'='1" = Some SQL_INJECTION.
Proof. reflexivity. Qed.

Example scan_os_separator : scan "test; rm -rf /" = Some OS_COMMAND_INJECTION.
Proof. reflexivity. Qed.

Example scan_path_traversal : scan "../../../etc/shadow" = Some OS_COMMAND_INJECTION.
Proof. reflexivity. Qed.

Example scan_event_handler : scan "<body onload=go>" = Some XSS.
Proof. reflexivity. Qed.

Example scan_embed : scan "<embed>" = Some XSS.
Proof. reflexivity. Qed.

(** The word SCRIPT is among the SQL patterns, which are tried
    first. *)
Example scan_script_element : scan "<script>x</script>" = Some SQL_INJECTION.
Proof. reflexivity. Qed.

Example scan_plain_text : scan "EMP001" = None.
Proof. reflexivity. Qed.

Example scan_word_inside_word : scan "ORDER" = None.
Proof. reflexivity. Qed.

Example field_employeeId :
  map (fun s => DataValidator.valid
                  (fst (validateField (DataValidator.new iv0 hm0) (js "employeeId")
                                      (VString (js s)) no_options)))
      ["EMP001"; "USER123456"; "emp001"; "E1"; "VERYLONGEMPLOYEEID123"; "EMP-001"; "EMP 001"; ""]
  = [true; true; true; false; false; false; false; false].
Proof. vm_compute. reflexivity. Qed.

Example field_null_required :
  fst (validateField (DataValidator.new iv0 hm0) (js "employeeId") VNull no_options)
  = REQUIRED_FIELD.
Proof. reflexivity. Qed.

(** Names that every object inherits: [constructor] is known to
    validateField, and a key [__proto__] of the data, as JSON.parse
    makes one, passes and is kept neither in [sanitizedData] nor
    among the own properties of [fieldResults]. *)
Example object_inherited_keys :
  let results :=
    fst (validateObject stringify0 (DataValidator.new iv0 hm0)
           [(js "constructor", VString (js "Taro")); (js "__proto__", VString (js "x"))]
           [js "constructor"; js "valueOf"; js "nickname"]) in
  errors results = [MISSING_REQUIRED_FIELD (js "nickname")]
  /\ sanitizedData results = [(js "constructor", js "Taro")]
  /\ map fst (fieldResults results) = [js "constructor"]
  /\ fieldResultsPrototype results = Some (Ok (js "x") (Some (js "x"))).
Proof. vm_compute. repeat split. Qed.

Example checksum_fixtures :
  map (fun s => validateChecksum (js s) (js "SUICA"))
      ["4532015112830366"; "4000000000000002"; "5555555555554444";
       "1234567890123456"; "1111111111111111"]
  = [true; true; true; false; false].
Proof. vm_compute. reflexivity. Qed.

Example mask_fixtures :
  map (fun s => maskCardNumber (js s)) ["1234567890123456"; "123456789012"; "123"]
  = [Some (js "1234********3456"); Some (js "1234****9012"); Some (js "****")].
Proof. vm_compute. reflexivity. Qed.

Example sanitize_script_element :
  sanitizeInput (js "  <script>alert(1)</script>x <img src=x onerror=alert(1)> ")
  = js "x <img src=x >".
Proof. vm_compute. reflexivity. Qed.

End Examples.
